(** * Historical balance resolution: a shallow embedding of the balance route

    The route answers "what was the balance of wallet W on chain C at time T".
    This file embeds the route's helpers (chain profile, rate-limited fetch,
    block-by-timestamp resolvers, Tron ledger replay, address normalisation and
    the request handler) and states the properties of the specification over
    them.

    Conventions of the embedding:
    - Block numbers and Unix timestamps are [Z]: they stay far below 2^53,
      where the arithmetic of JS numbers is exact.  Balances of the EVM
      chains are the big integers of the node, [Z] as well.
    - The amounts that the Tron replays add up are JS numbers, that is
      doubles: they are integers held in [Z], and every sum or difference is
      rounded to the nearest double ([Js.toNumber], [Js.add], [Js.sub]).
    - JavaScript strings are [string], texts of ASCII characters;
      [undefined]/[null] is [None].
    - A thrown exception is the [Throw] outcome of the effect monad [M].
    - The network is a deterministic transport: the answer to the n-th
      outbound HTTP call, given the request.  JSON-RPC nodes are oracles. *)

From Stdlib Require Import ZArith NArith List String Ascii Bool Lia.
From Stdlib Require Import Permutation Sorted DecimalString.
From Stdlib Require Strings.Byte.
Import ListNotations.

Local Open Scope string_scope.
Local Open Scope Z_scope.

(** JavaScript's strict equality on strings. *)
Infix "===" := String.eqb (at level 70, no associativity).

(* ================================================================== *)
(** ** JavaScript string helpers *)
(* ================================================================== *)

Module Js.

(** [s.startsWith(p)] *)
Definition startsWith (s p : string) : bool := String.prefix p s.

(** [s.substring(n)] *)
Fixpoint substring_from (n : nat) (s : string) : string :=
  match n, s with
  | O, _ => s
  | S n', String _ s' => substring_from n' s'
  | S _, EmptyString => EmptyString
  end.

(** [s.includes(p)] *)
Definition includes (s p : string) : bool :=
  match String.index 0 p s with
  | Some _ => true
  | None => false
  end.

(** [c.toLowerCase()] on one ASCII character *)
Definition lower_ascii (c : ascii) : ascii :=
  let n := nat_of_ascii c in
  if (Nat.leb 65 n && Nat.leb n 90)%bool then ascii_of_nat (n + 32) else c.

(** [s.toLowerCase()] (ASCII range) *)
Fixpoint toLowerCase (s : string) : string :=
  match s with
  | EmptyString => EmptyString
  | String c s' => String (lower_ascii c) (toLowerCase s')
  end.

(** [String(n)] for an integer *)
Definition showZ (z : Z) : string := NilZero.string_of_int (Z.to_int z).

(** The white space of ASCII: space, tab, line feed, vertical tab, form
    feed and carriage return. *)
Definition is_space (c : ascii) : bool :=
  let n := nat_of_ascii c in
  (Nat.eqb n 32 || Nat.eqb n 9 || Nat.eqb n 10 || Nat.eqb n 11
   || Nat.eqb n 12 || Nat.eqb n 13)%bool.

Fixpoint trimStart (s : string) : string :=
  match s with
  | String c s' => if is_space c then trimStart s' else s
  | EmptyString => EmptyString
  end.

Fixpoint trimEnd (s : string) : string :=
  match s with
  | EmptyString => EmptyString
  | String c s' =>
    match trimEnd s' with
    | EmptyString => if is_space c then EmptyString else String c EmptyString
    | t => String c t
    end
  end.

(** [s.trim()] (ASCII white space) *)
Definition trim (s : string) : string := trimEnd (trimStart s).

(** Truthiness of an optional string: [undefined] and [''] are falsy. *)
Definition truthy (o : option string) : bool :=
  match o with
  | Some s => negb (String.eqb s "")
  | None => false
  end.

(** The JS number nearest to an integer: the double with 53 significant
    bits, ties to even.  Integers up to 2^53 in magnitude are held as they
    are; a larger one is rounded to a multiple of its unit in the last
    place, 2^(log2 |z| - 52).  This is what [parseInt] and [parseFloat]
    make of a decimal integer.  (Magnitudes from 2^1024 on, which JS turns
    into Infinity, are not modelled.) *)
Definition toNumber (z : Z) : Z :=
  let a := Z.abs z in
  if a <=? 2 ^ 53 then z
  else
    let ulp := 2 ^ (Z.log2 a - 52) in
    let q := a / ulp in
    let r := a mod ulp in
    let half := ulp / 2 in
    let q' :=
      if r <? half then q
      else if half <? r then q + 1
      else if Z.even q then q else q + 1 in
    Z.sgn z * (q' * ulp).

(** [a + b] and [a - b] on integer-valued numbers: IEEE addition and
    subtraction give the exact result rounded to the nearest double. *)
Definition add (a b : Z) : Z := toNumber (a + b).

Definition sub (a b : Z) : Z := toNumber (a - b).

End Js.

(* ================================================================== *)
(** ** Errors and the environment *)
(* ================================================================== *)

(** A thrown value: an axios error carrying [error.response?.status], or a
    plain [Error(message)]. *)
Inductive JsError : Type :=
| AxiosError (status : option Z) (message : string)
| Error (message : string).

Definition error_message (e : JsError) : string :=
  match e with
  | AxiosError _ m => m
  | Error m => m
  end.

Definition response_status (e : JsError) : option Z :=
  match e with
  | AxiosError st _ => st
  | Error _ => None
  end.

(** [process.env] as far as the route reads it. *)
Record Env : Type := mkEnv {
  TRONSCAN_API_KEY : option string;
  BSCSCAN_API_KEY : option string;
  ETHERSCAN_API_KEY : option string;
  ALCHEMY_API_KEY : option string
}.

(** A pure computation that may throw. *)
Definition Result (A : Type) : Type := (A + JsError)%type.

(* ================================================================== *)
(** ** Chain profile (getApiKey, getChainId, getRpcUrl, getExplorerApiUrl) *)
(* ================================================================== *)

(** [getChainId] returns a number for EVM chains and a name for Tron. *)
Inductive ChainId : Type :=
| NumId (n : Z)
| NameId (s : string).

Definition getApiKey (env : Env) (chain : string) : option string :=
  if chain === "tron" then TRONSCAN_API_KEY env
  else if chain === "bsc" then BSCSCAN_API_KEY env
  else ETHERSCAN_API_KEY env.

Definition getChainId (chain network : string) : Result ChainId :=
  if chain === "ethereum" then
    inl (if network === "mainnet" then NumId 1 else NumId 11155111)
  else if chain === "polygon" then
    inl (if network === "mainnet" then NumId 137 else NumId 80002)
  else if chain === "bsc" then
    inl (if network === "mainnet" then NumId 56 else NumId 97)
  else if chain === "tron" then
    inl (if network === "mainnet" then NameId "mainnet" else NameId "shasta")
  else inr (Error ("Unsupported chain/network: " ++ chain ++ "/" ++ network)).

Definition getRpcUrl (env : Env) (chain network : string) : Result string :=
  if chain === "tron" then
    if network === "shasta" then inl "https://api.shasta.trongrid.io"
    else inl "https://api.trongrid.io"
  else
    match ALCHEMY_API_KEY env with
    | None => inr (Error "Alchemy API Key missing")
    | Some alchemyKey =>
      if alchemyKey === "" then inr (Error "Alchemy API Key missing")
      else if chain === "ethereum" then
        inl (if network === "mainnet"
             then "https://eth-mainnet.g.alchemy.com/v2/" ++ alchemyKey
             else "https://eth-sepolia.g.alchemy.com/v2/" ++ alchemyKey)
      else if chain === "polygon" then
        inl (if network === "mainnet"
             then "https://polygon-mainnet.g.alchemy.com/v2/" ++ alchemyKey
             else "https://polygon-amoy.g.alchemy.com/v2/" ++ alchemyKey)
      else if chain === "bsc" then
        inl (if network === "mainnet"
             then "https://bnb-mainnet.g.alchemy.com/v2/" ++ alchemyKey
             else "https://bnb-testnet.g.alchemy.com/v2/" ++ alchemyKey)
      else inr (Error ("Unsupported chain: " ++ chain))
    end.

Definition getExplorerApiUrl (chain network : string) : string :=
  if chain === "tron" then
    if network === "shasta" then "https://shastapi.tronscan.org/api"
    else "https://apilist.tronscanapi.com/api"
  else if chain === "bsc" then
    if network === "testnet" then "https://api-testnet.bscscan.com/api"
    else "https://api.bscscan.com/api"
  else "https://api.etherscan.io/v2/api".

(** The chain profile of the specification: the three lookups together. *)
Record ChainProfile : Type := mkProfile {
  chainId : ChainId;
  rpcUrl : string;
  explorerBaseUrl : string
}.

Definition resolve (env : Env) (chain network : string) : Result ChainProfile :=
  match getChainId chain network with
  | inr e => inr e
  | inl cid =>
    match getRpcUrl env chain network with
    | inr e => inr e
    | inl rpc => inl (mkProfile cid rpc (getExplorerApiUrl chain network))
    end
  end.

(** The supported matrix of the specification. *)
Definition supported (chain network : string) : bool :=
  ((chain === "ethereum") && ((network === "mainnet") || (network === "sepolia")))
  || ((chain === "polygon") && ((network === "mainnet") || (network === "amoy")))
  || ((chain === "bsc") && ((network === "mainnet") || (network === "testnet")))
  || ((chain === "tron") && ((network === "mainnet") || (network === "shasta"))).

Definition supported_chain (chain : string) : bool :=
  (chain === "ethereum") || (chain === "polygon") || (chain === "bsc")
  || (chain === "tron").

(* ================================================================== *)
(** ** Tron address normalisation (bs58, toTronHex) *)
(* ================================================================== *)

(** Positional numerals, most significant digit first: the arithmetic core
    of the Base58 codec and of byte strings. *)
Module Radix.
Local Open Scope N_scope.

Definition of_digits (base : N) (ds : list N) : N :=
  fold_left (fun acc d => acc * base + d) ds 0.

Fixpoint to_digits_aux (fuel : nat) (base n : N) (acc : list N) : list N :=
  match fuel with
  | O => acc
  | S fuel' =>
    if n =? 0 then acc
    else to_digits_aux fuel' base (n / base) (n mod base :: acc)
  end.

(** The digits of [n], without leading zeros ([[]] for 0). *)
Definition to_digits (base n : N) : list N :=
  to_digits_aux (N.to_nat (N.size n)) base n [].

(** Number of leading zero digits. *)
Fixpoint leading_zeros (ds : list N) : nat :=
  match ds with
  | 0 :: ds' => S (leading_zeros ds')
  | _ => O
  end.

End Radix.

(** The package [bs58] is an external dependency of the route.  Its codec is
    modelled by its documented behaviour (Base58 over the Bitcoin alphabet:
    every leading zero byte is one leading '1', the rest is the big-endian
    number rewritten in base 58; decoding rejects characters outside the
    alphabet). *)
Module Bs58.

Definition ALPHABET : string :=
  "123456789ABCDEFGHJKLMNPQRSTUVWXYZabcdefghijkmnopqrstuvwxyz".

Fixpoint index_of (c : ascii) (s : string) : option N :=
  match s with
  | EmptyString => None
  | String c' s' =>
    if Ascii.eqb c c' then Some 0%N
    else option_map N.succ (index_of c s')
  end.

Fixpoint char_at (n : nat) (s : string) : ascii :=
  match s, n with
  | EmptyString, _ => "1"%char
  | String c _, O => c
  | String _ s', S n' => char_at n' s'
  end.

Fixpoint digits_of_string (s : string) : option (list N) :=
  match s with
  | EmptyString => Some []
  | String c s' =>
    match index_of c ALPHABET, digits_of_string s' with
    | Some d, Some ds => Some (d :: ds)
    | _, _ => None
    end
  end.

Fixpoint string_of_digits (ds : list N) : string :=
  match ds with
  | [] => EmptyString
  | d :: ds' => String (char_at (N.to_nat d) ALPHABET) (string_of_digits ds')
  end.

Definition byte_of_N (n : N) : Byte.byte :=
  match Byte.of_N n with
  | Some b => b
  | None => Byte.x00
  end.

Definition number_of_bytes (bs : list Byte.byte) : N :=
  Radix.of_digits 256 (map Byte.to_N bs).

(** [bs58.decode(s)]; [None] is the thrown "Non-base58 character". *)
Definition decode (s : string) : option (list Byte.byte) :=
  match digits_of_string s with
  | None => None
  | Some ds =>
    Some (repeat Byte.x00 (Radix.leading_zeros ds)
          ++ map byte_of_N (Radix.to_digits 256 (Radix.of_digits 58 ds)))%list
  end.

(** [bs58.encode(bytes)] *)
Definition encode (bs : list Byte.byte) : string :=
  let ns := map Byte.to_N bs in
  string_of_digits (repeat 0%N (Radix.leading_zeros ns)
                    ++ Radix.to_digits 58 (Radix.of_digits 256 ns))%list.

End Bs58.

(** [Buffer.from(bytes).toString('hex')] *)
Module Hex.

Definition digit (n : N) : ascii :=
  Bs58.char_at (N.to_nat n) "0123456789abcdef".

Fixpoint encode (bs : list Byte.byte) : string :=
  match bs with
  | [] => EmptyString
  | b :: bs' =>
    String (digit (Byte.to_N b / 16))
           (String (digit (Byte.to_N b mod 16)) (encode bs'))
  end.

End Hex.

(** [bytes.slice(0, -4)] *)
Definition slice_0_minus4 {A} (bytes : list A) : list A :=
  firstn (List.length bytes - 4) bytes.

Definition toTronHex (address : string) : Result string :=
  if Js.startsWith address "0x" then
    inl ("41" ++ Js.substring_from 2 address)
  else if Js.startsWith address "T" then
    match Bs58.decode address with
    | Some bytes => inl (Hex.encode (slice_0_minus4 bytes))
    | None => inr (Error "Non-base58 character")
    end
  else inl address.

(** [toTronHex(a).toLowerCase()], the key under which the native replay
    compares addresses. *)
Definition tronKey (address : string) : Result string :=
  match toTronHex address with
  | inl hex => inl (Js.toLowerCase hex)
  | inr e => inr e
  end.

(* ================================================================== *)
(** ** The outside world: HTTP transport and JSON-RPC nodes *)
(* ================================================================== *)

(** One block entry of the TronScan block index (timestamp in ms). *)
Record TronBlock : Type := mkTronBlock {
  blk_number : Z;
  blk_timestamp : Z
}.

(** One entry of TronScan's transaction list.  [tx_amount] and [tx_fee] are
    the integers that [tx.amount] and [tx.cost?.fee] spell, in sun; [None]
    is a missing field. *)
Record TronTx : Type := mkTronTx {
  tx_timestamp : Z;
  contractRet : string;
  contractType : Z;
  ownerAddress : option string;
  toAddress : option string;
  tx_amount : option Z;
  tx_fee : option Z
}.

(** One entry of TronScan's TRC-20 transfer list; [quant] is the integer
    that [tx.quant] spells, in base units of the token. *)
Record TokenTransfer : Type := mkTransfer {
  block_ts : Z;
  from_address : string;
  to_address : string;
  quant : Z
}.

(** One entry of [trc20_tokens]. *)
Record TokenInfo : Type := mkTokenInfo {
  ti_symbol : string;
  ti_decimals : option Z
}.

(** The [data] of a successful HTTP response.  The explorer envelope with
    [status === '1'] carries the block number; any other status carries a
    message and a free-text result. *)
Inductive Payload : Type :=
| BlockList (data : option (list TronBlock))
| LlamaBlock (height : Z)
| ExplorerOk (result : Z)
| ExplorerNotOk (message : string) (result : option string)
| TxPage (data : option (list TronTx))
| TransferPage (token_transfers : option (list TokenTransfer))
| Trc20Tokens (trc20_tokens : option (list TokenInfo)).

(** The outbound HTTP GETs of the route, with the query parameters of the
    URL each one builds. *)
Inductive Request : Type :=
| GetTronBlocks (baseUrl : string) (start_timestamp : option Z)
                (end_timestamp : Z)
| GetLlamaBlock (timestamp : Z)
| GetBlockNoByTime (baseUrl : string) (timestamp : Z)
                   (apikey : option string) (chainid : option ChainId)
| GetTronTransactions (baseUrl address : string) (limit start : Z)
| GetTrc20Token (baseUrl contract : string)
| GetTrc20Transfers (baseUrl : string) (limit start : Z)
                    (relatedAddress contract_address : string).

(** What one HTTP call yields: a response, or an axios error with the
    response status if there was a response at all. *)
Inductive HttpResult : Type :=
| Response (data : Payload)
| Failure (status : option Z) (message : string).

(** The transport: the answer to a request, given how many calls were made
    before it. *)
Definition Transport : Type := Request -> nat -> HttpResult.

(** An ethers [JsonRpcProvider] seen as an oracle on one chain. *)
Record Provider : Type := mkProvider {
  tipNumber : Z;
  blockTimestamp : Z -> Z;
  getBalance : string -> Z -> Result Z;
  erc20_balanceOf : string -> string -> Z -> Result Z;
  erc20_decimals : string -> Result Z;
  erc20_symbol : string -> Result string
}.

(** The observable trace of a run: the calls made, with the API-key header
    each carried, and the back-off delays slept, both in order. *)
Record World : Type := mkWorld {
  calls : list (Request * option string);
  sleeps : list Z
}.

Definition initial : World := mkWorld [] [].

(* ================================================================== *)
(** ** The effect monad *)
(* ================================================================== *)

Inductive Outcome (A : Type) : Type :=
| Ok (a : A)
| Throw (e : JsError)
| OutOfFuel.

Arguments Ok {A} a.
Arguments Throw {A} e.
Arguments OutOfFuel {A}.

Definition M (A : Type) : Type := World -> Outcome A * World.

Definition ret {A} (a : A) : M A := fun w => (Ok a, w).

Definition throw {A} (e : JsError) : M A := fun w => (Throw e, w).

Definition bind {A B} (m : M A) (k : A -> M B) : M B :=
  fun w =>
    match m w with
    | (Ok a, w') => k a w'
    | (Throw e, w') => (Throw e, w')
    | (OutOfFuel, w') => (OutOfFuel, w')
    end.

(** [try { m } catch (e) { h e }] *)
Definition tryCatch {A} (m : M A) (h : JsError -> M A) : M A :=
  fun w =>
    match m w with
    | (Throw e, w') => h e w'
    | r => r
    end.

Definition lift {A} (r : Result A) : M A :=
  match r with
  | inl a => ret a
  | inr e => throw e
  end.

Notation "x <- m ;; k" := (bind m (fun x => k))
  (at level 61, m at next level, right associativity).

(** [await new Promise(resolve => setTimeout(resolve, ms))] *)
Definition sleep (ms : Z) : M unit :=
  fun w => (Ok tt, mkWorld (calls w) (sleeps w ++ [ms])).

Section Route.

Variable env : Env.
Variable transport : Transport.
Variable JsonRpcProvider : string -> Provider.

(** [axios.get(url, { headers })] *)
Definition axios_get (url : Request) (headers : option string) : M Payload :=
  fun w =>
    let w' := mkWorld (calls w ++ [(url, headers)]) (sleeps w) in
    match transport url (List.length (calls w)) with
    | Response data => (Ok data, w')
    | Failure st msg => (Throw (AxiosError st msg), w')
    end.

(** [apiKey ? { 'TRON-PRO-API-KEY': apiKey } : {}] *)
Definition tron_headers (apiKey : option string) : option string :=
  if Js.truthy apiKey then apiKey else None.

(* ---------------------------------------------------------------- *)
(** *** Rate-limited fetch client *)

Definition is429 (e : JsError) : bool :=
  match response_status e with
  | Some st => st =? 429
  | None => false
  end.

Fixpoint fetchWithRetry (url : Request) (config : option string)
         (retries : nat) (backoff : Z) : M Payload :=
  tryCatch (axios_get url config)
    (fun error =>
       match retries with
       | S retries' =>
         if is429 error then
           _ <- sleep backoff ;;
           fetchWithRetry url config retries' (backoff * 2)
         else throw error
       | O => throw error
       end).

(** The defaults [retries = 5, backoff = 3000]. *)
Definition fetch (url : Request) (config : option string) : M Payload :=
  fetchWithRetry url config 5 3000.


(* ---------------------------------------------------------------- *)
(** *** Block-timestamp resolvers *)

(** [data.data], with [undefined] and the empty array alike. *)
Definition block_data (p : Payload) : list TronBlock :=
  match p with
  | BlockList (Some l) => l
  | _ => []
  end.

Definition getTronBlockNumberByTimestamp (network : string) (timestamp : Z)
  : M Z :=
  let start := (timestamp - 3600) * 1000 in
  let end_ := (timestamp + 3600) * 1000 in
  let apiKey := getApiKey env "tron" in
  let baseUrl :=
    if network === "shasta" then "https://shastapi.tronscan.org/api"
    else "https://apilist.tronscanapi.com/api" in
  let headers := tron_headers apiKey in
  data <- fetch (GetTronBlocks baseUrl (Some start) end_) headers ;;
  match block_data data with
  | [] =>
    preciseData <-
      fetch (GetTronBlocks baseUrl None (timestamp * 1000)) headers ;;
    match block_data preciseData with
    | [] => throw (Error "No Tron block found before this timestamp")
    | b :: _ => ret (blk_number b)
    end
  | b :: _ => ret (blk_number b)
  end.

(** The [while (min <= max)] loop of the RPC binary search.  [None] only
    when the fuel runs out before the bounds cross. *)
Fixpoint bsearch (fuel : nat) (blockTs : Z -> Z)
         (timestamp min max closestBlock : Z) : option Z :=
  if min <=? max then
    match fuel with
    | O => None
    | S fuel' =>
      let mid := (min + max) / 2 in
      if blockTs mid >=? timestamp
      then bsearch fuel' blockTs timestamp min (mid - 1) mid
      else bsearch fuel' blockTs timestamp (mid + 1) max closestBlock
    end
  else Some closestBlock.

(** Step 2 of [getBscBlockNumberByTimestamp]: the search over a node. *)
Definition bscRpcBinarySearch (provider : Provider) (timestamp : Z)
  : option Z :=
  let latestNumber := tipNumber provider in
  let latestTimestamp := blockTimestamp provider latestNumber in
  if latestTimestamp <? timestamp then Some latestNumber
  else
    let closestBlock := latestNumber in
    let avgBlockTime := 3 in
    let timeDiff := latestTimestamp - timestamp in
    let estimatedBlockDiff := timeDiff / avgBlockTime in
    let estimatedBlock := Z.max 0 (latestNumber - estimatedBlockDiff) in
    let min := Z.max 0 (estimatedBlock - 100000) in
    let max := Z.min latestNumber (estimatedBlock + 100000) in
    let minTs := blockTimestamp provider min in
    let maxTs := blockTimestamp provider max in
    let '(min, max) :=
      if (minTs >? timestamp) || (maxTs <? timestamp)
      then (0, latestNumber) else (min, max) in
    bsearch (Z.to_nat (max - min + 1)) (blockTimestamp provider)
            timestamp min max closestBlock.

(** The block-index answer is read as [{ height }].  An answer of another
    shape has no [height] and the source would return [undefined]; block
    numbers being integers here, such an answer is taken as a failure of
    the fast path.  The node behind the RPC URL is a total
    oracle, so the search itself does not throw. *)
Definition getBscBlockNumberByTimestamp (network : string) (timestamp : Z)
  : M Z :=
  fast <-
    (if network === "mainnet" then
       tryCatch
         (data <- axios_get (GetLlamaBlock timestamp) None ;;
          match data with
          | LlamaBlock height => ret (Some height)
          | _ => throw (Error "height is undefined")
          end)
         (fun e => ret None)
     else ret None) ;;
  match fast with
  | Some height => ret height
  | None =>
    rpcUrl <- lift (getRpcUrl env "bsc" network) ;;
    match bscRpcBinarySearch (JsonRpcProvider rpcUrl) timestamp with
    | Some n => ret n
    | None => fun w => (OutOfFuel, w)
    end
  end.

(** [${data.result}] inside the error message *)
Definition result_text (result : option string) : string :=
  match result with
  | Some r => r
  | None => "undefined"
  end.

(** [getTronBlockHashByNumber], the only other HTTP call of the file (a
    POST to the node), is never called and is left out. *)
Definition getBlockNumberByTimestamp (chain network : string)
           (timestamp : Z) : M Z :=
  if chain === "tron" then getTronBlockNumberByTimestamp network timestamp
  else if chain === "bsc" then getBscBlockNumberByTimestamp network timestamp
  else
    let apiKey := getApiKey env chain in
    let baseUrl := getExplorerApiUrl chain network in
    chainid <-
      (if Js.includes baseUrl "/v2/api"
       then cid <- lift (getChainId chain network) ;; ret (Some cid)
       else ret None) ;;
    data <- axios_get (GetBlockNoByTime baseUrl timestamp apiKey chainid)
                      None ;;
    match data with
    | ExplorerOk result => ret result
    | ExplorerNotOk message result =>
      if (message === "NOTOK")
         && match result with
            | Some r => Js.includes r "future"
            | None => false
            end
      then
        rpcUrl <- lift (getRpcUrl env chain network) ;;
        ret (tipNumber (JsonRpcProvider rpcUrl))
      else
        throw (Error ("Explorer API error: " ++ message ++ " ("
                      ++ result_text result ++ ")"))
    | _ => throw (Error "Explorer API error: undefined (undefined)")
    end.

(* ---------------------------------------------------------------- *)
(** *** Ledger replay (Tron) *)

(** [e.response?.status || e.message] inside a template string *)
Definition status_or_message (e : JsError) : string :=
  match response_status e with
  | Some st => if st =? 0 then error_message e else Js.showZ st
  | None => error_message e
  end.

(** The [while (hasMore)] loop that both replay functions run, one over
    transactions and one over token transfers.  [request start] is the URL
    of the page at offset [start]; [rows] reads the page out of the
    response ([undefined] and the empty array alike); [cap] is the safety
    limit and [label] the prefix of the wrapping error.  One unit of fuel
    is one iteration. *)
Fixpoint paginate {E : Type} (fuel : nat) (request : Z -> Request)
         (headers : option string) (rows : Payload -> list E)
         (cap : Z) (label : string) (all : list E) (start : Z)
  : M (list E) :=
  match fuel with
  | O => fun w => (OutOfFuel, w)
  | S fuel' =>
    page <-
      tryCatch
        (data <- fetch (request start) headers ;; ret (rows data))
        (fun e => throw (Error (label ++ status_or_message e))) ;;
    match page with
    | [] => ret all
    | _ :: _ =>
      let all' := (all ++ page)%list in
      let start' := start + 50 in
      if Z.of_nat (List.length all') >=? cap then ret all'
      else paginate fuel' request headers rows cap label all' start'
    end
  end.

(** [list.sort((a, b) => key(a) - key(b))]: a stable sort by [key]. *)
Fixpoint insert_by {E : Type} (key : E -> Z) (x : E) (l : list E) : list E :=
  match l with
  | [] => [x]
  | y :: l' =>
    if key x <=? key y then x :: l else y :: insert_by key x l'
  end.

Fixpoint sort_by {E : Type} (key : E -> Z) (l : list E) : list E :=
  match l with
  | [] => []
  | x :: l' => insert_by key x (sort_by key l')
  end.

Definition tx_rows (p : Payload) : list TronTx :=
  match p with
  | TxPage (Some l) => l
  | _ => []
  end.

Definition transfer_rows (p : Payload) : list TokenTransfer :=
  match p with
  | TransferPage (Some l) => l
  | _ => []
  end.

(** [parseInt(x || 0)] of a field that spells an integer: the JS number
    nearest to it. *)
Definition parseIntOr0 (x : option Z) : Z :=
  match x with
  | Some n => Js.toNumber n
  | None => 0
  end.

(** [a ? toTronHex(a).toLowerCase() : null] *)
Definition optKey (a : option string) : Result (option string) :=
  match a with
  | None => inl None
  | Some s =>
    if s === "" then inl None
    else match tronKey s with
         | inl k => inl (Some k)
         | inr e => inr e
         end
  end.

(** [x === hexAddress] where [x] may be [null] *)
Definition key_is (x : option string) (hexAddress : string) : bool :=
  match x with
  | Some k => k === hexAddress
  | None => false
  end.

(** The body of [for (const tx of relevantTxs)] in the native replay. *)
Definition replayTx (hexAddress : string) (balance : Z) (tx : TronTx)
  : Result Z :=
  if negb (contractRet tx === "SUCCESS") then inl balance
  else if contractType tx =? 1 then
    match optKey (ownerAddress tx) with
    | inr e => inr e
    | inl ownerHex =>
      match optKey (toAddress tx) with
      | inr e => inr e
      | inl toHex =>
        let amount := parseIntOr0 (tx_amount tx) in
        let fee := parseIntOr0 (tx_fee tx) in
        if key_is toHex hexAddress then inl (Js.add balance amount)
        else if key_is ownerHex hexAddress
             then inl (Js.sub (Js.sub balance amount) fee)
        else inl balance
      end
    end
  else inl balance.

Fixpoint replayTxs (hexAddress : string) (txs : list TronTx) (balance : Z)
  : Result Z :=
  match txs with
  | [] => inl balance
  | tx :: rest =>
    match replayTx hexAddress balance tx with
    | inl balance' => replayTxs hexAddress rest balance'
    | inr e => inr e
    end
  end.

(** Lines 264-315: sort, filter, replay. *)
Definition replayNative (address : string) (allTransactions : list TronTx)
           (targetTimestamp : Z) : Result Z :=
  let sorted := sort_by tx_timestamp allTransactions in
  let relevantTxs :=
    filter (fun tx => tx_timestamp tx <=? targetTimestamp) sorted in
  match tronKey address with
  | inr e => inr e
  | inl hexAddress => replayTxs hexAddress relevantTxs 0
  end.

(** Lines 225-260: the pagination of the native replay.  The loop cannot
    run more often than the cap, which is the fuel. *)
Definition fetchAllTransactions (address network : string)
  : M (list TronTx) :=
  let apiKey := getApiKey env "tron" in
  let baseUrl := getExplorerApiUrl "tron" network in
  paginate (Z.to_nat 10000)
           (fun start => GetTronTransactions baseUrl address 50 start)
           (tron_headers apiKey) tx_rows 10000
           "Failed to fetch transactions: " [] 0.

Definition getTronHistoricalBalance (address network : string)
           (targetTimestamp : Z) : M Z :=
  allTransactions <- fetchAllTransactions address network ;;
  lift (replayNative address allTransactions targetTimestamp).

Definition getTronTokenInfo (tokenAddress network : string)
  : M (option TokenInfo) :=
  let baseUrl := getExplorerApiUrl "tron" network in
  let apiKey := getApiKey env "tron" in
  tryCatch
    (data <- fetch (GetTrc20Token baseUrl tokenAddress)
                   (tron_headers apiKey) ;;
     match data with
     | Trc20Tokens (Some (t :: _)) => ret (Some t)
     | _ => ret None
     end)
    (fun e => ret None).

(** The body of [for (const tx of relevantTransfers)] in the token replay. *)
Definition replayTransfer (address : string) (balance : Z)
           (tx : TokenTransfer) : Z :=
  let amount := Js.toNumber (quant tx) in
  if to_address tx === address then Js.add balance amount
  else if from_address tx === address then Js.sub balance amount
  else balance.

(** Lines 387-407: sort, filter, replay. *)
Definition replayToken (address : string) (allTransfers : list TokenTransfer)
           (targetTimestamp : Z) : Z :=
  let sorted := sort_by block_ts allTransfers in
  let relevantTransfers :=
    filter (fun tx => block_ts tx <=? targetTimestamp) sorted in
  fold_left (replayTransfer address) relevantTransfers 0.

(** Lines 352-385: the pagination of the token replay. *)
Definition fetchAllTransfers (address tokenAddress network : string)
  : M (list TokenTransfer) :=
  let apiKey := getApiKey env "tron" in
  let baseUrl := getExplorerApiUrl "tron" network in
  paginate (Z.to_nat 5000)
           (fun start =>
              GetTrc20Transfers baseUrl 50 start address tokenAddress)
           (tron_headers apiKey) transfer_rows 5000
           "Failed to fetch token transfers: " [] 0.

Definition getTronTokenHistoricalBalance (address tokenAddress network : string)
           (targetTimestamp : Z) : M Z :=
  allTransfers <- fetchAllTransfers address tokenAddress network ;;
  ret (replayToken address allTransfers targetTimestamp).

(* ---------------------------------------------------------------- *)
(** *** The request handler *)

(** The JSON body of the request; [date] is the instant that
    [new Date(date).getTime()] yields, in milliseconds. *)
Record Body : Type := mkBody {
  body_address : option string;
  body_chain : option string;
  body_network : option string;
  body_date : option Z;
  body_tokenAddress : option string
}.

(** A formatted amount: [raw] minor units shown with [unit_decimals]
    decimals ([ethers.formatUnits(raw, d)], [raw / Math.pow(10, d)]). *)
Record Formatted : Type := Units {
  raw : Z;
  unit_decimals : Z
}.

Record BalanceJson : Type := mkBalanceJson {
  r_chain : string;
  r_network : string;
  r_address : string;
  r_timestamp : Z;
  r_blockNumber : Z;
  r_balance : Formatted;
  r_symbol : string;
  r_rawBalance : Z;
  r_note : option string
}.

Inductive Reply : Type :=
| Json200 (b : BalanceJson)
| JsonError (status : Z) (error : string).

Definition default (d : string) (o : option string) : string :=
  match o with
  | Some s => s
  | None => d
  end.

(** [tokenInfo.decimals || 18] *)
Definition decimalsOr18 (d : option Z) : Z :=
  match d with
  | Some n => if n =? 0 then 18 else n
  | None => 18
  end.

(** The Tron branch inside its own [try]. *)
Definition tronBalance (address chain network : string) (ts : Z)
           (tokenAddress : option string)
  : M (Z * Z * Formatted * string) :=
  tryCatch
    (historicalBlockNumber <- getBlockNumberByTimestamp chain network ts ;;
     let targetTimestampMs := ts * 1000 in
     if Js.truthy tokenAddress then
       let token := default "" tokenAddress in
       tokenInfo <- getTronTokenInfo token network ;;
       let symbol :=
         match tokenInfo with
         | Some ti => ti_symbol ti
         | None => "UNKNOWN"
         end in
       let decimals :=
         match tokenInfo with
         | Some ti => decimalsOr18 (ti_decimals ti)
         | None => 18
         end in
       rawBalance <-
         getTronTokenHistoricalBalance address token network
                                       targetTimestampMs ;;
       ret (historicalBlockNumber, rawBalance,
            Units rawBalance decimals, symbol)
     else
       rawBalance <-
         getTronHistoricalBalance address network targetTimestampMs ;;
       ret (historicalBlockNumber, rawBalance, Units rawBalance 6, "TRX"))
    (fun e =>
       throw (Error ("Failed to fetch Tron balance: " ++ error_message e))).

(** The native symbol the handler starts from. *)
Definition nativeSymbol (chain : string) : string :=
  if chain === "bsc" then "BNB"
  else if chain === "polygon" then "MATIC"
  else "ETH".

Definition POST (body : Body) : M Reply :=
  tryCatch
    (let chain := default "ethereum" (body_chain body) in
     let network := default "mainnet" (body_network body) in
     match body_date body with
     | None => ret (JsonError 400 "Address and Date are required")
     | Some date =>
       if negb (Js.truthy (body_address body))
       then ret (JsonError 400 "Address and Date are required")
       else
         let address := Js.trim (default "" (body_address body)) in
         let tokenAddress :=
           if Js.truthy (body_tokenAddress body)
           then option_map Js.trim (body_tokenAddress body)
           else body_tokenAddress body in
         let ts := date / 1000 in
         blockNumber <- getBlockNumberByTimestamp chain network ts ;;
         rpcUrl <- lift (getRpcUrl env chain network) ;;
         let provider := JsonRpcProvider rpcUrl in
         let symbol := nativeSymbol chain in
         if chain === "tron" then
           r <- tronBalance address chain network ts tokenAddress ;;
           let '(historicalBlockNumber, rawBalance, balanceFormatted,
                 symbol) := r in
           ret (Json200
                  (mkBalanceJson chain network address ts
                     historicalBlockNumber balanceFormatted symbol rawBalance
                     (Some "Historical balance calculated via transaction replay")))
         else if Js.truthy tokenAddress then
           let token := default "" tokenAddress in
           balanceWei <- lift (erc20_balanceOf provider token address blockNumber) ;;
           meta <-
             tryCatch
               (dec <- lift (erc20_decimals provider token) ;;
                sym <- lift (erc20_symbol provider token) ;;
                ret (sym, Units balanceWei dec))
               (fun e => ret (symbol, Units balanceWei 18)) ;;
           let '(symbol, balanceFormatted) := meta in
           ret (Json200
                  (mkBalanceJson chain network address ts blockNumber
                     balanceFormatted symbol balanceWei None))
         else
           balanceWei <- lift (getBalance provider address blockNumber) ;;
           ret (Json200
                  (mkBalanceJson chain network address ts blockNumber
                     (Units balanceWei 18) symbol balanceWei None))
     end)
    (fun error =>
       ret (JsonError 500
              (if error_message error === "" then "Internal Server Error"
               else error_message error))).

End Route.

Arguments fetchWithRetry transport url config retries backoff : simpl nomatch.

(* ================================================================== *)
(** ** Vocabulary of the statements *)
(* ================================================================== *)

(** An HTTP result that is a 429. *)
Definition rateLimited (r : HttpResult) : bool :=
  match r with
  | Failure (Some st) _ => st =? 429
  | _ => false
  end.

(** What a call that got [r] hands to its caller. *)
Definition outcome_of (r : HttpResult) : Outcome Payload :=
  match r with
  | Response data => Ok data
  | Failure st msg => Throw (AxiosError st msg)
  end.

(** The first [k] back-off delays starting at [b]: b, 2b, 4b, ... *)
Fixpoint backoffs (k : nat) (b : Z) : list Z :=
  match k with
  | O => []
  | S k' => b :: backoffs k' (b * 2)
  end.

(** The world after [n] more calls of [url] and the delays [ds]. *)
Definition after (w : World) (url : Request) (config : option string)
           (n : nat) (ds : list Z) : World :=
  mkWorld (calls w ++ repeat (url, config) n) (sleeps w ++ ds).

(** Number of outbound calls of a run. *)
Definition attempts {A} (r : Outcome A * World) : nat :=
  List.length (calls (snd r)).

(** Delays slept during a run. *)
Definition delays {A} (r : Outcome A * World) : list Z := sleeps (snd r).

(** The upstream keeps to the page size: no response carries more than 50
    rows. *)
Definition pagesWithin {E} (rows : Payload -> list E) (transport : Transport)
  : Prop :=
  forall url n data,
    transport url n = Response data -> (List.length (rows data) <= 50)%nat.

(** An upstream that never runs dry: every page is the same [size] rows. *)
Definition endlessPages (size : nat) (tx : TronTx) (tr : TokenTransfer)
  : Transport :=
  fun req _ =>
    match req with
    | GetTronTransactions _ _ _ _ => Response (TxPage (Some (repeat tx size)))
    | GetTrc20Transfers _ _ _ _ _ =>
      Response (TransferPage (Some (repeat tr size)))
    | _ => Failure None "offline"
    end.

(** An upstream that serves one page of history at offset 0 and nothing
    after it. *)
Definition onePage (txs : list TronTx) (trs : list TokenTransfer) : Transport :=
  fun req _ =>
    match req with
    | GetTronTransactions _ _ _ start =>
      Response (TxPage (Some (if start =? 0 then txs else [])))
    | GetTrc20Transfers _ _ start _ _ =>
      Response (TransferPage (Some (if start =? 0 then trs else [])))
    | _ => Failure None "offline"
    end.

(** A TRX transfer as TronScan lists it. *)
Definition transferTx (ts : Z) (from to : string) (amount fee : Z) : TronTx :=
  mkTronTx ts "SUCCESS" 1 (Some from) (Some to) (Some amount) (Some fee).

(** The key of an event address; [None] when it is absent or does not
    decode. *)
Definition keyOf (a : option string) : option string :=
  match optKey a with
  | inl k => k
  | inr _ => None
  end.

(** Both addresses of the event are absent or decode. *)
Definition wellFormed (tx : TronTx) : Prop :=
  (exists k, optKey (ownerAddress tx) = inl k)
  /\ (exists k, optKey (toAddress tx) = inl k).

(** The events the replay counts: successful TRX transfers no later than
    the target. *)
Definition counts (target : Z) (tx : TronTx) : bool :=
  (contractRet tx === "SUCCESS") && (tx_timestamp tx <=? target)
  && (contractType tx =? 1).

Definition recipientIs (hexAddress : string) (tx : TronTx) : bool :=
  key_is (keyOf (toAddress tx)) hexAddress.

Definition senderIs (hexAddress : string) (tx : TronTx) : bool :=
  key_is (keyOf (ownerAddress tx)) hexAddress.

Definition amountOf (tx : TronTx) : Z := parseIntOr0 (tx_amount tx).

Definition feeOf (tx : TronTx) : Z := parseIntOr0 (tx_fee tx).

Definition sumZ (l : list Z) : Z := fold_right Z.add 0 l.

(** Sum of the amounts of the counted transfers to the address. *)
Definition received (hexAddress : string) (target : Z) (txs : list TronTx) : Z :=
  sumZ (map amountOf
            (filter (fun tx => counts target tx && recipientIs hexAddress tx)
                    txs)).

(** Sum of amount plus fee of the counted transfers from the address. *)
Definition spent (hexAddress : string) (target : Z) (txs : list TronTx) : Z :=
  sumZ (map (fun tx => amountOf tx + feeOf tx)
            (filter (fun tx => counts target tx && senderIs hexAddress tx)
                    txs)).

(** The same, leaving out transfers the address sent to itself. *)
Definition spentToOthers (hexAddress : string) (target : Z)
           (txs : list TronTx) : Z :=
  sumZ (map (fun tx => amountOf tx + feeOf tx)
            (filter (fun tx => counts target tx && senderIs hexAddress tx
                               && negb (recipientIs hexAddress tx))
                    txs)).

(** What one event adds to the balance. *)
Definition contribution (hexAddress : string) (target : Z) (tx : TronTx) : Z :=
  if counts target tx then
    if recipientIs hexAddress tx then amountOf tx
    else if senderIs hexAddress tx then - (amountOf tx + feeOf tx)
    else 0
  else 0.

(** All rows of [l] but those of one last page of the upstream number
    fewer than the cap. *)
Definition withinOnePageOf {E} (cap : Z) (rows : Payload -> list E)
           (transport : Transport) (l : list E) : Prop :=
  exists before last,
    l = (before ++ last)%list
    /\ Z.of_nat (List.length before) < cap
    /\ (last = []
        \/ exists url n data,
            transport url n = Response data /\ last = rows data).

(** A run that ended, by a value or by a thrown error. *)
Definition terminated {A} (r : Outcome A * World) : Prop :=
  match fst r with
  | OutOfFuel => False
  | _ => True
  end.

(** The rows a run fetched, if it returned any. *)
Definition fetched {E} (r : Outcome (list E) * World) : list E :=
  match fst r with
  | Ok l => l
  | _ => []
  end.

(** The decimals/symbol lookup of a token contract fails: one of the two
    calls rejects. *)
Definition metadataFails (p : Provider) (token : string) : Prop :=
  match erc20_decimals p token, erc20_symbol p token with
  | inl _, inl _ => False
  | _, _ => True
  end.

(** A TronScan that knows the blocks and one transfer of 5 units to [owner]
    but answers 404 to the token lookup. *)
Definition tokenInfoMissing (owner : string) : Transport :=
  fun req _ =>
    match req with
    | GetTronBlocks _ _ end_ =>
      Response (BlockList (Some [mkTronBlock (end_ / 3000) end_]))
    | GetTrc20Token _ _ => Failure (Some 404) "Not Found"
    | GetTrc20Transfers _ _ start _ _ =>
      Response (TransferPage
                  (Some (if start =? 0
                         then [mkTransfer 1000 "TLa2f6VPqDgRE67v1736s7bJ8Ray5wYjU7"
                                          owner 5]
                         else [])))
    | _ => Failure None "offline"
    end.

(** A numeral in a base: digits below the base, the first one not zero. *)
Definition numeral (base : N) (ds : list N) : Prop :=
  Forall (fun d => (d < base)%N) ds /\ hd 1%N ds <> 0%N.

(** A synthetic chain: blocks 0..tip with the given timestamps; the balance
    and token oracles, which the block search never consults, reject. *)
Definition syntheticChain (tip : Z) (ts : Z -> Z) : Provider :=
  mkProvider tip ts (fun _ _ => inr (Error "no state"))
             (fun _ _ _ => inr (Error "no state"))
             (fun _ => inr (Error "no state"))
             (fun _ => inr (Error "no state")).

Definition nondecreasing (ts : Z -> Z) (tip : Z) : Prop :=
  forall a b, 0 <= a -> a <= b -> b <= tip -> ts a <= ts b.

Definition increasing (ts : Z -> Z) (tip : Z) : Prop :=
  forall a b, 0 <= a -> a < b -> b <= tip -> ts a < ts b.

(** The brute-force reference of the specification: scan the blocks upwards
    from [n] and return the first whose timestamp is at least [target]. *)
Fixpoint linearScanFrom (fuel : nat) (ts : Z -> Z) (target n : Z) : option Z :=
  match fuel with
  | O => None
  | S fuel' =>
    if ts n >=? target then Some n
    else linearScanFrom fuel' ts target (n + 1)
  end.

Definition linearScan (p : Provider) (target : Z) : option Z :=
  linearScanFrom (Z.to_nat (tipNumber p + 1)) (blockTimestamp p) target 0.

(** The TronScan block index keeps to the range it is asked for. *)
Definition honoursRange (transport : Transport) : Prop :=
  forall baseUrl start end_ n l b,
    transport (GetTronBlocks baseUrl start end_) n = Response (BlockList (Some l)) ->
    In b l ->
    blk_timestamp b <= end_
    /\ match start with
       | Some s => s <= blk_timestamp b
       | None => True
       end.

(** A block index whose newest block in any non-empty range is stamped at
    the very end of the range, as on a chain that produces a block at every
    instant. *)
Definition denseIndex : Transport :=
  fun req _ =>
    match req with
    | GetTronBlocks _ start end_ =>
      let inside :=
        match start with
        | Some s => s <=? end_
        | None => true
        end in
      if inside then Response (BlockList (Some [mkTronBlock (end_ / 3000) end_]))
      else Response (BlockList (Some []))
    | _ => Failure None "offline"
    end.

(** An explorer that keeps a history, newest first, and serves it by
    [start] and [limit] as asked. *)
Definition pagedUpstream (txs : list TronTx) (trs : list TokenTransfer)
  : Transport :=
  fun req _ =>
    match req with
    | GetTronTransactions _ _ limit start =>
      Response (TxPage (Some (firstn (Z.to_nat limit)
                                     (skipn (Z.to_nat start) txs))))
    | GetTrc20Transfers _ limit start _ _ =>
      Response (TransferPage (Some (firstn (Z.to_nat limit)
                                           (skipn (Z.to_nat start) trs))))
    | _ => Failure None "offline"
    end.

(** Token units received by [address] up to the target: the transfers whose
    [to_address] is the very string [address]. *)
Definition tokenReceived (address : string) (target : Z)
           (trs : list TokenTransfer) : Z :=
  sumZ (map quant
            (filter (fun t => (block_ts t <=? target)
                              && (to_address t === address)) trs)).

(** Token units sent by [address] to others up to the target. *)
Definition tokenSent (address : string) (target : Z)
           (trs : list TokenTransfer) : Z :=
  sumZ (map quant
            (filter (fun t => (block_ts t <=? target)
                              && (from_address t === address)
                              && negb (to_address t === address)) trs)).

(** An event that cannot move the balance of the address: not counted, or
    between other addresses. *)
Definition bystander (hexAddress : string) (target : Z) (tx : TronTx) : Prop :=
  counts target tx = false
  \/ (recipientIs hexAddress tx = false /\ senderIs hexAddress tx = false).

(** The thrown value of a run, if it threw. *)
Definition thrown {A} (r : Outcome A * World) : option JsError :=
  match fst r with
  | Throw e => Some e
  | _ => None
  end.

(** The two queries of the Tron block lookup: the window of one hour on
    either side of the target, and everything up to the target. *)
Definition tronWindowQuery (network : string) (timestamp : Z) : Request :=
  GetTronBlocks (if network === "shasta"
                 then "https://shastapi.tronscan.org/api"
                 else "https://apilist.tronscanapi.com/api")
                (Some ((timestamp - 3600) * 1000)) ((timestamp + 3600) * 1000).

Definition tronUpToQuery (network : string) (timestamp : Z) : Request :=
  GetTronBlocks (if network === "shasta"
                 then "https://shastapi.tronscan.org/api"
                 else "https://apilist.tronscanapi.com/api")
                None (timestamp * 1000).

(** The answer that settles a fetch of [url] issued in the world [w]: [k]
    answers that are 429s, within the retry budget, and then [r]. *)
Definition settledBy (transport : Transport) (url : Request) (w : World)
           (k : nat) (r : HttpResult) : Prop :=
  (k <= 5)%nat
  /\ (forall i, (i < k)%nat ->
                rateLimited (transport url (List.length (calls w) + i)%nat)
                = true)
  /\ transport url (List.length (calls w) + k)%nat = r.

(** The block index of a chain that has a block at every instant up to
    [tipTs] and none after it. *)
Definition haltedIndex (tipTs : Z) : Transport :=
  fun req _ =>
    match req with
    | GetTronBlocks _ start end_ =>
      let newest := Z.min end_ tipTs in
      let inside :=
        match start with
        | Some s => s <=? newest
        | None => true
        end in
      if inside
      then Response (BlockList (Some [mkTronBlock (newest / 3000) newest]))
      else Response (BlockList (Some []))
    | _ => Failure None "offline"
    end.

(** An event that can move the balance of the address: counted, and to or
    from the address. *)
Definition touches (hexAddress : string) (target : Z) (tx : TronTx) : bool :=
  counts target tx && (recipientIs hexAddress tx || senderIs hexAddress tx).

(** What an event that touches the address does to the running balance:
    [balance += amount] for the recipient, [balance -= amount] and then
    [balance -= fee] for the sender, on JS numbers. *)
Definition applyTransfer (hexAddress : string) (balance : Z) (tx : TronTx)
  : Z :=
  if recipientIs hexAddress tx then Js.add balance (amountOf tx)
  else Js.sub (Js.sub balance (amountOf tx)) (feeOf tx).

(** The amounts and fees, in absolute value, of the events that touch the
    address: a bound on every running total of the replay. *)
Definition volume (hexAddress : string) (target : Z) (txs : list TronTx) : Z :=
  sumZ (map (fun tx => Z.abs (amountOf tx) + Z.abs (feeOf tx))
            (filter (touches hexAddress target) txs)).

(** The same for token transfers, on the raw address strings. *)
Definition tokenTouches (address : string) (target : Z) (t : TokenTransfer)
  : bool :=
  (block_ts t <=? target)
  && ((to_address t === address) || (from_address t === address)).

Definition tokenVolume (address : string) (target : Z)
           (trs : list TokenTransfer) : Z :=
  sumZ (map (fun t => Z.abs (quant t)) (filter (tokenTouches address target) trs)).

(* ================================================================== *)
(** ** Chain profile *)
(* ================================================================== *)

Lemma supported_is_supported_chain chain network :
  supported chain network = true -> supported_chain chain = true.
Proof.
  unfold supported, supported_chain.
  destruct (chain === "ethereum"), (chain === "polygon"),
    (chain === "bsc"), (chain === "tron"); simpl; auto.
Qed.

Lemma getChainId_supported chain network :
  supported_chain chain = true -> exists cid, getChainId chain network = inl cid.
Proof.
  unfold supported_chain, getChainId.
  destruct (chain === "ethereum"); [eauto|].
  destruct (chain === "polygon"); [eauto|].
  destruct (chain === "bsc"); [eauto|].
  destruct (chain === "tron"); [eauto|]. discriminate.
Qed.

Lemma getRpcUrl_supported env key chain network :
  ALCHEMY_API_KEY env = Some key -> key <> "" ->
  supported_chain chain = true -> exists u, getRpcUrl env chain network = inl u.
Proof.
  intros Hk Hne. unfold supported_chain, getRpcUrl. rewrite Hk.
  destruct (String.eqb_spec key "") as [->|_]; [congruence|].
  destruct (chain === "tron").
  - destruct (network === "shasta"); eauto.
  - destruct (chain === "ethereum"); [eauto|].
    destruct (chain === "polygon"); [eauto|].
    destruct (chain === "bsc"); [eauto|]. discriminate.
Qed.

(** C8 (as stated, refuted): resolution does not fail for every pair outside
    the supported matrix.  With the RPC key configured, the pair
    (ethereum, shasta) is outside the matrix and still resolves, to the
    Sepolia profile. *)
Lemma resolve_outside_matrix_succeeds :
  ~ (forall env chain network,
        supported chain network = false ->
        exists e, resolve env chain network = inr e).
Proof.
  intros H.
  destruct (H (mkEnv None None None (Some "k")) "ethereum" "shasta" eq_refl)
    as [e He].
  vm_compute in He. discriminate.
Qed.

(** C8 (amended): with the RPC key configured, resolution fails with the
    unsupported-chain error exactly for the chains other than ethereum,
    polygon, bsc and tron, whatever the network; for those four chains it
    succeeds for every network name; and for the eight pairs of the
    supported matrix it yields the chain id, the RPC URL and the explorer
    URL of that very network. *)
Theorem resolve_fails_iff_unknown_chain env key chain network :
  ALCHEMY_API_KEY env = Some key -> key <> "" ->
  (supported_chain chain = false ->
   resolve env chain network
   = inr (Error ("Unsupported chain/network: " ++ chain ++ "/" ++ network)))
  /\ (supported_chain chain = true ->
      exists p, resolve env chain network = inl p)
  /\ (supported chain network = true ->
      exists p, resolve env chain network = inl p)
  /\ (resolve env "ethereum" "mainnet"
      = inl (mkProfile (NumId 1)
                       ("https://eth-mainnet.g.alchemy.com/v2/" ++ key)
                       "https://api.etherscan.io/v2/api")
      /\ resolve env "ethereum" "sepolia"
         = inl (mkProfile (NumId 11155111)
                          ("https://eth-sepolia.g.alchemy.com/v2/" ++ key)
                          "https://api.etherscan.io/v2/api")
      /\ resolve env "polygon" "mainnet"
         = inl (mkProfile (NumId 137)
                          ("https://polygon-mainnet.g.alchemy.com/v2/" ++ key)
                          "https://api.etherscan.io/v2/api")
      /\ resolve env "polygon" "amoy"
         = inl (mkProfile (NumId 80002)
                          ("https://polygon-amoy.g.alchemy.com/v2/" ++ key)
                          "https://api.etherscan.io/v2/api")
      /\ resolve env "bsc" "mainnet"
         = inl (mkProfile (NumId 56)
                          ("https://bnb-mainnet.g.alchemy.com/v2/" ++ key)
                          "https://api.bscscan.com/api")
      /\ resolve env "bsc" "testnet"
         = inl (mkProfile (NumId 97)
                          ("https://bnb-testnet.g.alchemy.com/v2/" ++ key)
                          "https://api-testnet.bscscan.com/api")
      /\ resolve env "tron" "mainnet"
         = inl (mkProfile (NameId "mainnet") "https://api.trongrid.io"
                          "https://apilist.tronscanapi.com/api")
      /\ resolve env "tron" "shasta"
         = inl (mkProfile (NameId "shasta") "https://api.shasta.trongrid.io"
                          "https://shastapi.tronscan.org/api")).
Proof.
  intros Hk Hne.
  assert (Hyes : supported_chain chain = true ->
                 exists p, resolve env chain network = inl p).
  { intros Hs. unfold resolve.
    destruct (getChainId_supported chain network Hs) as [cid ->].
    destruct (getRpcUrl_supported env key chain network Hk Hne Hs) as [u ->].
    eauto. }
  split; [|split; [|split]]; auto.
  - unfold supported_chain, resolve, getChainId. intros Hs.
    destruct (chain === "ethereum"); [discriminate|].
    destruct (chain === "polygon"); [discriminate|].
    destruct (chain === "bsc"); [discriminate|].
    destruct (chain === "tron"); [discriminate|]. reflexivity.
  - intros Hs. apply Hyes. eapply supported_is_supported_chain; eauto.
  - unfold resolve, getRpcUrl. rewrite Hk.
    destruct (String.eqb_spec key "") as [->|_]; [congruence|].
    repeat (split; [reflexivity|]). reflexivity.
Qed.

Lemma resolve_fails_iff_unknown_chain_witness :
  resolve (mkEnv None None None (Some "k")) "solana" "mainnet"
  = inr (Error "Unsupported chain/network: solana/mainnet")
  /\ (exists p, resolve (mkEnv None None None (Some "k")) "bsc" "testnet"
                = inl p)
  /\ resolve (mkEnv None None None (Some "k")) "bsc" "testnet"
     = inl (mkProfile (NumId 97) "https://bnb-testnet.g.alchemy.com/v2/k"
                      "https://api-testnet.bscscan.com/api").
Proof.
  pose proof (resolve_fails_iff_unknown_chain
                (mkEnv None None None (Some "k")) "k" "solana" "mainnet"
                eq_refl ltac:(discriminate)) as [H1 _].
  pose proof (resolve_fails_iff_unknown_chain
                (mkEnv None None None (Some "k")) "k" "bsc" "testnet"
                eq_refl ltac:(discriminate))
    as (_ & _ & H3 & _ & _ & _ & _ & _ & H9 & _).
  split; [exact (H1 eq_refl)|]. split; [exact (H3 eq_refl)|exact H9].
Defined.

(* ================================================================== *)
(** ** Rate-limited fetch client *)
(* ================================================================== *)

Section FetchFacts.

Variable transport : Transport.
Variable url : Request.
Variable config : option string.

Lemma rateLimited_is429 r :
  rateLimited r = true ->
  exists msg, r = Failure (Some 429) msg.
Proof.
  destruct r as [d|[st|] msg]; simpl; try discriminate.
  intros H. apply Z.eqb_eq in H. subst. eauto.
Qed.

Lemma after_step w n b ds :
  after (mkWorld (calls w ++ [(url, config)]) (sleeps w ++ [b])) url config n ds
  = after w url config (S n) (b :: ds).
Proof.
  unfold after; simpl. now rewrite <- !app_assoc.
Qed.

(** After [k] 429s (k within the retry budget), the next answer, whatever
    it is unless a 429 again, is handed to the caller as it is. *)
Lemma fetchWithRetry_settles k :
  forall retries backoff w,
    (k <= retries)%nat ->
    (forall i, (i < k)%nat ->
               rateLimited (transport url (List.length (calls w) + i)%nat) = true) ->
    rateLimited (transport url (List.length (calls w) + k)%nat) = false ->
    fetchWithRetry transport url config retries backoff w
    = (outcome_of (transport url (List.length (calls w) + k)%nat),
       after w url config (S k) (backoffs k backoff)).
Proof.
  induction k as [|k IH]; intros retries backoff w Hle Hpre Hlast.
  - rewrite Nat.add_0_r in *.
    destruct retries; simpl; unfold tryCatch, axios_get, after;
      destruct (transport url (List.length (calls w))) as [d|st msg] eqn:E;
      simpl; rewrite ?app_nil_r; try reflexivity.
    unfold is429; simpl. simpl in Hlast.
    destruct st as [st|]; [rewrite Hlast|]; reflexivity.
  - destruct retries as [|retries]; [lia|].
    pose proof (Hpre O ltac:(lia)) as H0. rewrite Nat.add_0_r in H0.
    destruct (rateLimited_is429 _ H0) as [msg E].
    simpl. unfold tryCatch at 1, axios_get at 1. rewrite E. simpl.
    unfold bind, sleep; simpl.
    rewrite IH.
    + simpl. rewrite length_app; simpl.
      replace (List.length (calls w) + 1 + k)%nat
        with (List.length (calls w) + S k)%nat by lia.
      now rewrite after_step.
    + lia.
    + intros i Hi. simpl. rewrite length_app; simpl.
      replace (List.length (calls w) + 1 + i)%nat
        with (List.length (calls w) + S i)%nat by lia.
      apply Hpre. lia.
    + simpl. rewrite length_app; simpl.
      replace (List.length (calls w) + 1 + k)%nat
        with (List.length (calls w) + S k)%nat by lia.
      exact Hlast.
Qed.

(** When the first [retries + 1] answers are all 429s, the last of them is
    thrown, after [retries] delays. *)
Lemma fetchWithRetry_exhausts retries :
  forall backoff w,
    (forall i, (i <= retries)%nat ->
               rateLimited (transport url (List.length (calls w) + i)%nat) = true) ->
    fetchWithRetry transport url config retries backoff w
    = (outcome_of (transport url (List.length (calls w) + retries)%nat),
       after w url config (S retries) (backoffs retries backoff)).
Proof.
  induction retries as [|retries IH]; intros backoff w Hall.
  - pose proof (Hall O ltac:(lia)) as H0. rewrite Nat.add_0_r in *.
    destruct (rateLimited_is429 _ H0) as [msg E].
    simpl. unfold tryCatch, axios_get, after, throw. rewrite E. simpl.
    now rewrite app_nil_r.
  - pose proof (Hall O ltac:(lia)) as H0. rewrite Nat.add_0_r in H0.
    destruct (rateLimited_is429 _ H0) as [msg E].
    simpl. unfold tryCatch at 1, axios_get at 1. rewrite E. simpl.
    unfold bind, sleep; simpl.
    rewrite IH.
    + simpl. rewrite length_app; simpl.
      replace (List.length (calls w) + 1 + retries)%nat
        with (List.length (calls w) + S retries)%nat by lia.
      now rewrite after_step.
    + intros i Hi. simpl. rewrite length_app; simpl.
      replace (List.length (calls w) + 1 + i)%nat
        with (List.length (calls w) + S i)%nat by lia.
      apply Hall. lia.
Qed.

(** The client always returns: at most [retries + 1] calls, no fuel. *)
Lemma fetchWithRetry_total retries :
  forall backoff w,
    exists k ds,
      (k <= retries)%nat
      /\ fetchWithRetry transport url config retries backoff w
         = (outcome_of (transport url (List.length (calls w) + k)%nat),
            after w url config (S k) ds).
Proof.
  induction retries as [|retries IH]; intros backoff w.
  - exists O, []. split; [lia|].
    destruct (rateLimited (transport url (List.length (calls w) + 0)%nat)) eqn:E.
    + rewrite (fetchWithRetry_exhausts 0 backoff w); [reflexivity|].
      intros i Hi. replace i with O by lia. exact E.
    + now rewrite (fetchWithRetry_settles 0 0 backoff w (le_n _)
                     ltac:(intros; lia) E).
  - destruct (rateLimited (transport url (List.length (calls w) + 0)%nat)) eqn:E.
    + rewrite Nat.add_0_r in E.
      destruct (rateLimited_is429 _ E) as [msg E'].
      simpl. unfold tryCatch at 1, axios_get at 1. rewrite E'. simpl.
      unfold bind, sleep; simpl.
      destruct (IH (backoff * 2)
                   (mkWorld (calls w ++ [(url, config)]) (sleeps w ++ [backoff])))
        as (k & ds & Hk & ->).
      exists (S k), (backoff :: ds). split; [lia|].
      simpl. rewrite length_app; simpl.
      replace (List.length (calls w) + 1 + k)%nat
        with (List.length (calls w) + S k)%nat by lia.
      now rewrite after_step.
    + exists O, []. split; [lia|].
      now rewrite (fetchWithRetry_settles 0 (S retries) backoff w
                     ltac:(lia) ltac:(intros; lia) E).
Qed.

End FetchFacts.

Lemma attempts_after {A} (o : Outcome A) url config n ds :
  attempts (o, after initial url config n ds) = n.
Proof.
  unfold attempts, after; simpl. apply repeat_length.
Qed.

(** C2 (as stated, refuted): against a transport that answers 429 to every
    call the client does not stop after 5 attempts; it makes 6, and sleeps
    48000 ms before the last. *)
Lemma fetch_always_429_not_5_attempts :
  ~ (forall transport url config,
        (forall n, rateLimited (transport url n) = true) ->
        attempts (fetch transport url config initial) = 5%nat
        /\ delays (fetch transport url config initial)
           = [3000; 6000; 12000; 24000]).
Proof.
  intros H.
  destruct (H (fun _ _ => Failure (Some 429) "Too Many Requests")
              (GetLlamaBlock 0) None (fun _ => eq_refl)) as [H5 _].
  vm_compute in H5. discriminate.
Qed.

(** C2 (amended): if the transport answers 429 exactly k times (k <= 5) and
    then succeeds, the client makes k+1 calls and returns the success; if
    it answers 429 to every call the client throws the 429 after 6 attempts
    (one call and five retries), having slept 3000, 6000, 12000, 24000 and
    48000 ms between them; an error other than 429, on the first call or
    after some 429s, is thrown at once, with no further retry. *)
Theorem fetch_retry_policy transport url config :
  (forall k data,
      (k <= 5)%nat ->
      (forall i, (i < k)%nat -> rateLimited (transport url i) = true) ->
      transport url k = Response data ->
      fetch transport url config initial
      = (Ok data, after initial url config (S k) (backoffs k 3000))
      /\ attempts (fetch transport url config initial) = S k)
  /\ ((forall n, rateLimited (transport url n) = true) ->
      (exists msg,
          fst (fetch transport url config initial)
          = Throw (AxiosError (Some 429) msg))
      /\ attempts (fetch transport url config initial) = 6%nat
      /\ delays (fetch transport url config initial)
         = [3000; 6000; 12000; 24000; 48000])
  /\ (forall k st msg,
         (k <= 5)%nat ->
         (forall i, (i < k)%nat -> rateLimited (transport url i) = true) ->
         transport url k = Failure st msg ->
         rateLimited (Failure st msg) = false ->
         fetch transport url config initial
         = (Throw (AxiosError st msg),
            after initial url config (S k) (backoffs k 3000))).
Proof.
  split; [|split].
  - intros k data Hk Hpre Hlast. unfold fetch.
    rewrite (fetchWithRetry_settles transport url config k 5 3000 initial Hk);
      simpl; auto.
    + rewrite Hlast. split; [reflexivity|].
      apply (attempts_after (Ok data) url config (S k)).
    + now rewrite Hlast.
  - intros Hall. unfold fetch.
    rewrite (fetchWithRetry_exhausts transport url config 5 3000 initial);
      [|intros; apply Hall].
    simpl. destruct (rateLimited_is429 _ (Hall 5%nat)) as [msg ->].
    split; [eexists; reflexivity|]. split; reflexivity.
  - intros k st msg Hk Hpre Hlast Hn. unfold fetch.
    rewrite (fetchWithRetry_settles transport url config k 5 3000 initial Hk);
      simpl; auto.
    + now rewrite Hlast.
    + now rewrite Hlast.
Qed.

Lemma fetch_retry_policy_witness :
  let transport : Transport :=
    fun _ n => if (n <? 2)%nat then Failure (Some 429) "Too Many Requests"
               else Response (LlamaBlock 7) in
  fetch transport (GetLlamaBlock 0) None initial
  = (Ok (LlamaBlock 7),
     after initial (GetLlamaBlock 0) None 3 [3000; 6000])
  /\ attempts (fetch transport (GetLlamaBlock 0) None initial) = 3%nat.
Proof.
  intros transport.
  refine (proj1 (fetch_retry_policy transport (GetLlamaBlock 0) None)
                2%nat (LlamaBlock 7) _ _ _).
  - lia.
  - intros i Hi. destruct i as [|[|i]]; [reflexivity|reflexivity|lia].
  - reflexivity.
Defined.

(* ================================================================== *)
(** ** RPC binary search *)
(* ================================================================== *)

Section BinarySearch.

Variable ts : Z -> Z.
Variable target : Z.

Lemma midpoint_between lo hi :
  lo <= hi -> 0 <= lo -> lo <= (lo + hi) / 2 <= hi.
Proof.
  intros. split.
  - apply Z.div_le_lower_bound; lia.
  - apply Z.div_le_upper_bound; lia.
Qed.

(** The loop returns as soon as the fuel covers the window. *)
Lemma bsearch_returns fuel :
  forall lo hi c,
    0 <= lo ->
    (Z.to_nat (hi - lo + 1) <= fuel)%nat ->
    exists r, bsearch fuel ts target lo hi c = Some r.
Proof.
  induction fuel as [|fuel IH]; intros lo hi c Hlo Hf; simpl.
  - destruct (Z.leb_spec lo hi); [lia|eauto].
  - destruct (Z.leb_spec lo hi) as [Hle|Hgt]; [|eauto].
    pose proof (midpoint_between lo hi Hle Hlo).
    destruct (ts ((lo + hi) / 2) >=? target); apply IH; lia.
Qed.

(** Whatever the timestamps, the result is the initial candidate or a block
    of the window, and lies at or after the target if the candidate does. *)
Lemma bsearch_at_or_after fuel :
  forall lo hi c r,
    0 <= lo ->
    bsearch fuel ts target lo hi c = Some r ->
    (r = c \/ lo <= r <= hi) /\ (target <= ts c -> target <= ts r).
Proof.
  induction fuel as [|fuel IH]; intros lo hi c r Hlo; simpl.
  - destruct (Z.leb_spec lo hi); [discriminate|].
    intros [= <-]. auto.
  - destruct (Z.leb_spec lo hi) as [Hle|Hgt]; [|intros [= <-]; auto].
    pose proof (midpoint_between lo hi Hle Hlo).
    destruct (Z.geb_spec (ts ((lo + hi) / 2)) target) as [Hge|Hlt]; intros Hr.
    + apply IH in Hr; [|lia]. destruct Hr as [[->|Hin] Hts].
      * split; [right; lia|intros _; lia].
      * split; [right; lia|intros _; apply Hts; lia].
    + apply IH in Hr; [|lia]. destruct Hr as [[->|Hin] Hts].
      * split; [now left|auto].
      * split; [right; lia|auto].
Qed.

(** On timestamps that do not decrease over [lo, hi], the loop finds the
    first block of the window at or after the target, and keeps the initial
    candidate when the window has none. *)
Lemma bsearch_first fuel :
  forall lo hi c r,
    0 <= lo ->
    (forall a b, lo <= a -> a <= b -> b <= hi -> ts a <= ts b) ->
    bsearch fuel ts target lo hi c = Some r ->
    (r = c /\ forall b, lo <= b <= hi -> ts b < target)
    \/ (lo <= r <= hi /\ target <= ts r
        /\ forall b, lo <= b < r -> ts b < target).
Proof.
  induction fuel as [|fuel IH]; intros lo hi c r Hlo Hmono; simpl.
  - destruct (Z.leb_spec lo hi); [discriminate|].
    intros [= <-]. left. split; [reflexivity|intros; lia].
  - destruct (Z.leb_spec lo hi) as [Hle|Hgt];
      [|intros [= <-]; left; split; [reflexivity|intros; lia]].
    pose proof (midpoint_between lo hi Hle Hlo) as Hmid.
    destruct (Z.geb_spec (ts ((lo + hi) / 2)) target) as [Hge|Hlt]; intros Hr.
    + apply IH in Hr; [|lia|intros; apply Hmono; lia].
      right. destruct Hr as [[-> Hall]|(Hin & Hts & Hall)].
      * repeat split; try lia. intros b Hb. apply Hall. lia.
      * repeat split; try lia. exact Hall.
    + assert (Hbelow : forall b, lo <= b <= (lo + hi) / 2 -> ts b < target).
      { intros b Hb.
        pose proof (Hmono b ((lo + hi) / 2) ltac:(lia) ltac:(lia) ltac:(lia)).
        lia. }
      apply IH in Hr; [|lia|intros; apply Hmono; lia].
      destruct Hr as [[-> Hall]|(Hin & Hts & Hall)].
      * left. split; [reflexivity|]. intros b Hb.
        destruct (Z.le_gt_cases b ((lo + hi) / 2));
          [apply Hbelow|apply Hall]; lia.
      * right. repeat split; try lia. intros b Hb.
        destruct (Z.le_gt_cases b ((lo + hi) / 2));
          [apply Hbelow|apply Hall]; lia.
Qed.

(** The linear scan returns the first block at or after the target. *)
Lemma linearScanFrom_first fuel :
  forall n r,
    n <= r ->
    (Z.to_nat (r - n) < fuel)%nat ->
    target <= ts r ->
    (forall b, n <= b < r -> ts b < target) ->
    linearScanFrom fuel ts target n = Some r.
Proof.
  induction fuel as [|fuel IH]; intros n r Hn Hf Hr Hb; [lia|].
  simpl. destruct (Z.geb_spec (ts n) target) as [Hge|Hlt].
  - destruct (Z.eq_dec n r) as [->|Hne]; [reflexivity|].
    specialize (Hb n ltac:(lia)). lia.
  - assert (n <> r) by (intros ->; lia).
    apply IH; try lia.
    intros b Hbb. apply Hb. lia.
Qed.

End BinarySearch.

(** The window the search settles on lies inside the chain. *)
Lemma bsc_window tip d :
  0 <= tip -> 0 <= d ->
  let est := Z.max 0 (tip - d / 3) in
  0 <= Z.max 0 (est - 100000)
  /\ Z.max 0 (est - 100000) <= Z.min tip (est + 100000)
  /\ Z.min tip (est + 100000) <= tip.
Proof.
  intros Ht Hd est.
  assert (0 <= d / 3) by (apply Z.div_pos; lia).
  subst est. lia.
Qed.

(** The search on a chain whose tip is at or after the target: it returns a
    block [r] at or after the target, and every earlier block either lies
    before the target or is followed, no later than [r], by a block that is
    not after the target. *)
Lemma bscRpcBinarySearch_general p target :
  0 <= tipNumber p ->
  nondecreasing (blockTimestamp p) (tipNumber p) ->
  target <= blockTimestamp p (tipNumber p) ->
  exists r,
    bscRpcBinarySearch p target = Some r
    /\ 0 <= r <= tipNumber p
    /\ target <= blockTimestamp p r
    /\ forall b, 0 <= b < r ->
                 blockTimestamp p b < target
                 \/ exists m, b < m <= r /\ blockTimestamp p m <= target.
Proof.
  intros Htip Hmono Hlast. unfold bscRpcBinarySearch.
  destruct (Z.ltb_spec (blockTimestamp p (tipNumber p)) target) as [|_]; [lia|].
  set (d := blockTimestamp p (tipNumber p) - target).
  pose proof (bsc_window (tipNumber p) d Htip ltac:(subst d; lia)) as Hw.
  cbv zeta in Hw.
  set (est := Z.max 0 (tipNumber p - d / 3)) in *.
  set (mn := Z.max 0 (est - 100000)) in *.
  set (mx := Z.min (tipNumber p) (est + 100000)) in *.
  destruct Hw as (Hmn & Hmm & Hmx).
  destruct (Z.gtb_spec (blockTimestamp p mn) target) as [Hout|Hin]; simpl.
  - (* reset to the full range *)
    destruct (bsearch_returns (blockTimestamp p) target
                (Z.to_nat (tipNumber p - 0 + 1)) 0 (tipNumber p) (tipNumber p)
                (Z.le_refl 0) (le_n _)) as [r Hr].
    exists r. split; [exact Hr|].
    apply bsearch_first in Hr; [|lia|intros; apply Hmono; lia].
    destruct Hr as [[_ Hall]|(Hin & Hts & Hall)].
    + specialize (Hall (tipNumber p) ltac:(lia)). lia.
    + repeat split; try lia. intros b Hb. left. apply Hall. lia.
  - destruct (Z.ltb_spec (blockTimestamp p mx) target) as [Hout|Hin'].
    + destruct (bsearch_returns (blockTimestamp p) target
                  (Z.to_nat (tipNumber p - 0 + 1)) 0 (tipNumber p) (tipNumber p)
                  (Z.le_refl 0) (le_n _)) as [r Hr].
      exists r. split; [exact Hr|].
      apply bsearch_first in Hr; [|lia|intros; apply Hmono; lia].
      destruct Hr as [[_ Hall]|(Hin'' & Hts & Hall)].
      * specialize (Hall (tipNumber p) ltac:(lia)). lia.
      * repeat split; try lia. intros b Hb. left. apply Hall. lia.
    + (* the estimate-seeded window *)
      destruct (bsearch_returns (blockTimestamp p) target
                  (Z.to_nat (mx - mn + 1)) mn mx (tipNumber p)
                  Hmn (le_n _)) as [r Hr].
      exists r. split; [exact Hr|].
      apply bsearch_first in Hr; [|lia|intros; apply Hmono; lia].
      destruct Hr as [[_ Hall]|(Hin'' & Hts & Hall)].
      * specialize (Hall mx ltac:(lia)). lia.
      * repeat split; try lia. intros b Hb.
        destruct (Z.lt_ge_cases b mn) as [Hlow|Hhigh].
        -- right. exists mn. split; lia.
        -- left. apply Hall. lia.
Qed.

Lemma increasing_nondecreasing ts tip :
  increasing ts tip -> nondecreasing ts tip.
Proof.
  intros Hinc a b Ha Hab Hb.
  destruct (Z.eq_dec a b) as [->|Hne]; [lia|].
  specialize (Hinc a b Ha ltac:(lia) Hb). lia.
Qed.

(** C1 (as stated, refuted): on a chain with two blocks per second
    (timestamps non-decreasing, 220002 blocks) and the target 1700050000,
    the estimate-seeded window starts at block 100001, whose timestamp is
    exactly the target, so the window is kept and the search answers
    100001; the linear scan answers 100000, which carries the same
    timestamp. *)
Lemma bsc_search_misses_tie_below_window :
  ~ (forall p target,
        0 <= tipNumber p ->
        nondecreasing (blockTimestamp p) (tipNumber p) ->
        target <= blockTimestamp p (tipNumber p) ->
        bscRpcBinarySearch p target = linearScan p target).
Proof.
  intros H.
  specialize (H (syntheticChain 220001 (fun n => 1700000000 + n / 2))
                1700050000).
  assert (E : bscRpcBinarySearch
                (syntheticChain 220001 (fun n => 1700000000 + n / 2))
                1700050000 = Some 100001) by (vm_compute; reflexivity).
  assert (E' : linearScan
                 (syntheticChain 220001 (fun n => 1700000000 + n / 2))
                 1700050000 = Some 100000) by (vm_compute; reflexivity).
  rewrite E, E' in H.
  assert (Some 100001 = Some 100000) as [=].
  apply H.
  - simpl; lia.
  - intros a b Ha Hab Hb. cbn [blockTimestamp syntheticChain].
    apply Z.add_le_mono_l, Z.div_le_mono; lia.
  - vm_compute. discriminate.
Qed.

(** C1 (amended): on every synthetic chain whose block timestamps strictly
    increase with the block number and whose tip is at or after the target,
    the binary search returns the smallest block number whose timestamp is
    at least the target, the block the linear scan returns, whether the
    estimate-seeded window is kept or the search falls back to the full
    range. *)
Theorem bsc_search_is_linear_scan p target :
  0 <= tipNumber p ->
  increasing (blockTimestamp p) (tipNumber p) ->
  target <= blockTimestamp p (tipNumber p) ->
  exists r,
    bscRpcBinarySearch p target = Some r
    /\ linearScan p target = Some r
    /\ 0 <= r <= tipNumber p
    /\ target <= blockTimestamp p r
    /\ forall b, 0 <= b < r -> blockTimestamp p b < target.
Proof.
  intros Htip Hinc Hlast.
  destruct (bscRpcBinarySearch_general p target Htip
              (increasing_nondecreasing _ _ Hinc) Hlast)
    as (r & Hr & Hin & Hts & Hbelow).
  assert (Hleast : forall b, 0 <= b < r -> blockTimestamp p b < target).
  { intros b Hb. destruct (Hbelow b Hb) as [|(m & Hm & Hle)]; [assumption|].
    specialize (Hinc b m ltac:(lia) ltac:(lia) ltac:(lia)). lia. }
  exists r. repeat split; try assumption; try lia.
  unfold linearScan. apply linearScanFrom_first; try assumption; lia.
Qed.

Lemma bsc_search_is_linear_scan_witness :
  exists r,
    bscRpcBinarySearch
      (syntheticChain 300000 (fun n => 1700000000 + 3 * n)) 1700450001 = Some r
    /\ linearScan
         (syntheticChain 300000 (fun n => 1700000000 + 3 * n)) 1700450001
       = Some r
    /\ 0 <= r <= 300000
    /\ 1700450001 <= 1700000000 + 3 * r
    /\ forall b, 0 <= b < r -> 1700000000 + 3 * b < 1700450001.
Proof.
  apply (bsc_search_is_linear_scan
           (syntheticChain 300000 (fun n => 1700000000 + 3 * n)) 1700450001).
  - cbn [tipNumber syntheticChain]; lia.
  - intros a b Ha Hab Hb; cbn [blockTimestamp syntheticChain]; lia.
  - cbn [tipNumber blockTimestamp syntheticChain]; lia.
Defined.

(* ================================================================== *)
(** ** Position of the resolved block *)
(* ================================================================== *)

Lemma fetch_outcome transport url config w :
  exists k ds,
    fetch transport url config w
    = (outcome_of (transport url (List.length (calls w) + k)%nat),
       after w url config (S k) ds).
Proof.
  destruct (fetchWithRetry_total transport url config 5 3000 w)
    as (k & ds & _ & E).
  eauto.
Qed.

(** The full account of a fetch: the 429s it met, and the answer that
    settled it. *)
Lemma fetchWithRetry_account transport url config retries :
  forall backoff w,
    exists k,
      (k <= retries)%nat
      /\ (forall i, (i < k)%nat ->
                    rateLimited (transport url (List.length (calls w) + i)%nat)
                    = true)
      /\ fetchWithRetry transport url config retries backoff w
         = (outcome_of (transport url (List.length (calls w) + k)%nat),
            after w url config (S k) (backoffs k backoff)).
Proof.
  induction retries as [|retries IH]; intros backoff w.
  - exists O. split; [lia|]. split; [intros; lia|].
    destruct (rateLimited (transport url (List.length (calls w) + 0)%nat)) eqn:E.
    + rewrite (fetchWithRetry_exhausts transport url config 0 backoff w);
        [reflexivity|].
      intros i Hi. replace i with O by lia. exact E.
    + now rewrite (fetchWithRetry_settles transport url config 0 0 backoff w
                     (le_n _) ltac:(intros; lia) E).
  - destruct (rateLimited (transport url (List.length (calls w) + 0)%nat)) eqn:E.
    + pose proof E as E0. rewrite Nat.add_0_r in E.
      destruct (rateLimited_is429 _ E) as [msg E'].
      destruct (IH (backoff * 2)
                   (mkWorld (calls w ++ [(url, config)]) (sleeps w ++ [backoff])))
        as (k & Hk & Hpre & Hrun).
      exists (S k). split; [lia|].
      cbn [calls] in Hrun, Hpre. rewrite length_app in Hrun, Hpre.
      cbn [List.length] in Hrun, Hpre.
      split.
      * intros i Hi. destruct i as [|i]; [exact E0|].
        replace (List.length (calls w) + S i)%nat
          with (List.length (calls w) + 1 + i)%nat by lia.
        apply Hpre. lia.
      * replace (List.length (calls w) + 1 + k)%nat
          with (List.length (calls w) + S k)%nat in Hrun by lia.
        simpl. unfold tryCatch at 1, axios_get at 1. rewrite E'. simpl.
        unfold bind, sleep; simpl. rewrite Hrun. now rewrite after_step.
    + exists O. split; [lia|]. split; [intros; lia|].
      now rewrite (fetchWithRetry_settles transport url config 0 (S retries)
                     backoff w ltac:(lia) ltac:(intros; lia) E).
Qed.

(** C3 (as stated, refuted): on the chain with blocks 0..10 and timestamps
    10n, resolving the target 15 over RPC (bsc testnet) answers block 2,
    whose timestamp 20 is after the target, although the tip (timestamp
    100) is not before the target. *)
Lemma bsc_resolved_block_after_target :
  let chain := syntheticChain 10 (fun n => 10 * n) in
  let env := mkEnv None None None (Some "k") in
  let transport : Transport := fun _ _ => Failure None "offline" in
  fst (getBlockNumberByTimestamp env transport (fun _ => chain)
                                 "bsc" "testnet" 15 initial) = Ok 2
  /\ ~ (blockTimestamp chain 2 <= 15)
  /\ ~ (15 > blockTimestamp chain (tipNumber chain)).
Proof.
  split; [vm_compute; reflexivity|]. split; vm_compute; congruence.
Qed.

(** C3 (amended): the RPC binary search returns the chain tip, and no
    error, when the target is after the tip's timestamp; otherwise it
    returns a block of the chain whose timestamp is at or after the target
    (not at or before it).  The Tron range query returns the first block of
    the index's answer to the window query, target +/- 1 hour; only when
    that answer is empty does it ask for the blocks up to the target, and
    then it returns the first block of that answer or, if it is empty too,
    throws; every block it returns arises in one of these two ways, so
    with an index that keeps to the requested range its timestamp is at
    most the target plus one hour. *)
Theorem resolved_block_position :
  (forall p target,
      0 <= tipNumber p ->
      (blockTimestamp p (tipNumber p) < target ->
       bscRpcBinarySearch p target = Some (tipNumber p))
      /\ (target <= blockTimestamp p (tipNumber p) ->
          exists r,
            bscRpcBinarySearch p target = Some r
            /\ 0 <= r <= tipNumber p
            /\ target <= blockTimestamp p r))
  /\ (forall env transport network target w k data b rest,
         settledBy transport (tronWindowQuery network target) w k
                   (Response data) ->
         block_data data = b :: rest ->
         getTronBlockNumberByTimestamp env transport network target w
         = (Ok (blk_number b),
            after w (tronWindowQuery network target)
                  (tron_headers (getApiKey env "tron")) (S k)
                  (backoffs k 3000)))
  /\ (forall env transport network target w k1 data1 k2 data2,
         let headers := tron_headers (getApiKey env "tron") in
         let w1 :=
           after w (tronWindowQuery network target) headers (S k1)
                 (backoffs k1 3000) in
         settledBy transport (tronWindowQuery network target) w k1
                   (Response data1) ->
         block_data data1 = [] ->
         settledBy transport (tronUpToQuery network target) w1 k2
                   (Response data2) ->
         getTronBlockNumberByTimestamp env transport network target w
         = (match block_data data2 with
            | [] => Throw (Error "No Tron block found before this timestamp")
            | b :: _ => Ok (blk_number b)
            end,
            after w1 (tronUpToQuery network target) headers (S k2)
                  (backoffs k2 3000)))
  /\ (forall env transport network target w n w',
         getTronBlockNumberByTimestamp env transport network target w
         = (Ok n, w') ->
         let headers := tron_headers (getApiKey env "tron") in
         exists k1 data1 b,
           settledBy transport (tronWindowQuery network target) w k1
                     (Response data1)
           /\ n = blk_number b
           /\ (honoursRange transport ->
               blk_timestamp b <= (target + 3600) * 1000)
           /\ ((exists rest,
                   block_data data1 = b :: rest
                   /\ (honoursRange transport ->
                       (target - 3600) * 1000 <= blk_timestamp b))
               \/ (block_data data1 = []
                   /\ exists k2 data2 rest,
                       settledBy transport (tronUpToQuery network target)
                                 (after w (tronWindowQuery network target)
                                        headers (S k1) (backoffs k1 3000))
                                 k2 (Response data2)
                       /\ block_data data2 = b :: rest
                       /\ (honoursRange transport ->
                           blk_timestamp b <= target * 1000)))).
Proof.
  split; [|split; [|split]].
  - intros p target Htip. split.
    + intros Hfut. unfold bscRpcBinarySearch.
      destruct (Z.ltb_spec (blockTimestamp p (tipNumber p)) target); [|lia].
      reflexivity.
    + intros Hlast. unfold bscRpcBinarySearch.
      destruct (Z.ltb_spec (blockTimestamp p (tipNumber p)) target) as [|_];
        [lia|].
      set (d := blockTimestamp p (tipNumber p) - target).
      pose proof (bsc_window (tipNumber p) d Htip ltac:(subst d; lia)) as Hw.
      cbv zeta in Hw.
      set (est := Z.max 0 (tipNumber p - d / 3)) in *.
      set (mn := Z.max 0 (est - 100000)) in *.
      set (mx := Z.min (tipNumber p) (est + 100000)) in *.
      destruct Hw as (Hmn & Hmm & Hmx).
      destruct ((blockTimestamp p mn >? target)
                || (blockTimestamp p mx <? target))%bool.
      * destruct (bsearch_returns (blockTimestamp p) target
                    (Z.to_nat (tipNumber p - 0 + 1)) 0 (tipNumber p)
                    (tipNumber p) (Z.le_refl 0) (le_n _)) as [r Hr].
        exists r. split; [exact Hr|].
        apply bsearch_at_or_after in Hr; [|lia].
        destruct Hr as [[->|Hin] Hts]; split; auto; lia.
      * destruct (bsearch_returns (blockTimestamp p) target
                    (Z.to_nat (mx - mn + 1)) mn mx (tipNumber p)
                    Hmn (le_n _)) as [r Hr].
        exists r. split; [exact Hr|].
        apply bsearch_at_or_after in Hr; [|lia].
        destruct Hr as [[->|Hin] Hts]; split; auto; lia.
  - intros env transport network target w k data b rest (Hk & Hpre & Hans) Hb.
    unfold getTronBlockNumberByTimestamp. cbv zeta.
    fold (tronWindowQuery network target).
    unfold bind at 1, fetch.
    rewrite (fetchWithRetry_settles transport _ _ k 5 3000 w Hk Hpre)
      by (now rewrite Hans).
    rewrite Hans. cbn [outcome_of]. now rewrite Hb.
  - intros env transport network target w k1 data1 k2 data2 headers w1
           (Hk1 & Hpre1 & Hans1) Hb1 (Hk2 & Hpre2 & Hans2).
    unfold getTronBlockNumberByTimestamp. cbv zeta.
    fold (tronWindowQuery network target). fold (tronUpToQuery network target).
    fold headers.
    unfold bind at 1, fetch.
    rewrite (fetchWithRetry_settles transport _ _ k1 5 3000 w Hk1 Hpre1)
      by (now rewrite Hans1).
    rewrite Hans1. cbn [outcome_of]. rewrite Hb1. fold w1.
    unfold bind.
    rewrite (fetchWithRetry_settles transport _ _ k2 5 3000 w1 Hk2 Hpre2)
      by (now rewrite Hans2).
    rewrite Hans2. cbn [outcome_of].
    destruct (block_data data2); reflexivity.
  - intros env transport network target w n w'.
    unfold getTronBlockNumberByTimestamp. cbv zeta.
    fold (tronWindowQuery network target). fold (tronUpToQuery network target).
    set (headers := tron_headers (getApiKey env "tron")).
    unfold bind at 1, fetch.
    destruct (fetchWithRetry_account transport
                (tronWindowQuery network target) headers 5 3000 w)
      as (k1 & Hk1 & Hpre1 & ->).
    destruct (transport (tronWindowQuery network target)
                        (List.length (calls w) + k1)%nat) as [d1|] eqn:E1;
      cbn [outcome_of]; [|discriminate].
    destruct (block_data d1) as [|b1 rest1] eqn:B1.
    + unfold bind.
      destruct (fetchWithRetry_account transport
                  (tronUpToQuery network target) headers 5 3000
                  (after w (tronWindowQuery network target) headers (S k1)
                         (backoffs k1 3000)))
        as (k2 & Hk2 & Hpre2 & ->).
      destruct (transport (tronUpToQuery network target) _) as [d2|] eqn:E2;
        cbn [outcome_of]; [|discriminate].
      destruct (block_data d2) as [|b2 rest2] eqn:B2; [discriminate|].
      intros [= <- <-].
      assert (Hin : honoursRange transport -> blk_timestamp b2 <= target * 1000).
      { intros Hhon.
        destruct d2 as [[l|]| | | | | |]; simpl in B2; try discriminate.
        subst l. unfold tronUpToQuery in E2.
        destruct (Hhon _ _ _ _ _ b2 E2 (or_introl eq_refl)) as [Hle _].
        exact Hle. }
      exists k1, d1, b2. split; [repeat split; assumption|].
      split; [reflexivity|]. split; [intros Hhon; specialize (Hin Hhon); lia|].
      right. split; [exact B1|].
      exists k2, d2, rest2. split; [repeat split; assumption|].
      split; [exact B2|exact Hin].
    + intros [= <- <-].
      assert (Hin : honoursRange transport ->
                    (target - 3600) * 1000 <= blk_timestamp b1
                    <= (target + 3600) * 1000).
      { intros Hhon.
        destruct d1 as [[l|]| | | | | |]; simpl in B1; try discriminate.
        subst l. unfold tronWindowQuery in E1.
        destruct (Hhon _ _ _ _ _ b1 E1 (or_introl eq_refl)) as [Hle Hge].
        lia. }
      exists k1, d1, b1. split; [repeat split; assumption|].
      split; [reflexivity|]. split; [intros Hhon; specialize (Hin Hhon); lia|].
      left. exists rest1. split; [exact B1|].
      intros Hhon. specialize (Hin Hhon). lia.
Qed.

Lemma denseIndex_honoursRange : honoursRange denseIndex.
Proof.
  intros baseUrl start end_ n l b. unfold denseIndex.
  destruct start as [s|].
  - destruct (Z.leb_spec s end_) as [Hle|Hgt]; intros [= <-]; simpl;
      [|tauto].
    intros [<-|[]]. simpl. lia.
  - intros [= <-]. simpl. intros [<-|[]]. simpl. lia.
Qed.

Lemma resolved_block_position_witness :
  bscRpcBinarySearch (syntheticChain 10 (fun n => 10 * n)) 500 = Some 10
  /\ (exists r,
         bscRpcBinarySearch (syntheticChain 10 (fun n => 10 * n)) 15 = Some r
         /\ 0 <= r <= 10 /\ 15 <= 10 * r)
  /\ getTronBlockNumberByTimestamp (mkEnv None None None None) denseIndex
       "mainnet" 1700000000 initial
     = (Ok 566667866,
        after initial (tronWindowQuery "mainnet" 1700000000) None 1 [])
  /\ getTronBlockNumberByTimestamp (mkEnv None None None None)
       (haltedIndex 1600000000000) "mainnet" 1700000000 initial
     = (Ok 533333333,
        after (after initial (tronWindowQuery "mainnet" 1700000000) None 1 [])
              (tronUpToQuery "mainnet" 1700000000) None 1 []).
Proof.
  destruct resolved_block_position as (Hbsc & Hwin & Hupto & _).
  split; [|split; [|split]].
  - apply (Hbsc (syntheticChain 10 (fun n => 10 * n)) 500).
    + cbn [tipNumber syntheticChain]; lia.
    + cbn [tipNumber blockTimestamp syntheticChain]; lia.
  - apply (Hbsc (syntheticChain 10 (fun n => 10 * n)) 15).
    + cbn [tipNumber syntheticChain]; lia.
    + cbn [tipNumber blockTimestamp syntheticChain]; lia.
  - apply (Hwin (mkEnv None None None None) denseIndex "mainnet" 1700000000
                initial O
                (BlockList (Some [mkTronBlock 566667866 1700003600000]))
                (mkTronBlock 566667866 1700003600000) []).
    + split; [lia|]. split; [intros; lia|]. vm_compute. reflexivity.
    + reflexivity.
  - apply (Hupto (mkEnv None None None None) (haltedIndex 1600000000000)
                 "mainnet" 1700000000 initial O (BlockList (Some [])) O
                 (BlockList (Some [mkTronBlock 533333333 1600000000000]))).
    + split; [lia|]. split; [intros; lia|]. vm_compute. reflexivity.
    + reflexivity.
    + split; [lia|]. split; [intros; lia|]. vm_compute. reflexivity.
Defined.

(** The Tron window reaches one hour past the target: on an index with a
    block at every instant the lookup answers the block stamped at the end
    of the window, 3600 s after the target. *)
Example tron_window_returns_later_block :
  getTronBlockNumberByTimestamp (mkEnv None None None None) denseIndex
                                "mainnet" 1700000000 initial
  = (Ok (1700003600000 / 3000),
     after initial
           (GetTronBlocks "https://apilist.tronscanapi.com/api"
                          (Some 1699996400000) 1700003600000) None 1 []).
Proof.
  vm_compute. reflexivity.
Qed.

(* ================================================================== *)
(** ** Which upstream calls are retried *)
(* ================================================================== *)

(** C7 (as stated, refuted): the explorer block lookup is not subject to
    the retry policy.  For ethereum on mainnet, an explorer that answers
    429 once and the block number afterwards is called exactly once, and
    the 429 is thrown to the caller. *)
Lemma explorer_lookup_bypasses_retry :
  ~ (forall env transport rpc chain network timestamp,
        (forall url, rateLimited (transport url O) = true) ->
        (forall url n, rateLimited (transport url (S n)) = false) ->
        (2 <= attempts (getBlockNumberByTimestamp env transport rpc
                          chain network timestamp initial))%nat).
Proof.
  intros H.
  specialize (H (mkEnv None None (Some "key") (Some "k"))
                (fun _ n => match n with
                            | O => Failure (Some 429) "Too Many Requests"
                            | S _ => Response (ExplorerOk 16308189)
                            end)
                (fun _ => syntheticChain 0 (fun _ => 0))
                "ethereum" "mainnet" 1672531200
                (fun _ => eq_refl) (fun _ _ => eq_refl)).
  vm_compute in H. lia.
Qed.

(** C7 (amended): the Tron block lookup goes through the rate-limited
    client: k 429s (k <= 5) followed by a block list cost k+1 calls and the
    back-off delays, and the lookup succeeds.  The explorer block lookup of
    the other chains (bsc apart) is one direct GET: whatever failure it
    meets, a 429 included, is thrown after that one call, with no delay.
    The block-index call of bsc mainnet is one direct GET as well: when it
    fails, a 429 included, the answer is that of the RPC binary search. *)
Theorem upstream_call_routing env transport rpc :
  (forall network timestamp k b rest,
      let url :=
        GetTronBlocks (if network === "shasta"
                       then "https://shastapi.tronscan.org/api"
                       else "https://apilist.tronscanapi.com/api")
                      (Some ((timestamp - 3600) * 1000))
                      ((timestamp + 3600) * 1000) in
      (k <= 5)%nat ->
      (forall i, (i < k)%nat -> rateLimited (transport url i) = true) ->
      transport url k = Response (BlockList (Some (b :: rest))) ->
      getBlockNumberByTimestamp env transport rpc "tron" network timestamp
                                initial
      = (Ok (blk_number b),
         after initial url (tron_headers (getApiKey env "tron")) (S k)
               (backoffs k 3000)))
  /\ (forall chain network timestamp cid st msg,
         (chain === "tron") = false ->
         (chain === "bsc") = false ->
         getChainId chain network = inl cid ->
         let url :=
           GetBlockNoByTime "https://api.etherscan.io/v2/api" timestamp
                            (getApiKey env chain) (Some cid) in
         transport url O = Failure st msg ->
         getBlockNumberByTimestamp env transport rpc chain network timestamp
                                   initial
         = (Throw (AxiosError st msg), after initial url None 1 []))
  /\ (forall timestamp key st msg,
         ALCHEMY_API_KEY env = Some key -> key <> "" ->
         transport (GetLlamaBlock timestamp) O = Failure st msg ->
         getBlockNumberByTimestamp env transport rpc "bsc" "mainnet" timestamp
                                   initial
         = (match bscRpcBinarySearch
                    (rpc ("https://bnb-mainnet.g.alchemy.com/v2/" ++ key))
                    timestamp with
            | Some n => Ok n
            | None => OutOfFuel
            end,
            after initial (GetLlamaBlock timestamp) None 1 [])).
Proof.
  split; [|split].
  - intros network timestamp k b rest url Hk Hpre Hlast.
    unfold getBlockNumberByTimestamp. simpl.
    unfold getTronBlockNumberByTimestamp, bind. fold url. unfold fetch.
    rewrite (fetchWithRetry_settles transport url _ k 5 3000 initial Hk);
      simpl; auto; rewrite Hlast; reflexivity.
  - intros chain network timestamp cid st msg Ht Hb Hcid url Hfail.
    unfold getBlockNumberByTimestamp. rewrite Ht, Hb.
    unfold getExplorerApiUrl. rewrite Ht, Hb.
    replace (Js.includes "https://api.etherscan.io/v2/api" "/v2/api")
      with true by (vm_compute; reflexivity).
    rewrite Hcid. unfold bind, lift, ret, axios_get. simpl.
    fold url. rewrite Hfail. reflexivity.
  - intros timestamp key st msg Hkey Hne Hfail.
    unfold getBlockNumberByTimestamp. simpl.
    unfold getBscBlockNumberByTimestamp. simpl.
    unfold bind, tryCatch, axios_get. simpl. rewrite Hfail. simpl.
    unfold getRpcUrl. simpl. rewrite Hkey.
    destruct (String.eqb_spec key "") as [->|_]; [congruence|]. simpl.
    destruct (bscRpcBinarySearch _ timestamp); reflexivity.
Qed.

Lemma upstream_call_routing_witness :
  let env := mkEnv None None (Some "key") (Some "k") in
  let transport : Transport :=
    fun _ _ => Failure (Some 429) "Too Many Requests" in
  let rpc := fun _ : string => syntheticChain 10 (fun n => 10 * n) in
  getBlockNumberByTimestamp env transport rpc "polygon" "amoy" 15 initial
  = (Throw (AxiosError (Some 429) "Too Many Requests"),
     after initial
           (GetBlockNoByTime "https://api.etherscan.io/v2/api" 15 (Some "key")
                             (Some (NumId 80002))) None 1 [])
  /\ getBlockNumberByTimestamp env transport rpc "bsc" "mainnet" 15 initial
     = (Ok 2, after initial (GetLlamaBlock 15) None 1 []).
Proof.
  intros env transport rpc.
  destruct (upstream_call_routing env transport rpc) as (_ & Hexp & Hbsc).
  split.
  - apply (Hexp "polygon" "amoy" 15 (NumId 80002) (Some 429)
                "Too Many Requests"); reflexivity.
  - apply (Hbsc 15 "k" (Some 429) "Too Many Requests");
      [reflexivity|discriminate|reflexivity].
Defined.

(* ================================================================== *)
(** ** Pagination of the replay *)
(* ================================================================== *)

Section Pagination.

Context {E : Type}.
Variable transport : Transport.
Variable request : Z -> Request.
Variable headers : option string.
Variable rows : Payload -> list E.
Variable cap : Z.
Variable label : string.

(** Fuel that covers the distance to the cap is never used up. *)
Lemma paginate_terminates fuel :
  forall all start w,
    Z.of_nat (List.length all) < cap ->
    (Z.to_nat (cap - Z.of_nat (List.length all)) <= fuel)%nat ->
    terminated (paginate transport fuel request headers rows cap label
                         all start w).
Proof.
  induction fuel as [|fuel IH]; intros all start w Hlt Hf; [lia|].
  simpl. unfold bind at 1, tryCatch, bind.
  destruct (fetch_outcome transport (request start) headers w)
    as (k & ds & ->).
  destruct (transport (request start) _) as [d|st msg]; simpl;
    [|exact I].
  destruct (rows d) as [|x page] eqn:R; simpl; [exact I|].
  destruct (Z.geb_spec (Z.of_nat (List.length (all ++ x :: page))) cap)
    as [Hge|Hlt']; [exact I|].
  apply IH; [exact Hlt'|].
  rewrite length_app in *. simpl in *. lia.
Qed.

(** What a returning run has fetched: fewer rows than the cap, and one last
    page of the upstream on top of them. *)
Lemma paginate_fetched fuel :
  forall all start w l w',
    paginate transport fuel request headers rows cap label all start w
    = (Ok l, w') ->
    Z.of_nat (List.length all) < cap ->
    withinOnePageOf cap rows transport l.
Proof.
  induction fuel as [|fuel IH]; intros all start w l w'; simpl;
    [discriminate|].
  unfold bind at 1, tryCatch, bind.
  destruct (fetch_outcome transport (request start) headers w)
    as (k & ds & ->).
  destruct (transport (request start) _) as [d|st msg] eqn:T; simpl;
    [|discriminate].
  destruct (rows d) as [|x page] eqn:R; simpl.
  - intros [= <- <-] Hlt. exists all, []. rewrite app_nil_r. auto.
  - destruct (Z.geb_spec (Z.of_nat (List.length (all ++ x :: page))) cap)
      as [Hge|Hlt'].
    + intros [= <- <-] Hlt. exists all, (x :: page).
      repeat split; auto. right. exists (request start). eauto.
    + intros Hrun _. eapply IH; eauto.
Qed.

End Pagination.

Lemma withinOnePageOf_bound {E} cap (rows : Payload -> list E) transport l :
  pagesWithin rows transport ->
  withinOnePageOf cap rows transport l ->
  Z.of_nat (List.length l) <= cap + 49.
Proof.
  intros Hpg (before & last & -> & Hlt & Hlast).
  rewrite length_app.
  destruct Hlast as [->|(url & n & d & T & ->)]; [simpl; lia|].
  pose proof (Hpg _ _ _ T). lia.
Qed.

(** C10: whatever the upstream answers, an endless supply of non-empty
    pages included, both pagination loops end (by an empty page, by
    reaching the cap, or by a thrown fetch error) within the cap's number
    of iterations, which is all the fuel they are given; what a loop has
    fetched is fewer rows than its cap (10,000 transactions, 5,000 token
    transfers) and one last page on top of them; hence, when no page
    exceeds the page size of 50, at most 49 rows beyond the cap. *)
Theorem pagination_terminates_within_cap env transport address token network w :
  (terminated (fetchAllTransactions env transport address network w)
   /\ terminated (fetchAllTransfers env transport address token network w))
  /\ (withinOnePageOf 10000 tx_rows transport
        (fetched (fetchAllTransactions env transport address network w))
      /\ withinOnePageOf 5000 transfer_rows transport
           (fetched (fetchAllTransfers env transport address token network w)))
  /\ (pagesWithin tx_rows transport ->
      Z.of_nat
        (List.length
           (fetched (fetchAllTransactions env transport address network w)))
      <= 10000 + 49)
  /\ (pagesWithin transfer_rows transport ->
      Z.of_nat
        (List.length
           (fetched (fetchAllTransfers env transport address token network w)))
      <= 5000 + 49).
Proof.
  assert (Htx : withinOnePageOf 10000 tx_rows transport
                  (fetched (fetchAllTransactions env transport address
                                                 network w))).
  { unfold fetched.
    destruct (fetchAllTransactions env transport address network w)
      as [[l| |] w'] eqn:Hrun; cbn [fst];
      try (exists [], []; repeat split; cbn [List.length]; auto; lia).
    apply paginate_fetched in Hrun; [exact Hrun|cbn [List.length]; lia]. }
  assert (Htr : withinOnePageOf 5000 transfer_rows transport
                  (fetched (fetchAllTransfers env transport address token
                                              network w))).
  { unfold fetched.
    destruct (fetchAllTransfers env transport address token network w)
      as [[l| |] w'] eqn:Hrun; cbn [fst];
      try (exists [], []; repeat split; cbn [List.length]; auto; lia).
    apply paginate_fetched in Hrun; [exact Hrun|cbn [List.length]; lia]. }
  split; [split; apply paginate_terminates; cbn [List.length]; lia|].
  split; [split; assumption|].
  split; intros Hpg; eapply withinOnePageOf_bound; eauto.
Qed.

Lemma endlessPages_within size tx tr :
  (size <= 50)%nat ->
  pagesWithin tx_rows (endlessPages size tx tr)
  /\ pagesWithin transfer_rows (endlessPages size tx tr).
Proof.
  intros Hs. split; intros url n data; unfold endlessPages;
    destruct url; intros [= <-]; simpl; rewrite ?repeat_length; lia.
Qed.

Lemma pagination_terminates_within_cap_witness :
  let tx := transferTx 0 "a" "b" 1 0 in
  let run :=
    fetchAllTransactions (mkEnv None None None None)
      (endlessPages 49 tx (mkTransfer 0 "a" "b" 1)) "a" "mainnet" initial in
  terminated run /\ Z.of_nat (List.length (fetched run)) <= 10000 + 49.
Proof.
  intros tx run.
  destruct (pagination_terminates_within_cap
              (mkEnv None None None None)
              (endlessPages 49 tx (mkTransfer 0 "a" "b" 1))
              "a" "a" "mainnet" initial) as ((Hend & _) & _ & Hcap & _).
  split; [exact Hend|].
  apply Hcap. apply endlessPages_within. lia.
Defined.

(** Against pages of 49 rows that never end, the native loop stops after
    205 pages with 10,045 rows: past the cap, within a page of it. *)
Example endless_pages_overshoot :
  let tx := transferTx 0 "a" "b" 1 0 in
  let run :=
    fetchAllTransactions (mkEnv None None None None)
      (endlessPages 49 tx (mkTransfer 0 "a" "b" 1)) "a" "mainnet" initial in
  Z.of_nat (List.length (fetched run)) = 10045 /\ attempts run = 205%nat.
Proof.
  vm_compute. split; reflexivity.
Qed.

(* ================================================================== *)
(** ** Native replay *)
(* ================================================================== *)

Section Sorting.

Context {E : Type}.
Variable key : E -> Z.

Lemma insert_by_perm x l : Permutation (insert_by key x l) (x :: l).
Proof.
  induction l as [|y l IH]; simpl; [reflexivity|].
  destruct (key x <=? key y); [reflexivity|].
  rewrite IH. apply perm_swap.
Qed.

Lemma sort_by_perm l : Permutation (sort_by key l) l.
Proof.
  induction l as [|x l IH]; simpl; [reflexivity|].
  rewrite insert_by_perm. now constructor.
Qed.

End Sorting.

Lemma sumZ_perm l l' : Permutation l l' -> sumZ l = sumZ l'.
Proof.
  induction 1; simpl; lia.
Qed.

Lemma sumZ_filter {E} (p : E -> bool) (g : E -> Z) l :
  sumZ (map g (filter p l))
  = sumZ (map (fun x => if p x then g x else 0) l).
Proof.
  induction l as [|x l IH]; simpl; [reflexivity|].
  destruct (p x); simpl; lia.
Qed.

Lemma keyOf_wellFormed a k : optKey a = inl k -> keyOf a = k.
Proof.
  unfold keyOf. now intros ->.
Qed.

Lemma toNumber_exact z : Z.abs z <= 2 ^ 53 -> Js.toNumber z = z.
Proof.
  intros H. unfold Js.toNumber.
  destruct (Z.leb_spec (Z.abs z) (2 ^ 53)); [reflexivity|lia].
Qed.

Lemma touches_dated hexAddress target tx :
  (tx_timestamp tx <=? target) = false -> touches hexAddress target tx = false.
Proof.
  unfold touches, counts. intros ->. now rewrite andb_false_r.
Qed.

Lemma contribution_untouched hexAddress target tx :
  touches hexAddress target tx = false -> contribution hexAddress target tx = 0.
Proof.
  unfold touches, contribution.
  destruct (counts target tx); [|reflexivity].
  destruct (recipientIs hexAddress tx); [discriminate|].
  destruct (senderIs hexAddress tx); [discriminate|reflexivity].
Qed.

Lemma contribution_late hexAddress target tx :
  (tx_timestamp tx <=? target) = false -> contribution hexAddress target tx = 0.
Proof.
  intros H. apply contribution_untouched. now apply touches_dated.
Qed.

(** An event that does not touch the address leaves the balance as it
    is, whatever the balance. *)
Lemma replayTx_untouched hexAddress target balance tx :
  wellFormed tx ->
  (tx_timestamp tx <=? target) = true ->
  touches hexAddress target tx = false ->
  replayTx hexAddress balance tx = inl balance.
Proof.
  intros [[ko Ho] [kt Ht]] Hts.
  unfold touches, counts, recipientIs, senderIs, replayTx.
  rewrite (keyOf_wellFormed _ _ Ho), (keyOf_wellFormed _ _ Ht), Hts.
  destruct (contractRet tx === "SUCCESS"); simpl; [|reflexivity].
  destruct (contractType tx =? 1); simpl; [|reflexivity].
  rewrite Ho, Ht.
  destruct (key_is kt hexAddress); [discriminate|].
  destruct (key_is ko hexAddress); [discriminate|reflexivity].
Qed.

(** One step of the loop adds the event's contribution exactly, as long as
    the running total stays within 2^53. *)
Lemma replayTx_exact hexAddress target balance tx :
  wellFormed tx ->
  (tx_timestamp tx <=? target) = true ->
  touches hexAddress target tx = true ->
  Z.abs balance + (Z.abs (amountOf tx) + Z.abs (feeOf tx)) <= 2 ^ 53 ->
  replayTx hexAddress balance tx
  = inl (balance + contribution hexAddress target tx)
  /\ Z.abs (balance + contribution hexAddress target tx)
     <= Z.abs balance + (Z.abs (amountOf tx) + Z.abs (feeOf tx)).
Proof.
  intros [[ko Ho] [kt Ht]] Hts.
  unfold touches, contribution, counts, recipientIs, senderIs, replayTx,
    amountOf, feeOf.
  rewrite (keyOf_wellFormed _ _ Ho), (keyOf_wellFormed _ _ Ht), Hts.
  destruct (contractRet tx === "SUCCESS"); simpl; [|discriminate].
  destruct (contractType tx =? 1); simpl; [|discriminate].
  rewrite Ho, Ht.
  set (amount := parseIntOr0 (tx_amount tx)).
  set (fee := parseIntOr0 (tx_fee tx)).
  destruct (key_is kt hexAddress); simpl.
  - intros _ Hrange. unfold Js.add.
    rewrite toNumber_exact by lia. split; [reflexivity|lia].
  - destruct (key_is ko hexAddress); [|discriminate].
    intros _ Hrange. unfold Js.sub.
    rewrite (toNumber_exact (balance - amount)) by lia.
    rewrite toNumber_exact by lia.
    split; [f_equal; lia|lia].
Qed.

(** The loop passes over the events that do not touch the address. *)
Lemma replayTxs_touched hexAddress target txs :
  forall balance,
    Forall wellFormed txs ->
    Forall (fun tx => (tx_timestamp tx <=? target) = true) txs ->
    replayTxs hexAddress txs balance
    = replayTxs hexAddress (filter (touches hexAddress target) txs) balance.
Proof.
  induction txs as [|tx txs IH]; intros balance Hwf Hts; [reflexivity|].
  inversion Hwf; inversion Hts; subst. cbn [filter replayTxs].
  destruct (touches hexAddress target tx) eqn:E; cbn [replayTxs].
  - destruct (replayTx hexAddress balance tx); [apply IH; assumption|].
    reflexivity.
  - rewrite (replayTx_untouched hexAddress target) by assumption.
    apply IH; assumption.
Qed.

(** Within 2^53 the loop adds up the contributions exactly. *)
Lemma replayTxs_exact hexAddress target txs :
  forall balance,
    Forall wellFormed txs ->
    Forall (fun tx => (tx_timestamp tx <=? target) = true) txs ->
    Z.abs balance + volume hexAddress target txs <= 2 ^ 53 ->
    replayTxs hexAddress txs balance
    = inl (balance + sumZ (map (contribution hexAddress target) txs)).
Proof.
  unfold volume.
  induction txs as [|tx txs IH]; intros balance Hwf Hts Hrange.
  - simpl. f_equal; lia.
  - inversion Hwf; inversion Hts; subst.
    assert (Hpos : 0 <= sumZ (map (fun tx => Z.abs (amountOf tx)
                                               + Z.abs (feeOf tx))
                                  (filter (touches hexAddress target) txs))).
    { clear. induction txs as [|t txs IH]; simpl; [lia|].
      destruct (touches hexAddress target t); simpl; lia. }
    cbn [filter] in Hrange. cbn [replayTxs map sumZ fold_right].
    destruct (touches hexAddress target tx) eqn:E.
    + cbn [map sumZ fold_right] in Hrange.
      destruct (replayTx_exact hexAddress target balance tx) as [-> Hb];
        try assumption; [unfold sumZ in *; lia|].
      rewrite IH; try assumption; [f_equal; unfold sumZ; lia|].
      unfold sumZ in *. lia.
    + rewrite (replayTx_untouched hexAddress target) by assumption.
      rewrite (contribution_untouched _ _ _ E).
      rewrite IH; try assumption. reflexivity.
Qed.

Lemma filter_touches_dated hexAddress target txs :
  filter (touches hexAddress target)
         (filter (fun tx => tx_timestamp tx <=? target) txs)
  = filter (touches hexAddress target) txs.
Proof.
  induction txs as [|tx txs IH]; [reflexivity|]. cbn [filter].
  destruct (tx_timestamp tx <=? target) eqn:E.
  - cbn [filter]. now rewrite IH.
  - now rewrite (touches_dated _ _ _ E).
Qed.

Lemma dated_sorted_wellFormed txs target :
  Forall wellFormed txs ->
  Forall wellFormed
         (filter (fun tx => tx_timestamp tx <=? target)
                 (sort_by tx_timestamp txs))
  /\ Forall (fun tx => (tx_timestamp tx <=? target) = true)
            (filter (fun tx => tx_timestamp tx <=? target)
                    (sort_by tx_timestamp txs)).
Proof.
  intros Hwf. split; apply Forall_forall; intros tx Hin;
    apply filter_In in Hin; destruct Hin as [Hin Hts]; [|exact Hts].
  rewrite Forall_forall in Hwf. apply Hwf.
  eapply Permutation_in; [apply sort_by_perm|exact Hin].
Qed.

Lemma volume_perm hexAddress target txs txs' :
  Permutation txs txs' ->
  volume hexAddress target txs = volume hexAddress target txs'.
Proof.
  intros Hp. unfold volume. rewrite !sumZ_filter.
  now apply sumZ_perm, Permutation_map.
Qed.

Lemma volume_dated hexAddress target txs :
  volume hexAddress target (filter (fun tx => tx_timestamp tx <=? target) txs)
  = volume hexAddress target txs.
Proof.
  unfold volume. now rewrite filter_touches_dated.
Qed.

(** Whatever the amounts, only the events that touch the address enter the
    replay, oldest first. *)
Lemma replayNative_touched address hexAddress txs target :
  tronKey address = inl hexAddress ->
  Forall wellFormed txs ->
  replayNative address txs target
  = replayTxs hexAddress
              (filter (touches hexAddress target) (sort_by tx_timestamp txs)) 0.
Proof.
  intros Hkey Hwf. unfold replayNative. rewrite Hkey.
  destruct (dated_sorted_wellFormed txs target Hwf) as [Hwf' Hts'].
  rewrite (replayTxs_touched hexAddress target) by assumption.
  now rewrite filter_touches_dated.
Qed.

(** An event that touches the address is applied to the balance. *)
Lemma replayTx_apply hexAddress target balance tx :
  wellFormed tx ->
  touches hexAddress target tx = true ->
  replayTx hexAddress balance tx
  = inl (applyTransfer hexAddress balance tx).
Proof.
  intros [[ko Ho] [kt Ht]].
  unfold applyTransfer, touches, counts, recipientIs, senderIs, replayTx,
    amountOf, feeOf.
  rewrite (keyOf_wellFormed _ _ Ho), (keyOf_wellFormed _ _ Ht).
  destruct (contractRet tx === "SUCCESS"); simpl; [|discriminate].
  destruct (tx_timestamp tx <=? target); simpl; [|discriminate].
  destruct (contractType tx =? 1); simpl; [|discriminate].
  rewrite Ho, Ht.
  destruct (key_is kt hexAddress); [reflexivity|].
  destruct (key_is ko hexAddress); [reflexivity|discriminate].
Qed.

Lemma replayTxs_apply hexAddress target txs :
  forall balance,
    Forall wellFormed txs ->
    Forall (fun tx => touches hexAddress target tx = true) txs ->
    replayTxs hexAddress txs balance
    = inl (fold_left (applyTransfer hexAddress) txs balance).
Proof.
  induction txs as [|tx txs IH]; intros balance Hwf Ht; [reflexivity|].
  inversion Hwf; inversion Ht; subst. cbn [replayTxs fold_left].
  rewrite (replayTx_apply hexAddress target) by assumption.
  apply IH; assumption.
Qed.

(** Whatever the amounts, the replay applies the events that touch the
    address, oldest first, and no other. *)
Lemma replayNative_apply address hexAddress txs target :
  tronKey address = inl hexAddress ->
  Forall wellFormed txs ->
  replayNative address txs target
  = inl (fold_left (applyTransfer hexAddress)
                   (filter (touches hexAddress target)
                           (sort_by tx_timestamp txs)) 0).
Proof.
  intros Hkey Hwf.
  rewrite (replayNative_touched address hexAddress txs target Hkey Hwf).
  apply (replayTxs_apply hexAddress target); apply Forall_forall;
    intros tx Hin; apply filter_In in Hin; destruct Hin as [Hin Ht].
  - rewrite Forall_forall in Hwf. apply Hwf.
    eapply Permutation_in; [apply sort_by_perm|exact Hin].
  - exact Ht.
Qed.

(** Within 2^53 the replay is the exact sum of the contributions, sorted
    or not. *)
Lemma replayNative_sum address hexAddress txs target :
  tronKey address = inl hexAddress ->
  Forall wellFormed txs ->
  volume hexAddress target txs <= 2 ^ 53 ->
  replayNative address txs target
  = inl (sumZ (map (contribution hexAddress target) txs)).
Proof.
  intros Hkey Hwf Hrange. unfold replayNative. rewrite Hkey.
  destruct (dated_sorted_wellFormed txs target Hwf) as [Hwf' Hts'].
  rewrite (replayTxs_exact hexAddress target) by
      (try assumption;
       rewrite volume_dated, (volume_perm _ _ _ txs (sort_by_perm _ _));
       cbn [Z.abs]; lia).
  f_equal. rewrite Z.add_0_l.
  rewrite sumZ_filter.
  rewrite (sumZ_perm _ (map (fun x => if tx_timestamp x <=? target
                                      then contribution hexAddress target x
                                      else 0) txs)).
  - f_equal. apply map_ext. intros tx.
    destruct (tx_timestamp tx <=? target) eqn:Hts; [reflexivity|].
    symmetry. now apply contribution_late.
  - apply Permutation_map, sort_by_perm.
Qed.

Lemma contributions_split hexAddress target txs :
  sumZ (map (contribution hexAddress target) txs)
  = received hexAddress target txs - spentToOthers hexAddress target txs.
Proof.
  unfold received, spentToOthers.
  induction txs as [|tx txs IH]; simpl; [reflexivity|].
  rewrite IH. unfold contribution.
  destruct (counts target tx), (recipientIs hexAddress tx),
    (senderIs hexAddress tx); simpl; lia.
Qed.

Lemma spent_without_self hexAddress target txs :
  (forall tx, In tx txs -> counts target tx = true ->
              recipientIs hexAddress tx = true ->
              senderIs hexAddress tx = false) ->
  spentToOthers hexAddress target txs = spent hexAddress target txs.
Proof.
  unfold spent, spentToOthers.
  induction txs as [|tx txs IH]; intros Hno; simpl; [reflexivity|].
  assert (IH' := IH (fun t Hin => Hno t (or_intror Hin))).
  pose proof (Hno tx (or_introl eq_refl)) as Htx.
  destruct (counts target tx), (recipientIs hexAddress tx),
    (senderIs hexAddress tx); simpl in *; try rewrite IH'; try reflexivity.
  specialize (Htx eq_refl eq_refl). discriminate.
Qed.

(** C4: for every list of ledger events whose addresses decode and every
    target, the replay applies the successful TRX transfers dated at or
    before the target that name the queried address as recipient or
    sender, oldest first, and no other event: it adds the amount of a
    transfer to the address, and subtracts the amount and then the fee of
    a transfer from it, in JS numbers.  As long as those amounts and fees
    add up to no more than 2^53 sun, the range in which JS numbers are
    exact, the replay returns the sum of the amounts of those to the
    address minus the sum of amount plus fee of those from it (a transfer
    from the address to itself, which the Tron ledger does not have, being
    counted as incoming only).  The scenario of the specification (in: 100, 50 and
    25 TRX; out: 30 TRX with a fee of 1 TRX; all before the target) yields
    144000000 sun. *)
Theorem replay_counts_successful_transfers address hexAddress txs target :
  tronKey address = inl hexAddress ->
  Forall wellFormed txs ->
  replayNative address txs target
  = inl (fold_left (applyTransfer hexAddress)
                   (filter (touches hexAddress target)
                           (sort_by tx_timestamp txs)) 0)
  /\ (volume hexAddress target txs <= 2 ^ 53 ->
      replayNative address txs target
      = inl (received hexAddress target txs
             - spentToOthers hexAddress target txs)
      /\ ((forall tx, In tx txs -> counts target tx = true ->
                      recipientIs hexAddress tx = true ->
                      senderIs hexAddress tx = false) ->
          replayNative address txs target
          = inl (received hexAddress target txs
                 - spent hexAddress target txs)))
  /\ (let me := "TR7NHqjeKQxGTCi8q8ZY4pL8otSzgjLj6t" in
      let other := "TLa2f6VPqDgRE67v1736s7bJ8Ray5wYjU7" in
      let history :=
        [transferTx 1672444800000 me other 30000000 1000000;
         transferTx 1672272000000 other me 25000000 0;
         transferTx 1672185600000 other me 50000000 0;
         transferTx 1672099200000 other me 100000000 0] in
      fst (getTronHistoricalBalance (mkEnv None None None None)
             (onePage history []) me "mainnet" 1672531200000 initial)
      = Ok 144000000).
Proof.
  intros Hkey Hwf.
  split; [now apply replayNative_apply|]. split.
  - intros Hrange.
    pose proof (replayNative_sum address hexAddress txs target Hkey Hwf Hrange)
      as Hsum.
    rewrite contributions_split in Hsum.
    split; [exact Hsum|].
    intros Hno. rewrite Hsum. now rewrite spent_without_self.
  - vm_compute. reflexivity.
Qed.

Lemma replay_counts_successful_transfers_witness :
  let me := "TR7NHqjeKQxGTCi8q8ZY4pL8otSzgjLj6t" in
  let other := "TLa2f6VPqDgRE67v1736s7bJ8Ray5wYjU7" in
  let hex := "41a614f803b6fd780986a42c78ec9c7f77e6ded13c" in
  let history :=
    [transferTx 30 me other 30000000 1000000;
     transferTx 20 other me 25000000 0;
     transferTx 10 other me 50000000 0;
     transferTx 40 other me 7 0] in
  replayNative me history 35
  = inl (received hex 35 history - spent hex 35 history).
Proof.
  intros me other hex history.
  refine (proj2 (proj1 (proj2 (replay_counts_successful_transfers
                                 me hex history 35 _ _)) _) _).
  - vm_compute. reflexivity.
  - repeat constructor; eexists; vm_compute; reflexivity.
  - vm_compute. discriminate.
  - intros tx Hin.
    repeat (destruct Hin as [<-|Hin]; [vm_compute; congruence|]).
    destruct Hin.
Defined.

(** Above 2^53 the running total is rounded at every step: three transfers
    of 1 sun on top of 2^53 sun leave the balance at 2^53. *)
Example replay_rounds_above_exact_range :
  let me := "TR7NHqjeKQxGTCi8q8ZY4pL8otSzgjLj6t" in
  let other := "TLa2f6VPqDgRE67v1736s7bJ8Ray5wYjU7" in
  replayNative me
    [transferTx 1 other me 9007199254740992 0; transferTx 2 other me 1 0;
     transferTx 3 other me 1 0; transferTx 4 other me 1 0] 10
  = inl 9007199254740992.
Proof.
  vm_compute. reflexivity.
Qed.

(* ================================================================== *)
(** ** Address forms in the two replays *)
(* ================================================================== *)

(** The native replay sees the queried address only through its key: two
    forms of one address give one balance. *)
Lemma replayNative_by_key a a' txs target :
  tronKey a = tronKey a' ->
  replayNative a txs target = replayNative a' txs target.
Proof.
  intros Hk. unfold replayNative. now rewrite Hk.
Qed.

(** C6 (the token path compares raw strings): one TRC-20 transfer of 100
    units to an address that TronScan lists in Base58Check.  Queried in
    Base58Check the token replay answers 100; queried in hex, the same
    address under the same key, it answers 0.  The native replay answers
    100 for both forms. *)
Lemma token_replay_depends_on_address_form :
  let base58 := "TR7NHqjeKQxGTCi8q8ZY4pL8otSzgjLj6t" in
  let hex := "41a614f803b6fd780986a42c78ec9c7f77e6ded13c" in
  let other := "TLa2f6VPqDgRE67v1736s7bJ8Ray5wYjU7" in
  let token := "TXLAQ63Xg1NAzckPwKHvzw7CSEmLMEqcdj" in
  let env := mkEnv None None None None in
  let upstream :=
    onePage [transferTx 10 other base58 100 0]
            [mkTransfer 10 other base58 100] in
  tronKey base58 = tronKey hex
  /\ fst (getTronTokenHistoricalBalance env upstream base58 token "mainnet"
                                        20 initial) = Ok 100
  /\ fst (getTronTokenHistoricalBalance env upstream hex token "mainnet"
                                        20 initial) = Ok 0
  /\ fst (getTronHistoricalBalance env upstream base58 "mainnet" 20 initial)
     = Ok 100
  /\ fst (getTronHistoricalBalance env upstream hex "mainnet" 20 initial)
     = Ok 100.
Proof.
  vm_compute. repeat split; reflexivity.
Qed.

(* ================================================================== *)
(** ** Token metadata fallback *)
(* ================================================================== *)

Lemma truthy_trim s : Js.truthy (Some (Js.trim s)) = true -> Js.truthy (Some s) = true.
Proof.
  destruct s; [discriminate|reflexivity].
Qed.

(** C9 (as stated, refuted): a TRC-20 query on Tron whose token lookup is
    answered 404 succeeds with 18 decimals, but its symbol is the literal
    UNKNOWN, not the native symbol TRX. *)
Lemma tron_token_fallback_symbol_not_native :
  let owner := "TR7NHqjeKQxGTCi8q8ZY4pL8otSzgjLj6t" in
  let body :=
    mkBody (Some owner) (Some "tron") (Some "mainnet") (Some 1672531200000)
           (Some "TXLAQ63Xg1NAzckPwKHvzw7CSEmLMEqcdj") in
  exists b,
    fst (POST (mkEnv None None None None) (tokenInfoMissing owner)
              (fun _ => syntheticChain 0 (fun _ => 0)) body initial)
    = Ok (Json200 b)
    /\ unit_decimals (r_balance b) = 18
    /\ r_symbol b = "UNKNOWN"
    /\ r_symbol b <> "TRX".
Proof.
  eexists. split; [vm_compute; reflexivity|].
  repeat split. discriminate.
Qed.

(** C9 (amended): a token query whose metadata lookup fails still succeeds
    with 18 decimals.  On the direct-query chains the symbol is then the
    native one of the chain; on Tron it is the literal UNKNOWN. *)
Theorem metadata_fallback env transport rpc address network date token :
  Js.truthy (Some address) = true ->
  Js.truthy (Some (Js.trim token)) = true ->
  (forall chain w blockNumber w1 url balanceWei,
      (chain === "tron") = false ->
      getBlockNumberByTimestamp env transport rpc chain network (date / 1000) w
      = (Ok blockNumber, w1) ->
      getRpcUrl env chain network = inl url ->
      erc20_balanceOf (rpc url) (Js.trim token) (Js.trim address) blockNumber
      = inl balanceWei ->
      metadataFails (rpc url) (Js.trim token) ->
      POST env transport rpc
           (mkBody (Some address) (Some chain) (Some network) (Some date)
                   (Some token)) w
      = (Ok (Json200
               (mkBalanceJson chain network (Js.trim address) (date / 1000)
                  blockNumber (Units balanceWei 18) (nativeSymbol chain)
                  balanceWei None)), w1))
  /\ (forall w blockNumber w1 historicalBlockNumber w2 w3 rawBalance w4,
         getBlockNumberByTimestamp env transport rpc "tron" network
                                   (date / 1000) w
         = (Ok blockNumber, w1) ->
         getBlockNumberByTimestamp env transport rpc "tron" network
                                   (date / 1000) w1
         = (Ok historicalBlockNumber, w2) ->
         getTronTokenInfo env transport (Js.trim token) network w2
         = (Ok None, w3) ->
         getTronTokenHistoricalBalance env transport (Js.trim address)
           (Js.trim token) network (date / 1000 * 1000) w3
         = (Ok rawBalance, w4) ->
         POST env transport rpc
              (mkBody (Some address) (Some "tron") (Some network) (Some date)
                      (Some token)) w
         = (Ok (Json200
                  (mkBalanceJson "tron" network (Js.trim address)
                     (date / 1000) historicalBlockNumber
                     (Units rawBalance 18) "UNKNOWN" rawBalance
                     (Some "Historical balance calculated via transaction replay"))),
            w4)).
Proof.
  intros Haddr Htok. pose proof (truthy_trim _ Htok) as Htok'.
  split.
  - intros chain w blockNumber w1 url balanceWei Hchain Hbn Hurl Hbal Hmeta.
    unfold POST, tryCatch at 1. cbn [body_date body_address body_chain
      body_network body_tokenAddress default].
    rewrite Haddr, Htok'. cbn [negb option_map].
    unfold bind at 1. rewrite Hbn.
    unfold bind at 1. rewrite Hurl. cbn [lift ret].
    rewrite Hchain, Htok. cbn [default].
    unfold bind at 1. rewrite Hbal. cbn [lift ret].
    unfold bind at 1, tryCatch, bind. unfold metadataFails in Hmeta.
    destruct (erc20_decimals (rpc url) (Js.trim token)) as [d|e]; cbn.
    + destruct (erc20_symbol (rpc url) (Js.trim token)) as [sy|e]; cbn;
        [contradiction|reflexivity].
    + reflexivity.
  - intros w blockNumber w1 historicalBlockNumber w2 w3 rawBalance w4
           Hbn Hhbn Hinfo Hraw.
    unfold POST, tryCatch at 1. cbn [body_date body_address body_chain
      body_network body_tokenAddress default].
    rewrite Haddr, Htok'. cbn [negb option_map].
    unfold bind at 1. rewrite Hbn.
    unfold bind at 1.
    assert (Hurl : exists url, getRpcUrl env "tron" network = inl url).
    { unfold getRpcUrl. change ("tron" === "tron") with true. cbv iota.
      destruct (network === "shasta"); eauto. }
    destruct Hurl as [url ->]. cbn [lift ret].
    change ("tron" === "tron") with true. cbv iota.
    unfold bind at 1, tronBalance, tryCatch at 1.
    unfold bind at 1. rewrite Hhbn. rewrite Htok. cbn [default].
    unfold bind at 1. rewrite Hinfo.
    unfold bind at 1. rewrite Hraw. reflexivity.
Qed.

Lemma metadata_fallback_witness :
  let env := mkEnv None None (Some "key") (Some "k") in
  let transport : Transport := fun _ _ => Response (ExplorerOk 16308189) in
  let rpc :=
    fun _ : string =>
      mkProvider 17000000 (fun n => n) (fun _ _ => inl 0)
                 (fun _ _ _ => inl 2500000000000000000)
                 (fun _ => inr (Error "execution reverted"))
                 (fun _ => inl "PRX") in
  POST env transport rpc
       (mkBody (Some " 0xAAA ") (Some "polygon") (Some "mainnet")
               (Some 1672531200000) (Some "0xBBB")) initial
  = (Ok (Json200
           (mkBalanceJson "polygon" "mainnet" "0xAAA" 1672531200 16308189
              (Units 2500000000000000000 18) "MATIC" 2500000000000000000
              None)),
     after initial
           (GetBlockNoByTime "https://api.etherscan.io/v2/api" 1672531200
                             (Some "key") (Some (NumId 137))) None 1 []).
Proof.
  intros env transport rpc.
  refine (proj1 (metadata_fallback env transport rpc " 0xAAA " "mainnet"
                   1672531200000 "0xBBB" eq_refl eq_refl)
                "polygon" initial 16308189 _
                "https://polygon-mainnet.g.alchemy.com/v2/k"
                2500000000000000000 eq_refl _ eq_refl eq_refl I).
  vm_compute. reflexivity.
Defined.

(* ================================================================== *)
(** ** Positional numerals *)
(* ================================================================== *)

Section RadixFacts.

Local Open Scope N_scope.

Variable base : N.
Hypothesis base_ge_2 : 2 <= base.

Lemma fold_digits acc ds :
  fold_left (fun a d => a * base + d) ds acc
  = acc * base ^ N.of_nat (List.length ds) + Radix.of_digits base ds.
Proof.
  unfold Radix.of_digits. revert acc.
  induction ds as [|d ds IH]; intros acc.
  - simpl. rewrite N.mul_1_r. lia.
  - cbn [fold_left List.length]. rewrite IH, (IH (0 * base + d)).
    rewrite Nat2N.inj_succ, N.pow_succ_r'. lia.
Qed.

Lemma of_digits_cons d ds :
  Radix.of_digits base (d :: ds)
  = d * base ^ N.of_nat (List.length ds) + Radix.of_digits base ds.
Proof.
  unfold Radix.of_digits at 1. cbn [fold_left]. rewrite fold_digits. lia.
Qed.

Lemma of_digits_snoc ds d :
  Radix.of_digits base (ds ++ [d]) = Radix.of_digits base ds * base + d.
Proof.
  unfold Radix.of_digits. now rewrite fold_left_app.
Qed.

Lemma of_digits_bound ds :
  Forall (fun d => d < base) ds ->
  Radix.of_digits base ds < base ^ N.of_nat (List.length ds).
Proof.
  induction 1 as [|d ds Hd _ IH].
  - cbn. lia.
  - rewrite of_digits_cons. cbn [List.length].
    rewrite Nat2N.inj_succ, N.pow_succ_r'. nia.
Qed.

Lemma pow_base_pos k : 1 <= base ^ k.
Proof.
  assert (base ^ k <> 0) by (apply N.pow_nonzero; lia). lia.
Qed.

Lemma to_digits_aux_app fuel :
  forall n acc,
    Radix.to_digits_aux fuel base n acc
    = (Radix.to_digits_aux fuel base n [] ++ acc)%list.
Proof.
  induction fuel as [|fuel IH]; intros n acc; simpl; [reflexivity|].
  destruct (n =? 0); [reflexivity|].
  rewrite IH, (IH _ [n mod base]). now rewrite <- app_assoc.
Qed.

Lemma to_digits_aux_step fuel n :
  n <> 0 ->
  Radix.to_digits_aux (S fuel) base n []
  = (Radix.to_digits_aux fuel base (n / base) [] ++ [n mod base])%list.
Proof.
  intros Hn. simpl.
  destruct (N.eqb_spec n 0); [contradiction|]. apply to_digits_aux_app.
Qed.

Lemma to_digits_aux_zero fuel : Radix.to_digits_aux fuel base 0 [] = [].
Proof.
  destruct fuel; reflexivity.
Qed.

Lemma div_base_lt n k : n < 2 ^ N.succ k -> n / base < 2 ^ k.
Proof.
  intros Hn. rewrite N.pow_succ_r' in Hn.
  apply N.Div0.div_lt_upper_bound. nia.
Qed.

(** Reading the digits back gives the number. *)
Lemma of_to_digits_aux fuel :
  forall n,
    n < 2 ^ N.of_nat fuel ->
    Radix.of_digits base (Radix.to_digits_aux fuel base n []) = n.
Proof.
  induction fuel as [|fuel IH]; intros n Hn.
  - cbn in Hn. assert (n = 0) by lia. subst. reflexivity.
  - destruct (N.eq_dec n 0) as [->|Hne]; [reflexivity|].
    rewrite to_digits_aux_step by assumption.
    rewrite of_digits_snoc, IH.
    + pose proof (N.div_mod n base ltac:(lia)). lia.
    + apply div_base_lt. now rewrite <- Nat2N.inj_succ.
Qed.

Lemma of_to_digits n : Radix.of_digits base (Radix.to_digits base n) = n.
Proof.
  unfold Radix.to_digits. apply of_to_digits_aux.
  rewrite N2Nat.id. apply N.size_gt.
Qed.

(** Every digit produced is below the base. *)
Lemma to_digits_aux_below fuel :
  forall n, Forall (fun d => d < base) (Radix.to_digits_aux fuel base n []).
Proof.
  induction fuel as [|fuel IH]; intros n; [constructor|].
  destruct (N.eq_dec n 0) as [->|Hne]; [constructor|].
  rewrite to_digits_aux_step by assumption.
  apply Forall_app. split; [apply IH|].
  constructor; [|constructor]. apply N.mod_lt. lia.
Qed.

Lemma numeral_positive d ds :
  numeral base (d :: ds) -> 1 <= Radix.of_digits base (d :: ds).
Proof.
  intros [_ Hhd]. simpl in Hhd. rewrite of_digits_cons.
  pose proof (pow_base_pos (N.of_nat (List.length ds))). nia.
Qed.

(** Writing a numeral's value gives the numeral back. *)
Lemma to_of_digits_aux ds :
  numeral base ds ->
  forall fuel,
    Radix.of_digits base ds < 2 ^ N.of_nat fuel ->
    Radix.to_digits_aux fuel base (Radix.of_digits base ds) [] = ds.
Proof.
  induction ds as [|d ds IH] using rev_ind; intros Hnum fuel Hf.
  - apply to_digits_aux_zero.
  - destruct Hnum as [Hall Hhd].
    apply Forall_app in Hall. destruct Hall as [Hds Hd].
    inversion Hd as [|? ? Hdlt _]; subst.
    rewrite of_digits_snoc in *.
    assert (Hnz : Radix.of_digits base ds * base + d <> 0).
    { destruct ds as [|d0 ds]; [simpl in Hhd; cbn; lia|].
      pose proof (numeral_positive d0 ds
                    (conj Hds ltac:(simpl in *; exact Hhd))). nia. }
    destruct fuel as [|fuel]; [cbn in Hf; lia|].
    rewrite to_digits_aux_step by assumption.
    replace ((Radix.of_digits base ds * base + d) / base)
      with (Radix.of_digits base ds)
      by (apply N.div_unique with d; lia).
    replace ((Radix.of_digits base ds * base + d) mod base) with d
      by (apply N.mod_unique with (Radix.of_digits base ds); lia).
    rewrite IH; [reflexivity| |].
    + split; [exact Hds|]. destruct ds; [simpl; lia|exact Hhd].
    + rewrite Nat2N.inj_succ, N.pow_succ_r' in Hf. nia.
Qed.

Lemma to_of_digits ds :
  numeral base ds -> Radix.to_digits base (Radix.of_digits base ds) = ds.
Proof.
  intros Hnum. unfold Radix.to_digits. apply to_of_digits_aux; [exact Hnum|].
  rewrite N2Nat.id. apply N.size_gt.
Qed.

(** The leading digit of a number between two consecutive powers. *)
Lemma to_digits_aux_head k :
  forall fuel n,
    base ^ N.of_nat k <= n < base ^ N.of_nat (S k) ->
    n < 2 ^ N.of_nat fuel ->
    exists rest,
      Radix.to_digits_aux fuel base n [] = n / base ^ N.of_nat k :: rest.
Proof.
  induction k as [|k IH]; intros fuel n [Hlo Hhi] Hf.
  - change (N.of_nat 0) with 0 in *. change (N.of_nat 1) with 1 in *.
    rewrite N.pow_0_r in *. rewrite N.pow_1_r in Hhi.
    destruct fuel as [|fuel]; [cbn in Hf; lia|].
    rewrite to_digits_aux_step by lia.
    rewrite N.div_small, N.mod_small by lia.
    rewrite to_digits_aux_zero, N.div_1_r. simpl. eauto.
  - pose proof (pow_base_pos (N.of_nat (S k))) as Hpos.
    assert (E1 : base ^ N.of_nat (S k) = base * base ^ N.of_nat k)
      by (now rewrite Nat2N.inj_succ, N.pow_succ_r').
    assert (E2 : base ^ N.of_nat (S (S k)) = base * base ^ N.of_nat (S k))
      by (now rewrite (Nat2N.inj_succ (S k)), N.pow_succ_r').
    destruct fuel as [|fuel]; [cbn in Hf; lia|].
    rewrite to_digits_aux_step by lia.
    destruct (IH fuel (n / base)) as [rest Hrest].
    + split.
      * apply N.div_le_lower_bound; lia.
      * apply N.Div0.div_lt_upper_bound. lia.
    + apply div_base_lt. now rewrite <- Nat2N.inj_succ.
    + rewrite Hrest, E1, N.Div0.div_div. simpl. eauto.
Qed.

Lemma to_digits_head k n :
  base ^ N.of_nat k <= n < base ^ N.of_nat (S k) ->
  exists rest, Radix.to_digits base n = n / base ^ N.of_nat k :: rest.
Proof.
  intros Hn. unfold Radix.to_digits. apply to_digits_aux_head; [exact Hn|].
  rewrite N2Nat.id. apply N.size_gt.
Qed.

Lemma to_digits_below n : Forall (fun d => d < base) (Radix.to_digits base n).
Proof.
  apply to_digits_aux_below.
Qed.

End RadixFacts.

(* ================================================================== *)
(** ** Base58 and hex codecs *)
(* ================================================================== *)

Lemma alphabet_index n :
  (n < 58)%nat ->
  Bs58.index_of (Bs58.char_at n Bs58.ALPHABET) Bs58.ALPHABET
  = Some (N.of_nat n).
Proof.
  intros Hn.
  do 58 (destruct n as [|n]; [vm_compute; reflexivity|]). lia.
Qed.

Lemma digits_of_string_of_digits ds :
  Forall (fun d => (d < 58)%N) ds ->
  Bs58.digits_of_string (Bs58.string_of_digits ds) = Some ds.
Proof.
  induction 1 as [|d ds Hd _ IH]; [reflexivity|].
  cbn [Bs58.string_of_digits Bs58.digits_of_string].
  rewrite alphabet_index by lia. rewrite IH, N2Nat.id. reflexivity.
Qed.

Lemma byte_of_N_to_N bs : map Bs58.byte_of_N (map Byte.to_N bs) = bs.
Proof.
  induction bs as [|b bs IH]; simpl; [reflexivity|].
  unfold Bs58.byte_of_N at 1. now rewrite Byte.of_to_N, IH.
Qed.

Lemma bytes_below_256 bs : Forall (fun d => (d < 256)%N) (map Byte.to_N bs).
Proof.
  induction bs as [|b bs IH]; simpl; constructor; [|exact IH].
  pose proof (Byte.to_N_bounded b). lia.
Qed.

Lemma hex_digit_lower n :
  (n < 16)%nat -> Js.lower_ascii (Hex.digit (N.of_nat n)) = Hex.digit (N.of_nat n).
Proof.
  intros Hn.
  do 16 (destruct n as [|n]; [vm_compute; reflexivity|]). lia.
Qed.

Lemma hex_digit_lower_N d :
  (d < 16)%N -> Js.lower_ascii (Hex.digit d) = Hex.digit d.
Proof.
  intros Hd. rewrite <- (N2Nat.id d). apply hex_digit_lower. lia.
Qed.

(** Hex text produced from bytes is already in lower case. *)
Lemma hex_encode_lower bs : Js.toLowerCase (Hex.encode bs) = Hex.encode bs.
Proof.
  induction bs as [|b bs IH]; [reflexivity|].
  cbn [Hex.encode Js.toLowerCase]. rewrite IH.
  pose proof (Byte.to_N_bounded b) as Hb.
  rewrite !hex_digit_lower_N; [reflexivity| |].
  - apply N.mod_lt. lia.
  - apply N.Div0.div_lt_upper_bound. lia.
Qed.

Lemma firstn_length_app {A} (l1 l2 : list A) :
  firstn (List.length l1) (l1 ++ l2) = l1.
Proof.
  induction l1 as [|x l1 IH]; simpl; [now destruct l2|now rewrite IH].
Qed.

(** The number spelt by 25 bytes that begin with 0x41 lies in the band of
    the 34-digit Base58 numerals whose first digit is 26, the letter T. *)
Lemma tron_number_band rest :
  List.length rest = 24%nat ->
  let n := Bs58.number_of_bytes (Byte.x41 :: rest) in
  (58 ^ N.of_nat 33 <= n < 58 ^ N.of_nat 34)%N
  /\ (n / 58 ^ N.of_nat 33 = 26)%N.
Proof.
  intros Hlen n. subst n. unfold Bs58.number_of_bytes.
  cbn [map]. rewrite (of_digits_cons 256) by lia.
  pose proof (of_digits_bound 256 ltac:(lia) _ (bytes_below_256 rest)) as Hb.
  rewrite length_map, Hlen in *.
  change (Byte.to_N Byte.x41) with 65%N.
  set (r := Radix.of_digits 256 (map Byte.to_N rest)) in *.
  let v := eval vm_compute in (256 ^ N.of_nat 24)%N in
  change (256 ^ N.of_nat 24)%N with v in *.
  let v := eval vm_compute in (58 ^ N.of_nat 33)%N in
  change (58 ^ N.of_nat 33)%N with v.
  let v := eval vm_compute in (58 ^ N.of_nat 34)%N in
  change (58 ^ N.of_nat 34)%N with v.
  split; [lia|].
  match goal with
  | |- (?a / ?b = 26)%N =>
    assert (26 <= a / b)%N by (apply N.div_le_lower_bound; lia);
    assert (a / b < 27)%N by (apply N.Div0.div_lt_upper_bound; lia)
  end.
  lia.
Qed.

(** Decoding undoes encoding on a 25-byte Tron address, and the encoding
    begins with the letter T. *)
Lemma bs58_tron_roundtrip rest :
  List.length rest = 24%nat ->
  exists tail,
    Bs58.encode (Byte.x41 :: rest) = String "T" tail
    /\ Bs58.decode (String "T" tail) = Some (Byte.x41 :: rest).
Proof.
  intros Hlen.
  destruct (tron_number_band rest Hlen) as [Hband Hhead].
  destruct (to_digits_head 58 ltac:(lia) 33 _ Hband) as [ds Hds].
  rewrite Hhead in Hds.
  pose proof (to_digits_below 58 ltac:(lia)
                (Bs58.number_of_bytes (Byte.x41 :: rest))) as Hbelow.
  pose proof (of_to_digits 58 ltac:(lia)
                (Bs58.number_of_bytes (Byte.x41 :: rest))) as Hback.
  assert (Henc : Bs58.encode (Byte.x41 :: rest)
                 = Bs58.string_of_digits (26%N :: ds)).
  { unfold Bs58.encode. cbn [map Radix.leading_zeros Byte.to_N repeat app].
    fold (Bs58.number_of_bytes (Byte.x41 :: rest)) in *.
    unfold Bs58.number_of_bytes in *. cbn [map] in *.
    change (Byte.to_N Byte.x41) with 65%N in *.
    cbn [Radix.leading_zeros repeat app]. now rewrite Hds. }
  exists (Bs58.string_of_digits ds). split; [exact Henc|].
  change (String "T" (Bs58.string_of_digits ds))
    with (Bs58.string_of_digits (26%N :: ds)).
  unfold Bs58.decode. rewrite Hds in Hbelow, Hback.
  rewrite digits_of_string_of_digits by exact Hbelow.
  cbn [Radix.leading_zeros repeat app]. rewrite Hback.
  unfold Bs58.number_of_bytes.
  rewrite (to_of_digits 256 ltac:(lia)).
  - now rewrite byte_of_N_to_N.
  - split; [apply bytes_below_256|]. simpl. discriminate.
Qed.

(* ================================================================== *)
(** ** Address normalisation *)
(* ================================================================== *)

Lemma startsWith_T tail : Js.startsWith (String "T" tail) "T" = true.
Proof.
  unfold Js.startsWith. destruct tail; vm_compute; reflexivity.
Qed.

Lemma startsWith_append p s : Js.startsWith (p ++ s) p = true.
Proof.
  unfold Js.startsWith.
  induction p as [|c p IH]; simpl; [now destruct s|].
  destruct (ascii_dec c c); [exact IH|congruence].
Qed.

(** C5: take any Tron address, that is the byte 0x41 followed by a 20-byte
    body, in its Base58Check form (the Base58 text of the 21 bytes and a
    4-byte checksum) and in its hex form (the hex text of the 21 bytes).
    The normalisation maps both to the same key, the hex text of the 21
    bytes without the checksum; so does the key used by the replay, and so
    does the 0x-prefixed text of the body. *)
Theorem tron_address_forms_share_key (body checksum : list Byte.byte) :
  List.length body = 20%nat ->
  List.length checksum = 4%nat ->
  let payload := Byte.x41 :: body in
  let base58 := Bs58.encode (payload ++ checksum) in
  let hex := Hex.encode payload in
  toTronHex base58 = inl hex
  /\ toTronHex hex = inl hex
  /\ toTronHex base58 = toTronHex hex
  /\ tronKey base58 = tronKey hex
  /\ toTronHex ("0x" ++ Hex.encode body) = inl hex.
Proof.
  intros Hbody Hsum payload base58 hex.
  assert (Hhex : toTronHex hex = inl hex) by reflexivity.
  assert (Hb58 : toTronHex base58 = inl hex).
  { subst base58 payload hex.
    destruct (bs58_tron_roundtrip (body ++ checksum)) as (tail & Henc & Hdec).
    { rewrite length_app. lia. }
    change ((Byte.x41 :: body) ++ checksum)%list
      with (Byte.x41 :: body ++ checksum)%list.
    rewrite Henc. unfold toTronHex.
    change (Js.startsWith (String "T" tail) "0x") with false.
    rewrite startsWith_T. cbv iota. rewrite Hdec. f_equal. f_equal.
    unfold slice_0_minus4.
    replace (List.length (Byte.x41 :: body ++ checksum) - 4)%nat
      with (List.length (Byte.x41 :: body))
      by (simpl; rewrite length_app; lia).
    apply (firstn_length_app (Byte.x41 :: body) checksum). }
  split; [exact Hb58|]. split; [exact Hhex|].
  split; [now rewrite Hb58, Hhex|].
  split; [unfold tronKey; now rewrite Hb58, Hhex|].
  unfold toTronHex. now rewrite startsWith_append.
Qed.

Lemma tron_address_forms_share_key_witness :
  let body := repeat Byte.xa6 20 in
  let checksum := [Byte.x01; Byte.x02; Byte.x03; Byte.x04] in
  toTronHex (Bs58.encode ((Byte.x41 :: body) ++ checksum))
  = toTronHex (Hex.encode (Byte.x41 :: body)).
Proof.
  intros body checksum.
  exact (proj1 (proj2 (proj2 (tron_address_forms_share_key
                                body checksum eq_refl eq_refl)))).
Defined.

(** A well-known address, the USDT contract, in both forms. *)
Example usdt_contract_key :
  toTronHex "TR7NHqjeKQxGTCi8q8ZY4pL8otSzgjLj6t"
  = inl "41a614f803b6fd780986a42c78ec9c7f77e6ded13c"
  /\ toTronHex "41a614f803b6fd780986a42c78ec9c7f77e6ded13c"
     = inl "41a614f803b6fd780986a42c78ec9c7f77e6ded13c".
Proof.
  split; vm_compute; reflexivity.
Qed.

(* ================================================================== *)
(** ** Cost of one fetch *)
(* ================================================================== *)

(** The full account of a fetch: it stops at the first answer that is not a
    429, or at the last attempt of its budget. *)
Lemma fetchWithRetry_trace transport url config retries :
  forall backoff w,
    exists k,
      (k <= retries)%nat
      /\ fetchWithRetry transport url config retries backoff w
         = (outcome_of (transport url (List.length (calls w) + k)%nat),
            after w url config (S k) (backoffs k backoff))
      /\ (rateLimited (transport url (List.length (calls w) + k)%nat) = true ->
          k = retries).
Proof.
  induction retries as [|retries IH]; intros backoff w.
  - exists O. split; [lia|].
    destruct (rateLimited (transport url (List.length (calls w) + 0)%nat)) eqn:E.
    + split; [|reflexivity].
      rewrite (fetchWithRetry_exhausts transport url config 0 backoff w);
        [reflexivity|].
      intros i Hi. replace i with O by lia. exact E.
    + split; [|discriminate].
      now rewrite (fetchWithRetry_settles transport url config 0 0 backoff w
                     (le_n _) ltac:(intros; lia) E).
  - destruct (rateLimited (transport url (List.length (calls w) + 0)%nat)) eqn:E.
    + rewrite Nat.add_0_r in E.
      destruct (rateLimited_is429 _ E) as [msg E'].
      destruct (IH (backoff * 2)
                   (mkWorld (calls w ++ [(url, config)]) (sleeps w ++ [backoff])))
        as (k & Hk & Hrun & Hlast).
      exists (S k). split; [lia|].
      cbn [calls] in Hrun, Hlast. rewrite length_app in Hrun, Hlast.
      cbn [List.length] in Hrun, Hlast.
      replace (List.length (calls w) + 1 + k)%nat
        with (List.length (calls w) + S k)%nat in Hrun, Hlast by lia.
      split.
      * simpl. unfold tryCatch at 1, axios_get at 1. rewrite E'. simpl.
        unfold bind, sleep; simpl. rewrite Hrun. now rewrite after_step.
      * intros H. now rewrite (Hlast H).
    + exists O. split; [lia|]. split; [|congruence].
      now rewrite (fetchWithRetry_settles transport url config 0 (S retries)
                     backoff w ltac:(lia) ltac:(intros; lia) E).
Qed.

Lemma sumZ_app l l' : sumZ (l ++ l') = sumZ l + sumZ l'.
Proof.
  induction l as [|x l IH]; simpl; lia.
Qed.

Lemma backoffs_total k :
  (k <= 5)%nat -> 0 <= sumZ (backoffs k 3000) <= 93000.
Proof.
  intros Hk.
  do 6 (destruct k as [|k]; [vm_compute; split; discriminate|]). lia.
Qed.

(** X1: whatever the transport answers, one pass through the rate-limited
    client makes at most 6 calls and sleeps at most 93 s in all; it always
    returns or throws; what it throws is an error the transport gave for
    this request; and a 429 reaches the caller only after all 6 attempts. *)
Theorem fetch_is_bounded transport url config w :
  let run := fetch transport url config w in
  (attempts run <= List.length (calls w) + 6)%nat
  /\ sumZ (delays run) <= sumZ (sleeps w) + 93000
  /\ terminated run
  /\ forall e,
      thrown run = Some e ->
      (exists n st msg,
          transport url n = Failure st msg /\ e = AxiosError st msg)
      /\ (is429 e = true -> attempts run = (List.length (calls w) + 6)%nat).
Proof.
  intros run. subst run. unfold fetch.
  destruct (fetchWithRetry_trace transport url config 5 3000 w)
    as (k & Hk & -> & Hlast).
  unfold attempts, delays, terminated, thrown, after. cbn [fst snd calls sleeps].
  rewrite length_app, repeat_length, sumZ_app.
  pose proof (backoffs_total k Hk).
  split; [lia|]. split; [lia|].
  destruct (transport url (List.length (calls w) + k)%nat) as [d|st msg] eqn:T;
    cbn [outcome_of].
  - split; [exact I|]. discriminate.
  - split; [exact I|]. intros e [= <-]. split; [eauto|].
    unfold is429; cbn [response_status]. intros H429.
    assert (k = 5%nat) by (apply Hlast; destruct st; [exact H429|discriminate]).
    lia.
Qed.

(* ================================================================== *)
(** ** Pagination over a finite history *)
(* ================================================================== *)

Lemma firstn_plus {A} (a b : nat) (l : list A) :
  firstn (a + b) l = (firstn a l ++ firstn b (skipn a l))%list.
Proof.
  revert l. induction a as [|a IH]; intros l; [reflexivity|].
  destruct l as [|x l]; simpl; [now destruct b|now rewrite IH].
Qed.

Lemma firstn_beyond {A} (a b : nat) (l : list A) :
  (List.length l <= a)%nat -> (List.length l <= b)%nat ->
  firstn a l = firstn b l.
Proof.
  intros Ha Hb. now rewrite !firstn_all2.
Qed.

Section PagedHistory.

Context {E : Type}.
Variable transport : Transport.
Variable request : Z -> Request.
Variable headers : option string.
Variable rows : Payload -> list E.
Variable label : string.
Variable history : list E.
Variable pages : nat.

Hypothesis serves :
  forall start n,
    exists data,
      transport (request start) n = Response data
      /\ rows data = firstn 50 (skipn (Z.to_nat start) history).

(** With a cap of [pages] full pages, the loop returns the first
    [50 * pages] rows of the history, all of it when it is shorter. *)
Lemma paginate_history fuel :
  forall j w,
    (j <= pages)%nat ->
    (pages - j < fuel)%nat ->
    (List.length (firstn (50 * j) history) < 50 * pages)%nat ->
    exists w',
      paginate transport fuel request headers rows
               (Z.of_nat (50 * pages)) label
               (firstn (50 * j) history) (Z.of_nat (50 * j)) w
      = (Ok (firstn (50 * pages) history), w').
Proof.
  induction fuel as [|fuel IH]; intros j w Hj Hf Hlen; [lia|].
  cbn [paginate]. unfold bind at 1, tryCatch, bind, fetch.
  destruct (serves (Z.of_nat (50 * j)) (List.length (calls w) + 0)%nat)
    as (d & T & R).
  rewrite (fetchWithRetry_settles transport _ headers 0 5 3000 w);
    [|lia|intros; lia|now rewrite T].
  rewrite T. cbn [outcome_of ret]. rewrite R, Nat2Z.id.
  destruct (firstn 50 (skipn (50 * j) history)) as [|x page] eqn:P.
  - assert (skipn (50 * j) history = []) as Hs
        by (destruct (skipn (50 * j) history); [reflexivity|discriminate]).
    pose proof (f_equal (@List.length E) Hs) as HL.
    rewrite length_skipn in HL. change (List.length (@nil E)) with O in HL.
    rewrite (firstn_beyond (50 * j) (50 * pages) history) by lia.
    unfold ret. eauto.
  - rewrite <- P, <- firstn_plus.
    replace (50 * j + 50)%nat with (50 * S j)%nat by lia.
    assert (Hlong : (50 * j < List.length history)%nat).
    { destruct (Nat.lt_ge_cases (50 * j) (List.length history)); [assumption|].
      rewrite skipn_all2 in P by assumption. discriminate. }
    assert (Hjlt : (j < pages)%nat).
    { rewrite length_firstn in Hlen. lia. }
    destruct (Z.geb_spec (Z.of_nat (List.length (firstn (50 * S j) history)))
                         (Z.of_nat (50 * pages))) as [Hge|Hlt].
    + rewrite length_firstn in Hge.
      assert (Heq : (50 * S j = 50 * pages)%nat) by lia.
      rewrite Heq. unfold ret. eauto.
    + replace (Z.of_nat (50 * j) + 50) with (Z.of_nat (50 * S j)) by lia.
      apply IH; lia.
Qed.

End PagedHistory.

Lemma fetchAllTransactions_paged env txs trs address network w :
  exists w',
    fetchAllTransactions env (pagedUpstream txs trs) address network w
    = (Ok (firstn (Z.to_nat 10000) txs), w').
Proof.
  unfold fetchAllTransactions.
  destruct (paginate_history (pagedUpstream txs trs)
              (fun start =>
                 GetTronTransactions (getExplorerApiUrl "tron" network)
                                     address 50 start)
              (tron_headers (getApiKey env "tron")) tx_rows
              "Failed to fetch transactions: " txs 200
              ltac:(intros start n; eexists; split; reflexivity)
              (Z.to_nat 10000) O w ltac:(lia) ltac:(lia)
              ltac:(change (50 * 0)%nat with O; cbn [firstn List.length];
                    lia)) as [w' Hrun].
  change (Z.of_nat (50 * 200)) with 10000 in Hrun.
  change (Z.of_nat (50 * 0)) with 0 in Hrun.
  change (50 * 0)%nat with O in Hrun. cbn [firstn] in Hrun.
  cbv zeta.
  replace (firstn (Z.to_nat 10000) txs) with (firstn (50 * 200) txs)
    by (f_equal; lia).
  eauto.
Qed.

Lemma fetchAllTransfers_paged env txs trs address token network w :
  exists w',
    fetchAllTransfers env (pagedUpstream txs trs) address token network w
    = (Ok (firstn (Z.to_nat 5000) trs), w').
Proof.
  unfold fetchAllTransfers.
  destruct (paginate_history (pagedUpstream txs trs)
              (fun start =>
                 GetTrc20Transfers (getExplorerApiUrl "tron" network)
                                   50 start address token)
              (tron_headers (getApiKey env "tron")) transfer_rows
              "Failed to fetch token transfers: " trs 100
              ltac:(intros start n; eexists; split; reflexivity)
              (Z.to_nat 5000) O w ltac:(lia) ltac:(lia)
              ltac:(change (50 * 0)%nat with O; cbn [firstn List.length];
                    lia)) as [w' Hrun].
  change (Z.of_nat (50 * 100)) with 5000 in Hrun.
  change (Z.of_nat (50 * 0)) with 0 in Hrun.
  change (50 * 0)%nat with O in Hrun. cbn [firstn] in Hrun.
  cbv zeta.
  replace (firstn (Z.to_nat 5000) trs) with (firstn (50 * 100) trs)
    by (f_equal; lia).
  eauto.
Qed.

(** X2: against an explorer that serves a history by offset and page size,
    the two pagination loops return the first 10,000 transactions, the
    first 5,000 token transfers, of the history and nothing else: all of
    it when it is shorter than the cap, and not one row past the cap
    otherwise. *)
Theorem pagination_returns_history_up_to_cap env txs trs address token network w :
  (exists w',
      fetchAllTransactions env (pagedUpstream txs trs) address network w
      = (Ok (firstn (Z.to_nat 10000) txs), w'))
  /\ (exists w',
         fetchAllTransfers env (pagedUpstream txs trs) address token network w
         = (Ok (firstn (Z.to_nat 5000) trs), w')).
Proof.
  split.
  - apply fetchAllTransactions_paged.
  - apply fetchAllTransfers_paged.
Qed.

(** X3: hence the replayed balances see only the rows the explorer lists
    first: the native balance is the replay of the first 10,000
    transactions, the token balance the replay of the first 5,000
    transfers; with the newest-first listing the loops ask for, older rows
    of a longer history do not count. *)
Theorem replay_sees_rows_up_to_cap env txs trs address token network target w :
  fst (getTronHistoricalBalance env (pagedUpstream txs trs) address network
                                target w)
  = match replayNative address (firstn (Z.to_nat 10000) txs) target with
    | inl balance => Ok balance
    | inr e => Throw e
    end
  /\ fst (getTronTokenHistoricalBalance env (pagedUpstream txs trs) address
                                        token network target w)
     = Ok (replayToken address (firstn (Z.to_nat 5000) trs) target).
Proof.
  split.
  - unfold getTronHistoricalBalance, bind.
    destruct (fetchAllTransactions_paged env txs trs address network w)
      as [w' ->].
    destruct (replayNative address (firstn (Z.to_nat 10000) txs) target);
      reflexivity.
  - unfold getTronTokenHistoricalBalance, bind.
    destruct (fetchAllTransfers_paged env txs trs address token network w)
      as [w' ->].
    reflexivity.
Qed.

(* ================================================================== *)
(** ** Further facts of the replays *)
(* ================================================================== *)

Lemma bystander_contribution hexAddress target tx :
  bystander hexAddress target tx -> contribution hexAddress target tx = 0.
Proof.
  unfold bystander, contribution.
  intros [->|[-> ->]]; [reflexivity|]. now destruct (counts target tx).
Qed.

Lemma wellFormed_perm txs txs' :
  Permutation txs txs' -> Forall wellFormed txs -> Forall wellFormed txs'.
Proof.
  intros Hp Hwf. rewrite Forall_forall in *. intros tx Hin.
  apply Hwf. eapply Permutation_in; [symmetry; exact Hp|exact Hin].
Qed.

Section SortingAndFiltering.

Context {E : Type}.
Variable key : E -> Z.
Variable p : E -> bool.

Let ordered (x y : E) : Prop := key x <= key y.

Lemma insert_by_head x l :
  Forall (ordered x) l -> insert_by key x l = x :: l.
Proof.
  destruct l as [|y l]; [reflexivity|].
  intros H. inversion H as [|? ? Hxy]; subst. unfold ordered in Hxy. simpl.
  destruct (Z.leb_spec (key x) (key y)); [reflexivity|lia].
Qed.

Lemma insert_by_sorted x l :
  StronglySorted ordered l -> StronglySorted ordered (insert_by key x l).
Proof.
  induction l as [|y l IH]; intros Hs; simpl.
  - repeat constructor.
  - inversion Hs as [|? ? Hl Hy]; subst.
    destruct (Z.leb_spec (key x) (key y)) as [Hle|Hgt].
    + constructor; [exact Hs|].
      constructor; [exact Hle|].
      eapply Forall_impl; [|exact Hy]. unfold ordered. intros; lia.
    + constructor; [now apply IH|].
      rewrite Forall_forall in *. intros z Hz.
      apply (Permutation_in _ (insert_by_perm key x l)) in Hz.
      destruct Hz as [<-|Hz]; [unfold ordered; lia|now apply Hy].
Qed.

Lemma sort_by_sorted l : StronglySorted ordered (sort_by key l).
Proof.
  induction l as [|x l IH]; simpl; [constructor|now apply insert_by_sorted].
Qed.

Lemma filter_insert_by x l :
  StronglySorted ordered l ->
  filter p (insert_by key x l)
  = if p x then insert_by key x (filter p l) else filter p l.
Proof.
  induction l as [|y l IH]; intros Hs.
  - simpl. now destruct (p x).
  - inversion Hs as [|? ? Hl Hy]; subst. cbn [insert_by].
    destruct (Z.leb_spec (key x) (key y)) as [Hle|Hgt].
    + rewrite insert_by_head.
      * change (filter p (x :: y :: l))
          with (if p x then x :: filter p (y :: l) else filter p (y :: l)).
        reflexivity.
      * assert (Hall : Forall (ordered x) (y :: l)).
        { constructor; [exact Hle|].
          eapply Forall_impl; [|exact Hy]. unfold ordered. intros; lia. }
        rewrite Forall_forall in *. intros z Hz.
        apply Hall. apply filter_In in Hz. apply Hz.
    + cbn [filter]. rewrite (IH Hl).
      destruct (p y), (p x); try reflexivity.
      cbn [insert_by].
      destruct (Z.leb_spec (key x) (key y)); [lia|reflexivity].
Qed.

(** Sorting by key and then filtering is filtering and then sorting: the
    sort keeps the listed order of rows with equal keys. *)
Lemma filter_sort_by l :
  filter p (sort_by key l) = sort_by key (filter p l).
Proof.
  induction l as [|x l IH]; [reflexivity|]. cbn [sort_by filter].
  rewrite filter_insert_by by apply sort_by_sorted.
  destruct (p x); cbn [sort_by]; now rewrite IH.
Qed.

End SortingAndFiltering.

Lemma bystander_untouched hexAddress target tx :
  bystander hexAddress target tx -> touches hexAddress target tx = false.
Proof.
  unfold bystander, touches.
  intros [->|[-> ->]]; [reflexivity|]. now rewrite andb_false_r.
Qed.

(** X4: as long as the amounts and fees of the events that touch the
    address add up to no more than 2^53 sun, the native replay does not
    depend on the order in which the explorer lists the events; and,
    whatever the amounts, events that are not counted (failed, not a TRX
    transfer, dated after the target) or that run between other addresses
    leave the balance as it is. *)
Theorem native_replay_order_and_bystanders address hexAddress txs target :
  tronKey address = inl hexAddress ->
  Forall wellFormed txs ->
  (volume hexAddress target txs <= 2 ^ 53 ->
   forall txs', Permutation txs txs' ->
                replayNative address txs' target
                = replayNative address txs target)
  /\ (forall others,
         Forall wellFormed others ->
         Forall (bystander hexAddress target) others ->
         replayNative address (txs ++ others) target
         = replayNative address txs target).
Proof.
  intros Hkey Hwf. split.
  - intros Hrange txs' Hp.
    rewrite (replayNative_sum address hexAddress txs' target Hkey
               (wellFormed_perm _ _ Hp Hwf))
      by (now rewrite <- (volume_perm _ _ _ _ Hp)).
    rewrite (replayNative_sum address hexAddress txs target Hkey Hwf Hrange).
    f_equal. apply sumZ_perm, Permutation_map. now symmetry.
  - intros others Hwf' Hby.
    rewrite (replayNative_touched address hexAddress (txs ++ others) target
               Hkey) by (apply Forall_app; split; assumption).
    rewrite (replayNative_touched address hexAddress txs target Hkey Hwf).
    rewrite !filter_sort_by, filter_app.
    replace (filter (touches hexAddress target) others) with (@nil TronTx);
      [now rewrite app_nil_r|].
    clear Hwf'. induction Hby as [|tx others Htx _ IH]; [reflexivity|].
    cbn [filter]. now rewrite (bystander_untouched _ _ _ Htx).
Qed.

Lemma native_replay_order_and_bystanders_witness :
  let me := "TR7NHqjeKQxGTCi8q8ZY4pL8otSzgjLj6t" in
  let other := "TLa2f6VPqDgRE67v1736s7bJ8Ray5wYjU7" in
  let third := "TQn9Y2khEsLJW1ChVWFMSMeRDow5KcbLSE" in
  let txs := [transferTx 10 other me 50 0; transferTx 20 me other 30 1] in
  replayNative me (rev txs) 35 = replayNative me txs 35
  /\ replayNative me (txs ++ [transferTx 15 other third 9007199254740993 0;
                              transferTx 40 other me 5 0]) 35
     = replayNative me txs 35.
Proof.
  intros me other third txs.
  assert (Hkey : tronKey me
                 = inl "41a614f803b6fd780986a42c78ec9c7f77e6ded13c")
    by (vm_compute; reflexivity).
  assert (Hwf : Forall wellFormed txs)
    by (repeat constructor; eexists; vm_compute; reflexivity).
  pose proof (native_replay_order_and_bystanders me _ txs 35 Hkey Hwf)
    as [Horder Hby].
  split.
  - apply Horder; [vm_compute; discriminate|apply Permutation_rev].
  - apply Hby.
    + repeat constructor; eexists; vm_compute; reflexivity.
    + constructor; [right; vm_compute; auto|].
      constructor; [left; vm_compute; reflexivity|constructor].
Defined.

(** Above 2^53 the order of events with one timestamp shows in the
    result. *)
Example native_replay_order_matters_above_range :
  let me := "TR7NHqjeKQxGTCi8q8ZY4pL8otSzgjLj6t" in
  let other := "TLa2f6VPqDgRE67v1736s7bJ8Ray5wYjU7" in
  let large := transferTx 1 other me 9007199254740992 0 in
  let small := transferTx 1 other me 1 0 in
  replayNative me [large; small; small] 10 = inl 9007199254740992
  /\ replayNative me [small; small; large] 10 = inl 9007199254740994.
Proof.
  vm_compute. split; reflexivity.
Qed.

Lemma tokenTouches_dated address target t :
  (block_ts t <=? target) = false -> tokenTouches address target t = false.
Proof.
  unfold tokenTouches. now intros ->.
Qed.

Lemma tokenVolume_nonneg address target trs :
  0 <= tokenVolume address target trs.
Proof.
  unfold tokenVolume. induction trs as [|t trs IH]; simpl; [lia|].
  destruct (tokenTouches address target t); simpl; unfold sumZ in *; lia.
Qed.

(** One step of the token loop is exact as long as the running total
    stays within 2^53. *)
Lemma replayTransfer_exact address target balance t :
  (block_ts t <=? target) = true ->
  Z.abs balance
  + (if tokenTouches address target t then Z.abs (quant t) else 0) <= 2 ^ 53 ->
  replayTransfer address balance t
  = balance + (if to_address t === address then quant t
               else if from_address t === address then - quant t else 0)
  /\ Z.abs (replayTransfer address balance t)
     <= Z.abs balance
        + (if tokenTouches address target t then Z.abs (quant t) else 0).
Proof.
  unfold tokenTouches, replayTransfer. intros ->. cbn [andb].
  destruct (to_address t === address); cbn [orb].
  - intros Hrange. unfold Js.add.
    rewrite (toNumber_exact (quant t)) by lia.
    rewrite toNumber_exact by lia. split; lia.
  - destruct (from_address t === address).
    + intros Hrange. unfold Js.sub.
      rewrite (toNumber_exact (quant t)) by lia.
      rewrite toNumber_exact by lia. split; lia.
    + intros _. split; lia.
Qed.

(** Within 2^53 the token loop adds up one signed amount per transfer. *)
Lemma fold_replayTransfer address target trs :
  forall balance,
    Forall (fun t => (block_ts t <=? target) = true) trs ->
    Z.abs balance + tokenVolume address target trs <= 2 ^ 53 ->
    fold_left (replayTransfer address) trs balance
    = balance
      + sumZ (map (fun t => if to_address t === address then quant t
                            else if from_address t === address then - quant t
                                 else 0) trs).
Proof.
  induction trs as [|t trs IH]; intros balance Hts Hrange.
  - simpl. lia.
  - inversion Hts as [|? ? Ht Hts']; subst.
    pose proof (tokenVolume_nonneg address target trs) as Hpos.
    assert (Hsplit : tokenVolume address target (t :: trs)
                     = (if tokenTouches address target t
                        then Z.abs (quant t) else 0)
                       + tokenVolume address target trs).
    { unfold tokenVolume. cbn [filter].
      destruct (tokenTouches address target t); reflexivity. }
    rewrite Hsplit in Hrange.
    destruct (replayTransfer_exact address target balance t Ht) as [Heq Hb];
      [destruct (tokenTouches address target t); lia|].
    cbn [fold_left map sumZ fold_right].
    rewrite IH; [|assumption|lia].
    rewrite Heq. unfold sumZ. lia.
Qed.

Lemma tokenVolume_perm address target trs trs' :
  Permutation trs trs' ->
  tokenVolume address target trs = tokenVolume address target trs'.
Proof.
  intros Hp. unfold tokenVolume. rewrite !sumZ_filter.
  now apply sumZ_perm, Permutation_map.
Qed.

Lemma tokenVolume_dated address target trs :
  tokenVolume address target (filter (fun t => block_ts t <=? target) trs)
  = tokenVolume address target trs.
Proof.
  unfold tokenVolume. f_equal. f_equal.
  induction trs as [|t trs IH]; [reflexivity|]. cbn [filter].
  destruct (block_ts t <=? target) eqn:E.
  - cbn [filter]. now rewrite IH.
  - now rewrite (tokenTouches_dated _ _ _ E).
Qed.

Lemma replayToken_sum address trs target :
  tokenVolume address target trs <= 2 ^ 53 ->
  replayToken address trs target
  = sumZ (map (fun t => if block_ts t <=? target
                        then if to_address t === address then quant t
                             else if from_address t === address
                                  then - quant t else 0
                        else 0) trs).
Proof.
  intros Hrange. unfold replayToken.
  rewrite (fold_replayTransfer address target).
  - rewrite Z.add_0_l, sumZ_filter.
    apply sumZ_perm, Permutation_map, sort_by_perm.
  - apply Forall_forall. intros t Hin. apply filter_In in Hin. apply Hin.
  - rewrite tokenVolume_dated,
      (tokenVolume_perm _ _ _ trs (sort_by_perm _ _)).
    cbn [Z.abs]. lia.
Qed.

(** X5: as long as the amounts of the transfers that touch the address add
    up to no more than 2^53 raw units, the token replay is the amount
    received minus the amount sent to others, over the transfers dated at
    or before the target whose [to_address] or [from_address] is the
    queried string itself; no fee is taken off; and the order of the
    transfers does not matter. *)
Theorem token_replay_is_received_minus_sent address trs target :
  tokenVolume address target trs <= 2 ^ 53 ->
  replayToken address trs target
  = tokenReceived address target trs - tokenSent address target trs
  /\ forall trs', Permutation trs trs' ->
                  replayToken address trs' target
                  = replayToken address trs target.
Proof.
  intros Hrange. split.
  - rewrite replayToken_sum by assumption. unfold tokenReceived, tokenSent.
    clear Hrange. induction trs as [|t trs IH]; simpl; [reflexivity|].
    rewrite IH.
    destruct (block_ts t <=? target), (to_address t === address),
      (from_address t === address); simpl; lia.
  - intros trs' Hp.
    rewrite (replayToken_sum address trs')
      by (now rewrite <- (tokenVolume_perm _ _ _ _ Hp)).
    rewrite replayToken_sum by assumption.
    apply sumZ_perm, Permutation_map. now symmetry.
Qed.

Lemma token_replay_is_received_minus_sent_witness :
  let me := "TR7NHqjeKQxGTCi8q8ZY4pL8otSzgjLj6t" in
  let other := "TLa2f6VPqDgRE67v1736s7bJ8Ray5wYjU7" in
  let trs := [mkTransfer 30 me other 40; mkTransfer 10 other me 100;
              mkTransfer 50 other me 7] in
  replayToken me trs 35 = tokenReceived me 35 trs - tokenSent me 35 trs
  /\ replayToken me (rev trs) 35 = replayToken me trs 35.
Proof.
  intros me other trs.
  destruct (token_replay_is_received_minus_sent me trs 35) as [Heq Hperm];
    [vm_compute; discriminate|].
  split; [exact Heq|apply Hperm, Permutation_rev].
Defined.

(** Above 2^53 raw units, which a token of 18 decimals reaches below one
    hundredth of a token, the running total is rounded and the order of
    transfers with one timestamp shows in the result. *)
Example token_replay_order_matters_above_range :
  let me := "TR7NHqjeKQxGTCi8q8ZY4pL8otSzgjLj6t" in
  let other := "TLa2f6VPqDgRE67v1736s7bJ8Ray5wYjU7" in
  let large := mkTransfer 1 other me 9007199254740992 in
  let small := mkTransfer 1 other me 1 in
  replayToken me [large; small; small] 10 = 9007199254740992
  /\ replayToken me [small; small; large] 10 = 9007199254740994.
Proof.
  vm_compute. split; reflexivity.
Qed.

(* ================================================================== *)
(** ** Number of probes of the binary search *)
(* ================================================================== *)

Section Probes.

Variable ts : Z -> Z.
Variable target : Z.

(** A window narrower than 2^f is settled in f iterations. *)
Lemma bsearch_within_log fuel :
  forall lo hi c,
    0 <= lo ->
    hi - lo + 1 < 2 ^ Z.of_nat fuel ->
    exists r, bsearch fuel ts target lo hi c = Some r.
Proof.
  induction fuel as [|fuel IH]; intros lo hi c Hlo Hsize.
  - cbn in Hsize. simpl. destruct (Z.leb_spec lo hi); [lia|eauto].
  - rewrite Nat2Z.inj_succ, Z.pow_succ_r in Hsize by lia.
    simpl. destruct (Z.leb_spec lo hi) as [Hle|Hgt]; [|eauto].
    pose proof (midpoint_between lo hi Hle Hlo) as Hmid.
    pose proof (Z.div_mod (lo + hi) 2 ltac:(lia)) as Hdm.
    pose proof (Z.mod_pos_bound (lo + hi) 2 ltac:(lia)) as Hmod.
    destruct (ts ((lo + hi) / 2) >=? target); apply IH; lia.
Qed.

(** More fuel does not change what the loop returns. *)
Lemma bsearch_more_fuel fuel :
  forall lo hi c r extra,
    bsearch fuel ts target lo hi c = Some r ->
    bsearch (fuel + extra) ts target lo hi c = Some r.
Proof.
  induction fuel as [|fuel IH]; intros lo hi c r extra; simpl.
  - destruct (lo <=? hi) eqn:E; [discriminate|].
    intros [= <-]. destruct extra; simpl; now rewrite E.
  - destruct (lo <=? hi); [|auto].
    destruct (ts ((lo + hi) / 2) >=? target); apply IH.
Qed.

End Probes.

(** X6: the search loop is logarithmic: a window of fewer than 2^f blocks
    is settled in f iterations, each one block fetch, with the result of
    the full run; the window seeded by the estimate (at most 200,001
    blocks) never takes more than 18. *)
Theorem bsearch_probes_logarithmic ts target :
  (forall f lo hi c,
      0 <= lo ->
      hi - lo + 1 < 2 ^ Z.of_nat f ->
      exists r,
        bsearch f ts target lo hi c = Some r
        /\ bsearch (Z.to_nat (hi - lo + 1)) ts target lo hi c = Some r)
  /\ (forall tip estimatedBlock c,
         0 <= tip ->
         let lo := Z.max 0 (estimatedBlock - 100000) in
         let hi := Z.min tip (estimatedBlock + 100000) in
         exists r,
           bsearch 18 ts target lo hi c = Some r
           /\ bsearch (Z.to_nat (hi - lo + 1)) ts target lo hi c = Some r).
Proof.
  assert (Hgen : forall f lo hi c,
             0 <= lo ->
             hi - lo + 1 < 2 ^ Z.of_nat f ->
             exists r,
               bsearch f ts target lo hi c = Some r
               /\ bsearch (Z.to_nat (hi - lo + 1)) ts target lo hi c = Some r).
  { intros f lo hi c Hlo Hsize.
    destruct (bsearch_within_log ts target f lo hi c Hlo Hsize) as [r Hr].
    destruct (bsearch_returns ts target (Z.to_nat (hi - lo + 1)) lo hi c Hlo
                              (le_n _)) as [r' Hr'].
    exists r. split; [exact Hr|].
    pose proof (bsearch_more_fuel ts target _ _ _ _ _
                  (Z.to_nat (hi - lo + 1)) Hr) as H1.
    pose proof (bsearch_more_fuel ts target _ _ _ _ _ f Hr') as H2.
    rewrite Nat.add_comm in H2. congruence. }
  split; [exact Hgen|].
  intros tip estimatedBlock c Htip lo hi. apply Hgen; subst lo hi; [lia|].
  change (2 ^ Z.of_nat 18) with 262144. lia.
Qed.

Lemma bsearch_probes_logarithmic_witness :
  exists r,
    bsearch 4 (fun n => 10 * n) 37 0 10 10 = Some r
    /\ bsearch (Z.to_nat (10 - 0 + 1)) (fun n => 10 * n) 37 0 10 10 = Some r.
Proof.
  apply (proj1 (bsearch_probes_logarithmic (fun n => 10 * n) 37) 4%nat 0 10 10).
  - lia.
  - vm_compute. reflexivity.
Defined.

(* ================================================================== *)
(** ** Edge cases of the block lookups *)
(* ================================================================== *)

(** X7: when the Tron block index has no block in the window of one hour
    around the target, the lookup asks once more for the blocks up to the
    target itself; it returns the first block of that answer, and throws
    "No Tron block found before this timestamp" when that answer is empty
    too.  Two calls are made, no delay is slept. *)
Theorem tron_lookup_falls_back_then_fails env transport network timestamp d1 d2 :
  let baseUrl :=
    if network === "shasta" then "https://shastapi.tronscan.org/api"
    else "https://apilist.tronscanapi.com/api" in
  let headers := tron_headers (getApiKey env "tron") in
  let window :=
    GetTronBlocks baseUrl (Some ((timestamp - 3600) * 1000))
                  ((timestamp + 3600) * 1000) in
  let upTo := GetTronBlocks baseUrl None (timestamp * 1000) in
  transport window O = Response d1 ->
  block_data d1 = [] ->
  transport upTo 1%nat = Response d2 ->
  getTronBlockNumberByTimestamp env transport network timestamp initial
  = (match block_data d2 with
     | [] => Throw (Error "No Tron block found before this timestamp")
     | b :: _ => Ok (blk_number b)
     end,
     mkWorld [(window, headers); (upTo, headers)] []).
Proof.
  intros baseUrl headers window upTo T1 B1 T2.
  unfold getTronBlockNumberByTimestamp.
  fold baseUrl. fold headers. fold window. fold upTo.
  unfold bind at 1, fetch.
  rewrite (fetchWithRetry_settles transport window headers 0 5 3000 initial);
    [|lia|intros; lia|].
  - change (List.length (calls initial) + 0)%nat with O.
    rewrite T1. cbn [outcome_of]. rewrite B1.
    unfold bind.
    rewrite (fetchWithRetry_settles transport upTo headers 0 5 3000);
      [|lia|intros; lia|].
    + change (List.length (calls (after initial window headers 1
                                        (backoffs 0 3000))) + 0)%nat
        with 1%nat.
      rewrite T2. cbn [outcome_of].
      destruct (block_data d2); reflexivity.
    + change (List.length (calls (after initial window headers 1
                                        (backoffs 0 3000))) + 0)%nat
        with 1%nat.
      now rewrite T2.
  - change (List.length (calls initial) + 0)%nat with O. now rewrite T1.
Qed.

Lemma tron_lookup_falls_back_then_fails_witness :
  getTronBlockNumberByTimestamp (mkEnv None None None None)
    (fun _ _ => Response (BlockList (Some []))) "shasta" 1000 initial
  = (Throw (Error "No Tron block found before this timestamp"),
     mkWorld
       [(GetTronBlocks "https://shastapi.tronscan.org/api" (Some (-2600000))
                       4600000, None);
        (GetTronBlocks "https://shastapi.tronscan.org/api" None 1000000, None)]
       []).
Proof.
  exact (tron_lookup_falls_back_then_fails
           (mkEnv None None None None)
           (fun _ _ => Response (BlockList (Some []))) "shasta" 1000
           (BlockList (Some [])) (BlockList (Some []))
           eq_refl eq_refl eq_refl).
Defined.

(** X8: on bsc mainnet a height answered by the block index is returned as
    it is, after that single call, with no RPC key and no node consulted;
    on any other bsc network the lookup makes no HTTP call at all, and
    without the RPC key it throws "Alchemy API Key missing". *)
Theorem bsc_lookup_fast_path_and_testnet env transport rpc timestamp w :
  (forall height,
      transport (GetLlamaBlock timestamp) (List.length (calls w))
      = Response (LlamaBlock height) ->
      getBscBlockNumberByTimestamp env transport rpc "mainnet" timestamp w
      = (Ok height,
         mkWorld (calls w ++ [(GetLlamaBlock timestamp, None)]) (sleeps w)))
  /\ (forall network,
         (network === "mainnet") = false ->
         snd (getBscBlockNumberByTimestamp env transport rpc network
                                           timestamp w) = w
         /\ (Js.truthy (ALCHEMY_API_KEY env) = false ->
             fst (getBscBlockNumberByTimestamp env transport rpc network
                                               timestamp w)
             = Throw (Error "Alchemy API Key missing"))).
Proof.
  split.
  - intros height T. unfold getBscBlockNumberByTimestamp.
    change ("mainnet" === "mainnet") with true. cbv iota.
    unfold bind at 1, tryCatch, bind, axios_get. rewrite T. reflexivity.
  - intros network Hnet. unfold getBscBlockNumberByTimestamp.
    rewrite Hnet. unfold bind at 1. cbn [ret].
    unfold bind, lift, getRpcUrl. change ("bsc" === "tron") with false.
    cbv iota.
    destruct (ALCHEMY_API_KEY env) as [key|]; cbn [Js.truthy].
    + destruct (key === ""); cbn [negb].
      * split; [reflexivity|]. reflexivity.
      * change ("bsc" === "ethereum") with false.
        change ("bsc" === "polygon") with false.
        change ("bsc" === "bsc") with true. cbv iota.
        unfold ret.
        destruct (bscRpcBinarySearch _ timestamp);
          (split; [reflexivity|discriminate]).
    + split; reflexivity.
Qed.

Lemma bsc_lookup_fast_path_and_testnet_witness :
  getBscBlockNumberByTimestamp (mkEnv None None None None)
    (fun _ _ => Response (LlamaBlock 25000000))
    (fun _ => syntheticChain 0 (fun _ => 0)) "mainnet" 1672531200 initial
  = (Ok 25000000, mkWorld [(GetLlamaBlock 1672531200, None)] []).
Proof.
  exact (proj1 (bsc_lookup_fast_path_and_testnet
                  (mkEnv None None None None)
                  (fun _ _ => Response (LlamaBlock 25000000))
                  (fun _ => syntheticChain 0 (fun _ => 0)) 1672531200 initial)
               25000000 eq_refl).
Defined.

(** X9: the explorer lookup of the other chains makes one call and reads
    the envelope: a status-1 answer gives its block number; the answer
    NOTOK whose result mentions "future" gives the tip of the chain's node
    instead of an error; any other answer is thrown as
    "Explorer API error: <message> (<result>)". *)
Theorem explorer_lookup_reads_envelope env transport rpc chain network
        timestamp cid w :
  (chain === "tron") = false ->
  (chain === "bsc") = false ->
  getChainId chain network = inl cid ->
  let url :=
    GetBlockNoByTime "https://api.etherscan.io/v2/api" timestamp
                     (getApiKey env chain) (Some cid) in
  let w' := mkWorld (calls w ++ [(url, None)]) (sleeps w) in
  let run :=
    getBlockNumberByTimestamp env transport rpc chain network timestamp w in
  (forall n,
      transport url (List.length (calls w)) = Response (ExplorerOk n) ->
      run = (Ok n, w'))
  /\ (forall result rpcUrl,
         transport url (List.length (calls w))
         = Response (ExplorerNotOk "NOTOK" (Some result)) ->
         Js.includes result "future" = true ->
         getRpcUrl env chain network = inl rpcUrl ->
         run = (Ok (tipNumber (rpc rpcUrl)), w'))
  /\ (forall message result,
         transport url (List.length (calls w))
         = Response (ExplorerNotOk message result) ->
         (message === "NOTOK")
         && match result with
            | Some r => Js.includes r "future"
            | None => false
            end = false ->
         run = (Throw (Error ("Explorer API error: " ++ message ++ " ("
                              ++ result_text result ++ ")")), w')).
Proof.
  intros Ht Hb Hcid url w' run.
  assert (Hrun : run
                 = bind (axios_get transport url None)
                        (fun data =>
                           match data with
                           | ExplorerOk result => ret result
                           | ExplorerNotOk message result =>
                             if (message === "NOTOK")
                                && match result with
                                   | Some r => Js.includes r "future"
                                   | None => false
                                   end
                             then
                               bind (lift (getRpcUrl env chain network))
                                    (fun rpcUrl =>
                                       ret (tipNumber (rpc rpcUrl)))
                             else
                               throw (Error ("Explorer API error: " ++ message
                                             ++ " (" ++ result_text result
                                             ++ ")"))
                           | _ =>
                             throw (Error "Explorer API error: undefined (undefined)")
                           end) w).
  { subst run. unfold getBlockNumberByTimestamp. rewrite Ht, Hb.
    unfold getExplorerApiUrl. rewrite Ht, Hb.
    replace (Js.includes "https://api.etherscan.io/v2/api" "/v2/api")
      with true by (vm_compute; reflexivity).
    rewrite Hcid. reflexivity. }
  rewrite Hrun. unfold bind at 1 3 5, axios_get. fold w'.
  split; [|split].
  - intros n T. rewrite T. reflexivity.
  - intros result rpcUrl T Hfut Hurl. rewrite T.
    change ("NOTOK" === "NOTOK") with true. cbn [andb]. rewrite Hfut.
    unfold bind. now rewrite Hurl.
  - intros message result T Hno. rewrite T. now rewrite Hno.
Qed.

Lemma explorer_lookup_reads_envelope_witness :
  getBlockNumberByTimestamp (mkEnv None None (Some "key") (Some "k"))
    (fun _ _ =>
       Response (ExplorerNotOk "NOTOK"
                   (Some "Error! Block timestamp too far in the future")))
    (fun _ => syntheticChain 19000000 (fun n => n))
    "ethereum" "mainnet" 4102444800 initial
  = (Ok 19000000,
     mkWorld
       [(GetBlockNoByTime "https://api.etherscan.io/v2/api" 4102444800
                          (Some "key") (Some (NumId 1)), None)] []).
Proof.
  exact (proj1 (proj2 (explorer_lookup_reads_envelope
                         (mkEnv None None (Some "key") (Some "k"))
                         (fun _ _ =>
                            Response (ExplorerNotOk "NOTOK"
                                        (Some "Error! Block timestamp too far in the future")))
                         (fun _ => syntheticChain 19000000 (fun n => n))
                         "ethereum" "mainnet" 4102444800 (NumId 1) initial
                         eq_refl eq_refl eq_refl))
               "Error! Block timestamp too far in the future"
               "https://eth-mainnet.g.alchemy.com/v2/k"
               eq_refl eq_refl eq_refl).
Defined.

(** X10: the token lookup never throws and never hangs: whatever the
    transport does, 429s to the end included, it returns; and it returns a
    token only when the explorer answered one, the first of its list. *)
Theorem token_info_never_throws env transport tokenAddress network w :
  exists info w',
    getTronTokenInfo env transport tokenAddress network w = (Ok info, w')
    /\ forall t,
        info = Some t ->
        exists n rest,
          transport (GetTrc20Token (getExplorerApiUrl "tron" network)
                                   tokenAddress) n
          = Response (Trc20Tokens (Some (t :: rest))).
Proof.
  unfold getTronTokenInfo, tryCatch, bind.
  destruct (fetch_outcome transport
              (GetTrc20Token (getExplorerApiUrl "tron" network) tokenAddress)
              (tron_headers (getApiKey env "tron")) w) as (k & ds & ->).
  destruct (transport _ (List.length (calls w) + k)%nat) as [d|st msg] eqn:T;
    cbn [outcome_of].
  - destruct d as [| | | | | |[[|t rest]|]]; cbn [ret];
      try (eexists; eexists; split; [reflexivity|discriminate]).
    eexists; eexists; split; [reflexivity|].
    intros t' [= <-]. eauto.
  - eexists; eexists; split; [reflexivity|discriminate].
Qed.

(* ================================================================== *)
(** ** Normalisation applied twice; chain ids *)
(* ================================================================== *)

Lemma hex_digit_plain n :
  (n < 16)%nat ->
  Hex.digit (N.of_nat n) <> "x"%char /\ Hex.digit (N.of_nat n) <> "T"%char.
Proof.
  intros Hn.
  do 16 (destruct n as [|n]; [vm_compute; split; discriminate|]). lia.
Qed.

Lemma hex_digit_plain_N d :
  (d < 16)%N -> Hex.digit d <> "x"%char /\ Hex.digit d <> "T"%char.
Proof.
  intros Hd. rewrite <- (N2Nat.id d). apply hex_digit_plain. lia.
Qed.

(** Hex text begins neither with 0x nor with T. *)
Lemma hex_encode_unprefixed bs :
  Js.startsWith (Hex.encode bs) "0x" = false
  /\ Js.startsWith (Hex.encode bs) "T" = false.
Proof.
  destruct bs as [|b bs]; [split; reflexivity|].
  pose proof (Byte.to_N_bounded b) as Hb.
  assert (H1 : (Byte.to_N b / 16 < 16)%N)
    by (apply N.Div0.div_lt_upper_bound; lia).
  assert (H2 : (Byte.to_N b mod 16 < 16)%N) by (apply N.mod_lt; lia).
  destruct (hex_digit_plain_N _ H1) as [_ HT].
  destruct (hex_digit_plain_N _ H2) as [Hx _].
  unfold Js.startsWith. cbn [Hex.encode String.prefix]. split.
  - destruct (ascii_dec "0" (Hex.digit (Byte.to_N b / 16))); [|reflexivity].
    destruct (ascii_dec "x" (Hex.digit (Byte.to_N b mod 16))); [|reflexivity].
    congruence.
  - destruct (ascii_dec "T" (Hex.digit (Byte.to_N b / 16))); [|reflexivity].
    congruence.
Qed.

(** X11: normalising an address a second time changes nothing: whatever
    [toTronHex] returns is mapped to itself. *)
Theorem toTronHex_idempotent address hex :
  toTronHex address = inl hex -> toTronHex hex = inl hex.
Proof.
  unfold toTronHex at 1.
  destruct (Js.startsWith address "0x") eqn:E0.
  - intros [= <-]. reflexivity.
  - destruct (Js.startsWith address "T") eqn:ET.
    + destruct (Bs58.decode address) as [bytes|]; [|discriminate].
      intros [= <-]. unfold toTronHex.
      destruct (hex_encode_unprefixed (slice_0_minus4 bytes)) as [-> ->].
      reflexivity.
    + intros [= <-]. unfold toTronHex. now rewrite E0, ET.
Qed.

Lemma toTronHex_idempotent_witness :
  toTronHex "41a614f803b6fd780986a42c78ec9c7f77e6ded13c"
  = inl "41a614f803b6fd780986a42c78ec9c7f77e6ded13c".
Proof.
  apply (toTronHex_idempotent "TR7NHqjeKQxGTCi8q8ZY4pL8otSzgjLj6t").
  vm_compute. reflexivity.
Defined.

(** X12: chain ids do not collide: two pairs that resolve to the same id
    name the same chain and agree on being mainnet or not. *)
Theorem chain_ids_do_not_collide chain network chain' network' id :
  getChainId chain network = inl id ->
  getChainId chain' network' = inl id ->
  chain = chain'
  /\ (network === "mainnet") = (network' === "mainnet").
Proof.
  unfold getChainId.
  destruct (String.eqb_spec chain "ethereum") as [->|_];
    [|destruct (String.eqb_spec chain "polygon") as [->|_];
      [|destruct (String.eqb_spec chain "bsc") as [->|_];
        [|destruct (String.eqb_spec chain "tron") as [->|_];
          [|discriminate]]]];
    (destruct (String.eqb_spec chain' "ethereum") as [->|_];
     [|destruct (String.eqb_spec chain' "polygon") as [->|_];
       [|destruct (String.eqb_spec chain' "bsc") as [->|_];
         [|destruct (String.eqb_spec chain' "tron") as [->|_];
           [|intros _; discriminate]]]]);
    destruct (network === "mainnet"), (network' === "mainnet");
    intros [= <-]; intros [=]; split; reflexivity.
Qed.

Lemma chain_ids_do_not_collide_witness :
  "polygon" = "polygon" /\ ("amoy" === "mainnet") = ("testnet" === "mainnet").
Proof.
  exact (chain_ids_do_not_collide "polygon" "amoy" "polygon" "testnet"
                                  (NumId 80002) eq_refl eq_refl).
Defined.

(* ================================================================== *)
(** ** The request handler: refusals and errors *)
(* ================================================================== *)

(** X13: a request without an address or without a date is answered 400
    "Address and Date are required" before anything else happens: no
    outbound call, no delay. *)
Theorem post_rejects_incomplete_request env transport rpc body w :
  body_date body = None \/ Js.truthy (body_address body) = false ->
  POST env transport rpc body w
  = (Ok (JsonError 400 "Address and Date are required"), w).
Proof.
  intros H. unfold POST, tryCatch.
  destruct (body_date body) as [date|]; [|reflexivity].
  destruct H as [H|H]; [discriminate|]. now rewrite H.
Qed.

Lemma post_rejects_incomplete_request_witness :
  POST (mkEnv None None None None) (fun _ _ => Failure None "offline")
       (fun _ => syntheticChain 0 (fun _ => 0))
       (mkBody (Some "") (Some "tron") None (Some 0) None) initial
  = (Ok (JsonError 400 "Address and Date are required"), initial).
Proof.
  apply post_rejects_incomplete_request. right. reflexivity.
Defined.

(** X14: a request for a chain other than ethereum, polygon, bsc and tron
    is answered 500 "Unsupported chain/network: <chain>/<network>" without
    any outbound call. *)
Theorem post_unknown_chain env transport rpc address chain network date token w :
  Js.truthy (Some address) = true ->
  supported_chain chain = false ->
  POST env transport rpc
       (mkBody (Some address) (Some chain) network (Some date) token) w
  = (Ok (JsonError 500
           ("Unsupported chain/network: " ++ chain ++ "/"
            ++ default "mainnet" network)), w).
Proof.
  intros Haddr Hchain. unfold supported_chain in Hchain.
  destruct (chain === "ethereum") eqn:E1; [discriminate|].
  destruct (chain === "polygon") eqn:E2; [discriminate|].
  destruct (chain === "bsc") eqn:E3; [discriminate|].
  destruct (chain === "tron") eqn:E4; [discriminate|].
  unfold POST, tryCatch at 1.
  cbn [body_date body_address body_chain body_network body_tokenAddress
       default].
  rewrite Haddr. cbn [negb].
  unfold bind at 1, getBlockNumberByTimestamp.
  rewrite E4, E3. unfold getExplorerApiUrl. rewrite E4, E3.
  replace (Js.includes "https://api.etherscan.io/v2/api" "/v2/api")
    with true by (vm_compute; reflexivity).
  unfold getChainId. rewrite E1, E2, E3, E4.
  reflexivity.
Qed.

Lemma post_unknown_chain_witness :
  POST (mkEnv None None None (Some "k")) (fun _ _ => Failure None "offline")
       (fun _ => syntheticChain 0 (fun _ => 0))
       (mkBody (Some "0xAAA") (Some "bitcoin") None (Some 0) None) initial
  = (Ok (JsonError 500 "Unsupported chain/network: bitcoin/mainnet"), initial).
Proof.
  exact (post_unknown_chain (mkEnv None None None (Some "k"))
           (fun _ _ => Failure None "offline")
           (fun _ => syntheticChain 0 (fun _ => 0))
           "0xAAA" "bitcoin" None 0 None initial eq_refl eq_refl).
Defined.

Lemma getRpcUrl_without_key env chain network :
  (chain === "tron") = false ->
  Js.truthy (ALCHEMY_API_KEY env) = false ->
  getRpcUrl env chain network = inr (Error "Alchemy API Key missing").
Proof.
  intros Ht Hk. unfold getRpcUrl. rewrite Ht.
  destruct (ALCHEMY_API_KEY env) as [key|]; [|reflexivity].
  cbn [Js.truthy] in Hk. destruct (key === ""); [reflexivity|discriminate].
Qed.

(** X15: on the chains other than tron, a missing RPC key is found out only
    after the block lookup: the lookup runs, with the calls it makes, and
    then the request is answered 500 "Alchemy API Key missing". *)
Theorem post_missing_rpc_key env transport rpc address chain network date
        token w blockNumber w1 :
  Js.truthy (Some address) = true ->
  (chain === "tron") = false ->
  Js.truthy (ALCHEMY_API_KEY env) = false ->
  getBlockNumberByTimestamp env transport rpc chain network (date / 1000) w
  = (Ok blockNumber, w1) ->
  POST env transport rpc
       (mkBody (Some address) (Some chain) (Some network) (Some date) token) w
  = (Ok (JsonError 500 "Alchemy API Key missing"), w1).
Proof.
  intros Haddr Ht Hk Hbn. unfold POST, tryCatch at 1.
  cbn [body_date body_address body_chain body_network body_tokenAddress
       default].
  rewrite Haddr. cbn [negb].
  unfold bind at 1. rewrite Hbn.
  unfold bind at 1. rewrite (getRpcUrl_without_key env chain network Ht Hk).
  reflexivity.
Qed.

Lemma post_missing_rpc_key_witness :
  POST (mkEnv None None (Some "key") None)
       (fun _ _ => Response (ExplorerOk 16308189))
       (fun _ => syntheticChain 0 (fun _ => 0))
       (mkBody (Some "0xAAA") (Some "ethereum") (Some "mainnet")
               (Some 1672531200000) None) initial
  = (Ok (JsonError 500 "Alchemy API Key missing"),
     mkWorld
       [(GetBlockNoByTime "https://api.etherscan.io/v2/api" 1672531200
                          (Some "key") (Some (NumId 1)), None)] []).
Proof.
  exact (post_missing_rpc_key (mkEnv None None (Some "key") None)
           (fun _ _ => Response (ExplorerOk 16308189))
           (fun _ => syntheticChain 0 (fun _ => 0))
           "0xAAA" "ethereum" "mainnet" 1672531200000 None initial
           16308189 _ eq_refl eq_refl eq_refl eq_refl).
Defined.

(* ================================================================== *)
(** ** The request handler: native balances *)
(* ================================================================== *)

(** X16: a native balance query on a chain other than tron reads the
    balance at the resolved block and answers it with 18 decimals and the
    chain's symbol (BNB for bsc, MATIC for polygon, ETH otherwise); when
    the node rejects the balance call, the answer is 500 with the node's
    message.  No call is added to those of the block lookup. *)
Theorem post_native_balance env transport rpc address chain network date w
        blockNumber w1 url :
  Js.truthy (Some address) = true ->
  (chain === "tron") = false ->
  getBlockNumberByTimestamp env transport rpc chain network (date / 1000) w
  = (Ok blockNumber, w1) ->
  getRpcUrl env chain network = inl url ->
  (forall balanceWei,
      getBalance (rpc url) (Js.trim address) blockNumber = inl balanceWei ->
      POST env transport rpc
           (mkBody (Some address) (Some chain) (Some network) (Some date)
                   None) w
      = (Ok (Json200
               (mkBalanceJson chain network (Js.trim address) (date / 1000)
                  blockNumber (Units balanceWei 18) (nativeSymbol chain)
                  balanceWei None)), w1))
  /\ (forall e,
         getBalance (rpc url) (Js.trim address) blockNumber = inr e ->
         error_message e <> "" ->
         POST env transport rpc
              (mkBody (Some address) (Some chain) (Some network) (Some date)
                      None) w
         = (Ok (JsonError 500 (error_message e)), w1)).
Proof.
  intros Haddr Ht Hbn Hurl.
  assert (Hrun : POST env transport rpc
                   (mkBody (Some address) (Some chain) (Some network)
                           (Some date) None) w
                 = match getBalance (rpc url) (Js.trim address) blockNumber with
                   | inl balanceWei =>
                     (Ok (Json200
                            (mkBalanceJson chain network (Js.trim address)
                               (date / 1000) blockNumber (Units balanceWei 18)
                               (nativeSymbol chain) balanceWei None)), w1)
                   | inr e =>
                     (Ok (JsonError 500
                            (if error_message e === ""
                             then "Internal Server Error"
                             else error_message e)), w1)
                   end).
  { unfold POST, tryCatch at 1.
    cbn [body_date body_address body_chain body_network body_tokenAddress
         default].
    rewrite Haddr. cbn [negb Js.truthy].
    unfold bind at 1. rewrite Hbn.
    unfold bind at 1. rewrite Hurl. cbn [lift ret].
    rewrite Ht. cbv iota.
    unfold bind at 1.
    destruct (getBalance (rpc url) (Js.trim address) blockNumber);
      reflexivity. }
  rewrite Hrun. split.
  - intros balanceWei ->. reflexivity.
  - intros e -> Hmsg.
    destruct (String.eqb_spec (error_message e) ""); [contradiction|].
    reflexivity.
Qed.

Lemma post_native_balance_witness :
  POST (mkEnv None None (Some "key") (Some "k"))
       (fun _ _ => Response (ExplorerOk 16308189))
       (fun _ =>
          mkProvider 17000000 (fun n => n)
                     (fun _ _ => inl 1500000000000000000)
                     (fun _ _ _ => inr (Error "no contract"))
                     (fun _ => inr (Error "no contract"))
                     (fun _ => inr (Error "no contract")))
       (mkBody (Some "0xAAA") (Some "ethereum") (Some "mainnet")
               (Some 1672531200000) None) initial
  = (Ok (Json200
           (mkBalanceJson "ethereum" "mainnet" "0xAAA" 1672531200 16308189
              (Units 1500000000000000000 18) "ETH" 1500000000000000000 None)),
     mkWorld
       [(GetBlockNoByTime "https://api.etherscan.io/v2/api" 1672531200
                          (Some "key") (Some (NumId 1)), None)] []).
Proof.
  exact (proj1 (post_native_balance
                  (mkEnv None None (Some "key") (Some "k"))
                  (fun _ _ => Response (ExplorerOk 16308189))
                  (fun _ =>
                     mkProvider 17000000 (fun n => n)
                                (fun _ _ => inl 1500000000000000000)
                                (fun _ _ _ => inr (Error "no contract"))
                                (fun _ => inr (Error "no contract"))
                                (fun _ => inr (Error "no contract")))
                  "0xAAA" "ethereum" "mainnet" 1672531200000 initial
                  16308189 _ "https://eth-mainnet.g.alchemy.com/v2/k"
                  eq_refl eq_refl eq_refl eq_refl)
               1500000000000000000 eq_refl).
Defined.

(** X17: a native Tron query resolves the block twice, once before and
    once inside the Tron branch, and answers the second result; the
    balance is the replayed one, shown with 6 decimals under the symbol
    TRX; when the replay throws, the answer is 500 with the message
    prefixed by "Failed to fetch Tron balance: ". *)
Theorem post_tron_native env transport rpc address network date w
        blockNumber w1 historicalBlockNumber w2 :
  Js.truthy (Some address) = true ->
  getBlockNumberByTimestamp env transport rpc "tron" network (date / 1000) w
  = (Ok blockNumber, w1) ->
  getBlockNumberByTimestamp env transport rpc "tron" network (date / 1000) w1
  = (Ok historicalBlockNumber, w2) ->
  (forall rawBalance w3,
      getTronHistoricalBalance env transport (Js.trim address) network
                               (date / 1000 * 1000) w2
      = (Ok rawBalance, w3) ->
      POST env transport rpc
           (mkBody (Some address) (Some "tron") (Some network) (Some date)
                   None) w
      = (Ok (Json200
               (mkBalanceJson "tron" network (Js.trim address) (date / 1000)
                  historicalBlockNumber (Units rawBalance 6) "TRX" rawBalance
                  (Some "Historical balance calculated via transaction replay"))),
         w3))
  /\ (forall e w3,
         getTronHistoricalBalance env transport (Js.trim address) network
                                  (date / 1000 * 1000) w2
         = (Throw e, w3) ->
         POST env transport rpc
              (mkBody (Some address) (Some "tron") (Some network) (Some date)
                      None) w
         = (Ok (JsonError 500
                  ("Failed to fetch Tron balance: " ++ error_message e)),
            w3)).
Proof.
  intros Haddr Hbn Hhbn.
  assert (Hurl : exists url, getRpcUrl env "tron" network = inl url).
  { unfold getRpcUrl. change ("tron" === "tron") with true. cbv iota.
    destruct (network === "shasta"); eauto. }
  destruct Hurl as [url Hurl].
  split.
  - intros rawBalance w3 Hraw. unfold POST, tryCatch at 1.
    cbn [body_date body_address body_chain body_network body_tokenAddress
         default].
    rewrite Haddr. cbn [negb Js.truthy].
    unfold bind at 1. rewrite Hbn.
    unfold bind at 1. rewrite Hurl. cbn [lift ret].
    change ("tron" === "tron") with true. cbv iota.
    unfold bind at 1, tronBalance, tryCatch at 1.
    unfold bind at 1. rewrite Hhbn. cbn [Js.truthy].
    unfold bind at 1. rewrite Hraw. reflexivity.
  - intros e w3 Hraw. unfold POST, tryCatch at 1.
    cbn [body_date body_address body_chain body_network body_tokenAddress
         default].
    rewrite Haddr. cbn [negb Js.truthy].
    unfold bind at 1. rewrite Hbn.
    unfold bind at 1. rewrite Hurl. cbn [lift ret].
    change ("tron" === "tron") with true. cbv iota.
    unfold bind at 1, tronBalance, tryCatch at 1.
    unfold bind at 1. rewrite Hhbn. cbn [Js.truthy].
    unfold bind at 1. rewrite Hraw. reflexivity.
Qed.

Lemma post_tron_native_witness :
  let me := "TR7NHqjeKQxGTCi8q8ZY4pL8otSzgjLj6t" in
  let other := "TLa2f6VPqDgRE67v1736s7bJ8Ray5wYjU7" in
  let upstream : Transport :=
    fun req n =>
      match req with
      | GetTronBlocks _ _ _ =>
        Response (BlockList (Some [mkTronBlock (Z.of_nat n) 0]))
      | _ => pagedUpstream [transferTx 5 other me 144000000 0] [] req n
      end in
  fst (POST (mkEnv None None None None) upstream
            (fun _ => syntheticChain 0 (fun _ => 0))
            (mkBody (Some me) (Some "tron") (Some "mainnet") (Some 1000000)
                    None) initial)
  = Ok (Json200
          (mkBalanceJson "tron" "mainnet" me 1000 1 (Units 144000000 6) "TRX"
             144000000
             (Some "Historical balance calculated via transaction replay"))).
Proof.
  intros me other upstream.
  refine (f_equal fst
            (proj1 (post_tron_native (mkEnv None None None None) upstream
                      (fun _ => syntheticChain 0 (fun _ => 0))
                      me "mainnet" 1000000 initial 0 _ 1 _
                      eq_refl _ _)
                   144000000 _ _)).
  - vm_compute. reflexivity.
  - vm_compute. reflexivity.
  - vm_compute. reflexivity.
Defined.

(* ================================================================== *)
(** ** Failures while paginating; token metadata *)
(* ================================================================== *)

(** X18: a page that fails aborts the pagination at whatever point it has
    reached: the rows fetched so far are dropped and the error thrown is
    the label followed by the HTTP status.  A failure other than 429
    aborts after that one call; a page answered 429 six times aborts with
    the status 429 after the six calls and their five delays. *)
Theorem pagination_failure_drops_rows {E : Type} transport fuel request headers
        (rows : Payload -> list E) cap label all start w :
  (forall st msg,
      transport (request start) (List.length (calls w))
      = Failure (Some st) msg ->
      st <> 429 -> st <> 0 ->
      paginate transport (S fuel) request headers rows cap label all start w
      = (Throw (Error (label ++ Js.showZ st)),
         after w (request start) headers 1 []))
  /\ ((forall i, (i <= 5)%nat ->
                 rateLimited (transport (request start)
                                        (List.length (calls w) + i)%nat) = true) ->
      paginate transport (S fuel) request headers rows cap label all start w
      = (Throw (Error (label ++ "429")),
         after w (request start) headers 6
               [3000; 6000; 12000; 24000; 48000])).
Proof.
  split.
  - intros st msg T H429 H0. cbn [paginate].
    unfold bind at 1, tryCatch, bind, fetch.
    rewrite (fetchWithRetry_settles transport (request start) headers 0 5 3000
                                    w); [|lia|intros; lia|];
      rewrite Nat.add_0_r, T; cbn [outcome_of rateLimited].
    + unfold throw, status_or_message. cbn [response_status].
      destruct (Z.eqb_spec st 0); [contradiction|]. reflexivity.
    + now apply Z.eqb_neq.
  - intros Hall. cbn [paginate].
    unfold bind at 1, tryCatch, bind, fetch.
    rewrite (fetchWithRetry_exhausts transport (request start) headers 5 3000
                                     w Hall).
    destruct (rateLimited_is429 _ (Hall 5%nat (le_n _))) as [msg ->].
    reflexivity.
Qed.

Lemma pagination_failure_drops_rows_witness :
  fetchAllTransactions (mkEnv None None None None)
    (fun _ _ => Failure (Some 503) "Service Unavailable") "a" "mainnet" initial
  = (Throw (Error "Failed to fetch transactions: 503"),
     after initial
           (GetTronTransactions "https://apilist.tronscanapi.com/api" "a" 50 0)
           None 1 []).
Proof.
  unfold fetchAllTransactions.
  replace (Z.to_nat 10000) with (S (Z.to_nat 9999)) by lia.
  refine (proj1 (pagination_failure_drops_rows
                   (fun _ _ => Failure (Some 503) "Service Unavailable")
                   (Z.to_nat 9999) _ None tx_rows 10000
                   "Failed to fetch transactions: " [] 0 initial)
                503 "Service Unavailable" eq_refl _ _); discriminate.
Defined.

(** X19: a TRC-20 query whose token lookup succeeds is answered under the
    token's own symbol and with the token's decimals, except that a token
    reporting 0 decimals, or none, is shown with 18. *)
Theorem post_tron_token_metadata env transport rpc address network date token
        w blockNumber w1 historicalBlockNumber w2 info w3 rawBalance w4 :
  Js.truthy (Some address) = true ->
  Js.truthy (Some (Js.trim token)) = true ->
  getBlockNumberByTimestamp env transport rpc "tron" network (date / 1000) w
  = (Ok blockNumber, w1) ->
  getBlockNumberByTimestamp env transport rpc "tron" network (date / 1000) w1
  = (Ok historicalBlockNumber, w2) ->
  getTronTokenInfo env transport (Js.trim token) network w2
  = (Ok (Some info), w3) ->
  getTronTokenHistoricalBalance env transport (Js.trim address)
    (Js.trim token) network (date / 1000 * 1000) w3
  = (Ok rawBalance, w4) ->
  POST env transport rpc
       (mkBody (Some address) (Some "tron") (Some network) (Some date)
               (Some token)) w
  = (Ok (Json200
           (mkBalanceJson "tron" network (Js.trim address) (date / 1000)
              historicalBlockNumber
              (Units rawBalance
                     (match ti_decimals info with
                      | Some 0 | None => 18
                      | Some d => d
                      end))
              (ti_symbol info) rawBalance
              (Some "Historical balance calculated via transaction replay"))),
     w4).
Proof.
  intros Haddr Htok Hbn Hhbn Hinfo Hraw.
  pose proof (truthy_trim _ Htok) as Htok'.
  unfold POST, tryCatch at 1.
  cbn [body_date body_address body_chain body_network body_tokenAddress
       default].
  rewrite Haddr, Htok'. cbn [negb option_map].
  unfold bind at 1. rewrite Hbn.
  unfold bind at 1.
  assert (Hurl : exists url, getRpcUrl env "tron" network = inl url).
  { unfold getRpcUrl. change ("tron" === "tron") with true. cbv iota.
    destruct (network === "shasta"); eauto. }
  destruct Hurl as [url ->]. cbn [lift ret].
  change ("tron" === "tron") with true. cbv iota.
  unfold bind at 1, tronBalance, tryCatch at 1.
  unfold bind at 1. rewrite Hhbn. rewrite Htok. cbn [default].
  unfold bind at 1. rewrite Hinfo.
  unfold bind at 1. rewrite Hraw.
  unfold decimalsOr18.
  destruct (ti_decimals info) as [[|d|d]|]; reflexivity.
Qed.

Lemma post_tron_token_metadata_witness :
  let me := "TR7NHqjeKQxGTCi8q8ZY4pL8otSzgjLj6t" in
  let token := "TXLAQ63Xg1NAzckPwKHvzw7CSEmLMEqcdj" in
  let upstream : Transport :=
    fun req n =>
      match req with
      | GetTronBlocks _ _ _ => Response (BlockList (Some [mkTronBlock 7 0]))
      | GetTrc20Token _ _ =>
        Response (Trc20Tokens (Some [mkTokenInfo "NFT" (Some 0)]))
      | _ => pagedUpstream [] [mkTransfer 5 token me 3] req n
      end in
  fst (POST (mkEnv None None None None) upstream
            (fun _ => syntheticChain 0 (fun _ => 0))
            (mkBody (Some me) (Some "tron") (Some "mainnet") (Some 1000000)
                    (Some token)) initial)
  = Ok (Json200
          (mkBalanceJson "tron" "mainnet" me 1000 7 (Units 3 18) "NFT" 3
             (Some "Historical balance calculated via transaction replay"))).
Proof.
  intros me token upstream.
  refine (f_equal fst
            (post_tron_token_metadata (mkEnv None None None None) upstream
               (fun _ => syntheticChain 0 (fun _ => 0))
               me "mainnet" 1000000 token initial 7 _ 7 _
               (mkTokenInfo "NFT" (Some 0)) _ 3 _
               eq_refl eq_refl _ _ _ _)).
  - vm_compute. reflexivity.
  - vm_compute. reflexivity.
  - vm_compute. reflexivity.
  - vm_compute. reflexivity.
Defined.
